(** * WutheringWaves-Navigator: coordinate recognition and calibration

    A shallow embedding of the recognition pipeline of [src/ocr_engine.py]
    (glyph clusterer, coordinate selector, coordinate parser, tracking state
    machine) and of the calibration code of [src/main_app.py]
    ([CalibrationDataManager.get_map_key],
    [CalibrationSystem.calculate_transform_matrix],
    [CalibrationSystem.transform]).

    Conventions of the embedding:
    - a Python [str] is a Rocq [string], one [ascii] per code point (code
      points below 256);
    - a Python [int] is a [Z];
    - pixel coordinates and the other [float] quantities are exact rationals
      ([Q]); rounding is not modelled;
    - the [re] module is embedded as a small backtracking matcher over a
      regular-expression syntax tree, so each pattern of the source appears
      as a term of type [regex];
    - the mutable fields of [OCRWorker] are a record threaded through a state
      monad that also collects the emitted Qt signals. *)

From Stdlib Require Import List Bool Arith ZArith QArith Lia String Ascii.
From Stdlib Require Import Sorting.Sorted Sorting.Permutation.
From Stdlib Require Import Reals Lra.
Import ListNotations.

Local Close Scope Q_scope.
Local Open Scope string_scope.
Local Open Scope list_scope.
Local Open Scope nat_scope.

(** ** Python strings *)

Module PyStr.

(** [str.isspace] on one code point below 256; it is also the class [\s] of
    [re] on [str] patterns, and the set removed by [str.strip]. *)
Definition is_space (c : ascii) : bool :=
  let n := nat_of_ascii c in
  ((9 <=? n) && (n <=? 13)) || ((28 <=? n) && (n <=? 32))
  || (n =? 133) || (n =? 160).

(** The class [\d] of [re] on code points below 256: the ASCII digits. *)
Definition is_digit (c : ascii) : bool :=
  let n := nat_of_ascii c in (48 <=? n) && (n <=? 57).

(** [str.isdigit] on one code point below 256: the ASCII digits and the
    superscripts two, three and one. *)
Definition isdigit_char (c : ascii) : bool :=
  let n := nat_of_ascii c in
  is_digit c || (n =? 178) || (n =? 179) || (n =? 185).

Fixpoint forallb (p : ascii -> bool) (s : string) : bool :=
  match s with
  | EmptyString => true
  | String c s' => p c && forallb p s'
  end.

(** [s.isdigit()]: false on the empty string. *)
Definition isdigit (s : string) : bool :=
  match s with
  | EmptyString => false
  | _ => forallb isdigit_char s
  end.

(** [s[:n]] and [s[n:]] for [n >= 0]. *)
Fixpoint take (n : nat) (s : string) : string :=
  match n, s with
  | S n', String c s' => String c (take n' s')
  | _, _ => EmptyString
  end.

Fixpoint drop (n : nat) (s : string) : string :=
  match n, s with
  | S n', String _ s' => drop n' s'
  | _, _ => s
  end.

(** [s.replace(c, "")] for a one-character [c]. *)
Fixpoint remove (c : ascii) (s : string) : string :=
  match s with
  | EmptyString => EmptyString
  | String c' s' =>
      if Ascii.eqb c c' then remove c s' else String c' (remove c s')
  end.

Fixpoint lstrip (s : string) : string :=
  match s with
  | EmptyString => EmptyString
  | String c s' => if is_space c then lstrip s' else s
  end.

Fixpoint rstrip (s : string) : string :=
  match s with
  | EmptyString => EmptyString
  | String c s' =>
      match rstrip s' with
      | EmptyString => if is_space c then EmptyString else String c EmptyString
      | r => String c r
      end
  end.

Definition strip (s : string) : string := rstrip (lstrip s).

(** [s in l] for a list of strings. *)
Definition mem (s : string) (l : list string) : bool :=
  existsb (String.eqb s) l.

(** Value of a string of ASCII digits, most significant first. *)
Fixpoint digits_value (acc : Z) (s : string) : option Z :=
  match s with
  | EmptyString => Some acc
  | String c s' =>
      if is_digit c
      then digits_value (10 * acc + (Z.of_nat (nat_of_ascii c) - 48))%Z s'
      else None
  end.

(** [int(s)] on the shapes the coordinate grammar can capture: an optional
    minus sign and at least one ASCII digit.  [None] stands for
    [ValueError]. *)
Definition int (s : string) : option Z :=
  match s with
  | EmptyString => None
  | String "-" EmptyString => None
  | String "-" s' => option_map Z.opp (digits_value 0 s')
  | _ => digits_value 0 s
  end.

End PyStr.

(** ** The [re] module *)

Module Re.

Inductive regex : Type :=
| Bos                                   (* ^ *)
| Eos                                   (* $ *)
| Chr (c : ascii)                       (* a literal character *)
| Cls (p : ascii -> bool)               (* \d, \s, [23] *)
| Cat (r1 r2 : regex)                   (* r1 r2 *)
| Opt (r : regex)                       (* r?, greedy *)
| Rep (r : regex) (lo : nat) (hi : option nat)  (* r{lo,hi}; r{lo,}; greedy *)
| Grp (r : regex).                      (* ( r ), a capturing group *)

(** A match in progress: the position reached, the text still to read and
    the groups captured so far. *)
Definition cont (R : Type) : Type := nat -> string -> list string -> option R.

(** Backtracking matcher in continuation-passing style.  [m r pos s caps k]
    matches [r] at position [pos], where [s] is the text from [pos] on, and
    hands the rest to [k]; an alternative is tried when [k] fails.  An
    unbounded repetition is cut at the length of the text. *)
Fixpoint m {R : Type} (r : regex) (pos : nat) (s : string)
    (caps : list string) (k : cont R) {struct r} : option R :=
  match r with
  | Bos => if (pos =? 0)%nat then k pos s caps else None
  | Eos =>
      match s with
      | EmptyString => k pos s caps
      | String c EmptyString =>
          if Ascii.eqb c "010" then k pos s caps else None
      | _ => None
      end
  | Chr c =>
      match s with
      | String c' s' => if Ascii.eqb c c' then k (S pos) s' caps else None
      | EmptyString => None
      end
  | Cls p =>
      match s with
      | String c' s' => if p c' then k (S pos) s' caps else None
      | EmptyString => None
      end
  | Cat r1 r2 => m r1 pos s caps (fun pos' s' caps' => m r2 pos' s' caps' k)
  | Opt r1 =>
      match m r1 pos s caps k with
      | Some x => Some x
      | None => k pos s caps
      end
  | Rep r1 lo hi =>
      (fix loop (n lo : nat) (pos : nat) (s : string) (caps : list string)
         : option R :=
         match n with
         | O => if (lo =? 0)%nat then k pos s caps else None
         | S n' =>
             match m r1 pos s caps
                     (fun pos' s' caps' => loop n' (pred lo) pos' s' caps') with
             | Some x => Some x
             | None => if (lo =? 0)%nat then k pos s caps else None
             end
         end)
        (match hi with Some h => h | None => lo + String.length s end)
        lo pos s caps
  | Grp r1 =>
      m r1 pos s caps
        (fun pos' s' caps' => k pos' s' (caps' ++ [PyStr.take (pos' - pos) s]))
  end.

(** A successful match: where it ends and its groups. *)
Definition accept : cont (nat * list string) :=
  fun pos _ caps => Some (pos, caps).

(** [pattern.match(s)]: [Some (end, groups)] or [None]. *)
Definition re_match (r : regex) (s : string) : option (nat * list string) :=
  m r 0 s [] accept.

(** Leftmost match at or after [pos], the text from [pos] on being [s]. *)
Fixpoint search_from (r : regex) (pos : nat) (s : string)
    : option (nat * nat * list string) :=
  match m r pos s [] accept with
  | Some (e, caps) => Some (pos, e, caps)
  | None =>
      match s with
      | EmptyString => None
      | String _ s' => search_from r (S pos) s'
      end
  end.

(** [pattern.search(s)]: [Some (start, end, groups)] or [None]. *)
Definition re_search (r : regex) (s : string)
    : option (nat * nat * list string) :=
  search_from r 0 s.

(** [re.split(r, s, maxsplit=1)] for a pattern without groups that matches
    no empty string. *)
Definition re_split1 (r : regex) (s : string) : list string :=
  match re_search r s with
  | Some (st, e, _) => [PyStr.take st s; PyStr.drop e s]
  | None => [s]
  end.

(** [pattern.sub("", s)] for a pattern that matches no empty string: every
    match, leftmost first and not overlapping, is deleted. *)
Fixpoint sub_empty_from (fuel : nat) (r : regex) (pos : nat) (s : string)
    : string :=
  match fuel with
  | O => s
  | S fuel' =>
      match search_from r pos s with
      | Some (st, e, _) =>
          (PyStr.take (st - pos) s
             ++ sub_empty_from fuel' r e (PyStr.drop (e - pos) s))%string
      | None => s
      end
  end.

Definition re_sub_empty (r : regex) (s : string) : string :=
  sub_empty_from (S (String.length s)) r 0 s.

Definition digit : regex := Cls PyStr.is_digit.   (* \d *)
Definition space : regex := Cls PyStr.is_space.   (* \s *)

End Re.

(** ** Detections and clusters *)

(** One detection of the classifier: the dictionary with the keys ['class'],
    ['bbox'] and ['confidence'];  [bbox] is [(x1, y1, x2, y2)]. *)
Record detection : Type := {
  class : Z;
  bbox : Q * Q * Q * Q;
  confidence : Q
}.

Definition bbox_x1 (d : detection) : Q := let '(x1, _, _, _) := bbox d in x1.
Definition bbox_x2 (d : detection) : Q := let '(_, _, x2, _) := bbox d in x2.

(** One cluster: the dictionary with the keys ['word'] and ['detections']. *)
Record cluster : Type := {
  word : string;
  detections : list detection
}.

(** [a > b] on the rationals. *)
Definition Qgtb (a b : Q) : bool := negb (Qle_bool a b).

(** [max(a, b)]: the first argument unless the second is larger. *)
Definition py_max (a b : Q) : Q := if Qgtb b a then b else a.

(** A stable sort by a rational key, as [list.sort(key=...)] and
    [sorted(..., key=...)] are: an element goes before the first element
    whose key is not smaller than its own, and the elements are inserted from
    the last to the first. *)
Section Sort.
Context {A : Type} (key : A -> Q).

Fixpoint insert_by (x : A) (l : list A) : list A :=
  match l with
  | [] => [x]
  | y :: l' =>
      if Qle_bool (key x) (key y) then x :: l else y :: insert_by x l'
  end.

Fixpoint sort_by (l : list A) : list A :=
  match l with
  | [] => []
  | x :: l' => insert_by x (sort_by l')
  end.
End Sort.

(** [OCRWorker._CLASS_NAMES_STATIC], the table of the class attribute. *)
Definition _CLASS_NAMES_STATIC : list string :=
  ["0"; "1"; "2"; "3"; "4"; "5"; "6"; "7"; "8"; "9"; ","; ":"; "-"].

(** [OCRWorker._class_id_to_char_static]. *)
Definition _class_id_to_char_static (class_id : Z) : option string :=
  if ((0 <=? class_id)%Z
      && (class_id <? Z.of_nat (List.length _CLASS_NAMES_STATIC))%Z)%bool
  then nth_error _CLASS_NAMES_STATIC (Z.to_nat class_id)
  else None.

(** Truth value of a [str | None]: [None] and the empty string are false. *)
Definition truthy (char : option string) : bool :=
  match char with
  | Some (String _ _) => true
  | _ => false
  end.

(** [char or ""]. *)
Definition or_empty (char : option string) : string :=
  match char with
  | Some s => s
  | None => ""
  end.

(** ** Glyph clusterer: [cluster_detections_to_rich_clusters] *)

(** The first loop: total width and number of the characters that count for
    the average width. *)
Definition width_stats (detections : list detection) : Q * Z :=
  fold_left
    (fun (acc : Q * Z) detection =>
       let '(total_width, valid_char_count) := acc in
       let char := _class_id_to_char_static (class detection) in
       if (truthy char
           && (PyStr.isdigit (or_empty char)
               || PyStr.mem (or_empty char) ["-"; ","]))%bool
       then
         let width := (bbox_x2 detection - bbox_x1 detection)%Q in
         if Qgtb width 0
         then ((total_width + width)%Q, (valid_char_count + 1)%Z)
         else acc
       else acc)
    detections (0%Q, 0%Z).

(** The second loop: [detections[i].x1 - detections[i-1].x2] for [i >= 1]. *)
Fixpoint gaps_of (detections : list detection) : list Q :=
  match detections with
  | prev :: (curr :: _) as tl => (bbox_x1 curr - bbox_x2 prev)%Q :: gaps_of tl
  | _ => []
  end.

Definition separation_threshold_of (avg_char_width : Q) (gaps : list Q) : Q :=
  match gaps with
  | [] => (avg_char_width * (18 # 10))%Q
  | _ =>
      let threshold_1 := (avg_char_width * (18 # 10))%Q in
      let gaps_sorted := sort_by (fun g => g) gaps in
      let threshold_2 :=
        if 2 <? List.length gaps_sorted
        then
          (* int(len(gaps_sorted) * 0.75) *)
          let percentile_75_index := (List.length gaps_sorted * 3) / 4 in
          let percentile_75_gap := nth percentile_75_index gaps_sorted 0%Q in
          (percentile_75_gap * 2)%Q
        else threshold_1 in
      py_max threshold_1 threshold_2
  end.

(** The variables of the third loop. *)
Record walk : Type := {
  clusters : list cluster;
  current_word : string;
  current_detections_list : list detection;
  last_x2 : option Q
}.

(** One iteration of the third loop. *)
Definition walk_step (avg_char_width separation_threshold : Q)
    (st : walk) (detection : detection) : walk :=
  let char := _class_id_to_char_static (class detection) in
  if negb (truthy char) then st
  else
    let char := or_empty char in
    let x1 := bbox_x1 detection in
    let x2 := bbox_x2 detection in
    match last_x2 st with
    | None =>
        {| clusters := clusters st;
           current_word := char;
           current_detections_list := [detection];
           last_x2 := Some x2 |}
    | Some last =>
        let gap := (x1 - last)%Q in
        let should_separate := false in
        let should_separate :=
          if Qgtb gap separation_threshold then true else should_separate in
        let should_separate :=
          if Qgtb gap (avg_char_width * (25 # 10))%Q
          then true else should_separate in
        let should_separate :=
          if (PyStr.isdigit
                (PyStr.remove "-" (PyStr.remove "," (current_word st)))
              && (4 <=? String.length (current_word st))
              && PyStr.isdigit char
              && Qgtb gap (avg_char_width * 2)%Q)%bool
          then true else should_separate in
        if should_separate
        then
          {| clusters :=
               match current_word st with
               | EmptyString => clusters st
               | _ =>
                   clusters st
                   ++ [ {| word := current_word st;
                           detections := current_detections_list st |} ]
               end;
             current_word := char;
             current_detections_list := [detection];
             last_x2 := Some x2 |}
        else
          {| clusters := clusters st;
             current_word := (current_word st ++ char)%string;
             current_detections_list :=
               current_detections_list st ++ [detection];
             last_x2 := Some x2 |}
    end.

Definition cluster_detections_to_rich_clusters (detections : list detection)
    : list cluster :=
  match detections with
  | [] => []
  | _ =>
      let detections := sort_by bbox_x1 detections in
      let '(total_width, valid_char_count) := width_stats detections in
      if (valid_char_count =? 0)%Z then []
      else
        let avg_char_width := (total_width / inject_Z valid_char_count)%Q in
        let gaps := gaps_of detections in
        let separation_threshold :=
          separation_threshold_of avg_char_width gaps in
        let st :=
          fold_left (walk_step avg_char_width separation_threshold) detections
            {| clusters := []; current_word := "";
               current_detections_list := []; last_x2 := None |} in
        match current_word st with
        | EmptyString => clusters st
        | _ =>
            clusters st
            ++ [ {| word := current_word st;
                    detections := current_detections_list st |} ]
        end
  end.

(** ** Coordinate selector: [find_best_coordinate_cluster] *)

(** [-?\d{1,7}] *)
Definition component : Re.regex :=
  Re.Cat (Re.Opt (Re.Chr "-")) (Re.Rep Re.digit 1 (Some 7)).

(** [coord_pattern] of the selector: [^-?\d{1,7},-?\d{1,7},-?\d{1,7}] *)
Definition select_coord_pattern : Re.regex :=
  Re.Cat Re.Bos
    (Re.Cat component
       (Re.Cat (Re.Chr ",")
          (Re.Cat component (Re.Cat (Re.Chr ",") component)))).

(** The text of ['reason'] in a selection detail. *)
Inductive reason : Type :=
| reason_matches_format
| reason_no_match.

(** One entry of [selection_details]. *)
Record detail : Type := {
  detail_word : string;
  detail_cleaned : string;
  detail_matched : bool;
  detail_reason : reason
}.

(** [word.replace(" ", "").replace("\t", "")] *)
Definition cleaned_word_of (word : string) : string :=
  PyStr.remove "009" (PyStr.remove " " word).

(** One iteration of the loop over the clusters. *)
Definition select_step (acc : option cluster * list detail) (c : cluster)
    : option cluster * list detail :=
  let '(best_cluster, selection_details) := acc in
  let cleaned_word := cleaned_word_of (word c) in
  match Re.re_match select_coord_pattern cleaned_word with
  | Some _ =>
      let detail :=
        {| detail_word := word c; detail_cleaned := cleaned_word;
           detail_matched := true; detail_reason := reason_matches_format |} in
      let best_cluster :=
        match best_cluster with
        | None => Some c
        | Some best =>
            (* len(cleaned_word) > len(best_cluster['word'].replace(" ", "")) *)
            if String.length (PyStr.remove " " (word best))
               <? String.length cleaned_word
            then Some c else Some best
        end in
      (best_cluster, selection_details ++ [detail])
  | None =>
      let detail :=
        {| detail_word := word c; detail_cleaned := cleaned_word;
           detail_matched := false; detail_reason := reason_no_match |} in
      (best_cluster, selection_details ++ [detail])
  end.

Definition find_best_coordinate_cluster (clusters : list cluster)
    : option cluster * list detail :=
  fold_left select_step clusters (None, []).

(** ** Timestamp removal: [OCRWorker._remove_timestamp_from_coord_string] *)

(** [[23]] *)
Definition is_2_or_3 (c : ascii) : bool :=
  (Ascii.eqb c "2" || Ascii.eqb c "3")%bool.

(** [timestamp_pattern]: [20[23]\d-] *)
Definition timestamp_pattern : Re.regex :=
  Re.Cat (Re.Chr "2")
    (Re.Cat (Re.Chr "0")
       (Re.Cat (Re.Cls is_2_or_3) (Re.Cat Re.digit (Re.Chr "-")))).

(** The pattern of the split: [\s{2,}] *)
Definition spaces_pattern : Re.regex := Re.Rep Re.space 2 None.

(** [year_only_pattern]: [\s+20[23]\d$] *)
Definition year_only_pattern : Re.regex :=
  Re.Cat (Re.Rep Re.space 1 None)
    (Re.Cat (Re.Chr "2")
       (Re.Cat (Re.Chr "0")
          (Re.Cat (Re.Cls is_2_or_3) (Re.Cat Re.digit Re.Eos)))).

Definition _remove_timestamp_from_coord_string (coord_str : string) : string :=
  match Re.re_search timestamp_pattern coord_str with
  | Some (timestamp_start, _, _) =>
      PyStr.rstrip (PyStr.take timestamp_start coord_str)
  | None =>
      let space_split := Re.re_split1 spaces_pattern coord_str in
      if 1 <? List.length space_split
      then PyStr.strip (nth 0 space_split "")
      else
        match Re.re_search year_only_pattern coord_str with
        | Some _ => PyStr.strip (Re.re_sub_empty year_only_pattern coord_str)
        | None => coord_str
        end
  end.

(** ** The worker: state, signals and the monad of its methods *)

Inductive RecognitionState : Type :=
| LOCKED
| LOST
| SEARCHING.

Definition RecognitionState_eqb (a b : RecognitionState) : bool :=
  match a, b with
  | LOCKED, LOCKED | LOST, LOST | SEARCHING, SEARCHING => true
  | _, _ => false
  end.

Definition coord : Type := (Z * Z * Z)%type.

(** What a text sent on [ocr_output_updated] reports; the wording of the
    message is left out, the values it interpolates are kept. *)
Inductive ocr_output : Type :=
| out_recognized (coord_str_cleaned : string)
| out_coordinate (c : coord)
| out_out_of_range (c : coord)
| out_conversion_error (coord_str_cleaned : string)
| out_format_mismatch (coord_str_cleaned : string)
| out_final (c : coord)
| out_debug_info (state : RecognitionState) (detection_count : nat)
    (cluster_words : list string) (selected_word : option string).

(** The Qt signals of [OCRWorker] that the tracking code emits. *)
Inductive signal : Type :=
| coordinates_detected (x y z : Z)
| recognition_state_changed (s : RecognitionState)
| ocr_output_updated (o : ocr_output).

(** The fields of [OCRWorker] that the tracking code reads or writes. *)
Record OCRWorker : Type := {
  recognition_state : RecognitionState;
  last_valid_coord : option coord;
  last_valid_detections : option (list detection);
  consecutive_failures : Z;
  max_speed_threshold : Z;
  lost_threshold_frames : Z;
  z_axis_threshold : Z
}.

Definition set_recognition_state (v : RecognitionState) (w : OCRWorker)
    : OCRWorker :=
  {| recognition_state := v;
     last_valid_coord := last_valid_coord w;
     last_valid_detections := last_valid_detections w;
     consecutive_failures := consecutive_failures w;
     max_speed_threshold := max_speed_threshold w;
     lost_threshold_frames := lost_threshold_frames w;
     z_axis_threshold := z_axis_threshold w |}.

Definition set_last_valid_coord (v : option coord) (w : OCRWorker)
    : OCRWorker :=
  {| recognition_state := recognition_state w;
     last_valid_coord := v;
     last_valid_detections := last_valid_detections w;
     consecutive_failures := consecutive_failures w;
     max_speed_threshold := max_speed_threshold w;
     lost_threshold_frames := lost_threshold_frames w;
     z_axis_threshold := z_axis_threshold w |}.

Definition set_last_valid_detections (v : option (list detection))
    (w : OCRWorker) : OCRWorker :=
  {| recognition_state := recognition_state w;
     last_valid_coord := last_valid_coord w;
     last_valid_detections := v;
     consecutive_failures := consecutive_failures w;
     max_speed_threshold := max_speed_threshold w;
     lost_threshold_frames := lost_threshold_frames w;
     z_axis_threshold := z_axis_threshold w |}.

Definition set_consecutive_failures (v : Z) (w : OCRWorker) : OCRWorker :=
  {| recognition_state := recognition_state w;
     last_valid_coord := last_valid_coord w;
     last_valid_detections := last_valid_detections w;
     consecutive_failures := v;
     max_speed_threshold := max_speed_threshold w;
     lost_threshold_frames := lost_threshold_frames w;
     z_axis_threshold := z_axis_threshold w |}.

(** The state of [__init__] and of the reset at the start of [run]. *)
Definition initial_worker (max_speed lost_frames z_axis : Z) : OCRWorker :=
  {| recognition_state := SEARCHING;
     last_valid_coord := None;
     last_valid_detections := None;
     consecutive_failures := 0;
     max_speed_threshold := max_speed;
     lost_threshold_frames := lost_frames;
     z_axis_threshold := z_axis |}.

(** A method of the worker: it reads and writes the fields and emits
    signals, in order. *)
Definition M (A : Type) : Type := OCRWorker -> A * OCRWorker * list signal.

Definition ret {A : Type} (a : A) : M A := fun w => (a, w, []).

Definition bind {A B : Type} (c : M A) (f : A -> M B) : M B :=
  fun w =>
    let '(a, w1, e1) := c w in
    let '(b, w2, e2) := f a w1 in
    (b, w2, e1 ++ e2).

Definition get : M OCRWorker := fun w => (w, w, []).
Definition modify (f : OCRWorker -> OCRWorker) : M unit :=
  fun w => (tt, f w, []).
Definition emit (s : signal) : M unit := fun w => (tt, w, [s]).

Declare Scope worker_scope.
Delimit Scope worker_scope with worker.
Notation "x <- c ;; k" := (bind c (fun x => k))
  (at level 61, c at next level, right associativity) : worker_scope.
Notation "c ;; k" := (bind c (fun _ => k))
  (at level 61, right associativity) : worker_scope.
Local Open Scope worker_scope.

Definition result_of {A : Type} (r : A * OCRWorker * list signal) : A :=
  fst (fst r).
Definition worker_of {A : Type} (r : A * OCRWorker * list signal)
    : OCRWorker := snd (fst r).
Definition signals_of {A : Type} (r : A * OCRWorker * list signal)
    : list signal := snd r.

(** ** Coordinate parser: [OCRWorker._parse_and_validate_from_detections] *)

(** [coord_pattern] of the parser: [^(-?\d{1,7}),(-?\d{1,7}),(-?\d{1,7})] *)
Definition parse_coord_pattern : Re.regex :=
  Re.Cat Re.Bos
    (Re.Cat (Re.Grp component)
       (Re.Cat (Re.Chr ",")
          (Re.Cat (Re.Grp component)
             (Re.Cat (Re.Chr ",") (Re.Grp component))))).

(** [match.group(i)] for [i >= 1]. *)
Definition group (caps : list string) (i : nat) : string :=
  nth (i - 1) caps "".

Definition max_coord_value : Z := 9999999.

(** The string read from the detections, sorted by [x1]. *)
Definition coord_str_of (detections : list detection) : string :=
  let sorted_detections := sort_by bbox_x1 detections in
  String.concat ""
    (map (fun d => or_empty (_class_id_to_char_static (class d)))
       sorted_detections).

(** What the numeric extraction finds in the cleaned string. *)
Inductive extraction : Type :=
| extracted (c : coord)
| out_of_range (c : coord)
| conversion_error
| format_mismatch.

(** The numeric extraction of the parser: the pattern applied to the cleaned
    string without its outer blanks, the three integers and the check of
    their range. *)
Definition extract_coordinates (coord_str_cleaned : string) : extraction :=
  match Re.re_match parse_coord_pattern (PyStr.strip coord_str_cleaned) with
  | Some (_, caps) =>
      match PyStr.int (group caps 1), PyStr.int (group caps 2),
            PyStr.int (group caps 3) with
      | Some x, Some y, Some z =>
          if ((Z.abs x <=? max_coord_value)%Z
              && (Z.abs y <=? max_coord_value)%Z
              && (Z.abs z <=? max_coord_value)%Z)%bool
          then extracted (x, y, z)
          else out_of_range (x, y, z)
      | _, _, _ => conversion_error  (* except ValueError *)
      end
  | None => format_mismatch
  end.

Definition _parse_and_validate_from_detections (detections : list detection)
    : M (bool * option coord) :=
  match detections with
  | [] => ret (false, None)
  | _ =>
      let coord_str := coord_str_of detections in
      let coord_str_cleaned := _remove_timestamp_from_coord_string coord_str in
      emit (ocr_output_updated (out_recognized coord_str_cleaned)) ;;
      match extract_coordinates coord_str_cleaned with
      | extracted c =>
          emit (ocr_output_updated (out_coordinate c)) ;;
          ret (true, Some c)
      | out_of_range c =>
          emit (ocr_output_updated (out_out_of_range c)) ;;
          ret (false, None)
      | conversion_error =>
          emit (ocr_output_updated (out_conversion_error coord_str_cleaned)) ;;
          ret (false, None)
      | format_mismatch =>
          emit (ocr_output_updated (out_format_mismatch coord_str_cleaned)) ;;
          ret (false, None)
      end
  end.

(** ** Tracking state machine *)

(** [math.sqrt(n) > t] for integers [n >= 0] and [t], decided on the
    integers; [sqrt_gt_real] below relates it to the real square root. *)
Definition sqrt_gt (n t : Z) : bool := ((t <? 0) || (t * t <? n))%Z%bool.

(** [OCRWorker._is_teleport_jump] *)
Definition _is_teleport_jump (coordinates : coord) : M bool :=
  w <- get ;;
  match last_valid_coord w with
  | None => ret false
  | Some (x0, y0, z0) =>
      let '(x1, y1, z1) := coordinates in
      let dx := (x1 - x0)%Z in
      let dy := (y1 - y0)%Z in
      let dz := (z1 - z0)%Z in
      if (z_axis_threshold w <? Z.abs dz)%Z then ret true
      else if sqrt_gt (dx * dx + dy * dy) (max_speed_threshold w) then ret true
      else ret false
  end.

(** [OCRWorker._transition_to_locked] *)
Definition _transition_to_locked : M unit :=
  w <- get ;;
  if negb (RecognitionState_eqb (recognition_state w) LOCKED)
  then
    modify (set_recognition_state LOCKED) ;;
    emit (recognition_state_changed LOCKED)
  else ret tt.

(** [OCRWorker._transition_to_lost] *)
Definition _transition_to_lost : M unit :=
  w <- get ;;
  if negb (RecognitionState_eqb (recognition_state w) LOST)
  then
    modify (set_recognition_state LOST) ;;
    emit (recognition_state_changed LOST)
  else ret tt.

(** [OCRWorker._handle_locked_state] *)
Definition _handle_locked_state (raw_detections : list detection)
    (best_cluster : option cluster) : M (bool * option coord) :=
  match best_cluster with
  | Some best =>
      let detections := detections best in
      r <- _parse_and_validate_from_detections detections ;;
      match r with
      | (true, Some parsed_coords) =>
          jump <- _is_teleport_jump parsed_coords ;;
          if negb jump
          then
            modify (set_last_valid_detections (Some detections)) ;;
            ret (true, Some parsed_coords)
          else ret (false, None)
      | _ => ret (false, None)
      end
  | None => ret (false, None)
  end.

(** [OCRWorker._handle_searching_state] *)
Definition _handle_searching_state (best_cluster : option cluster)
    : M (bool * option coord) :=
  match best_cluster with
  | Some best =>
      let detections := detections best in
      r <- _parse_and_validate_from_detections detections ;;
      match r with
      | (true, parsed_coords) =>
          modify (set_last_valid_detections (Some detections)) ;;
          ret (true, parsed_coords)
      | _ => ret (false, None)
      end
  | None => ret (false, None)
  end.

(** [OCRWorker._apply_tracking_algorithm]: one tick on the detections of one
    frame. *)
Definition _apply_tracking_algorithm (raw_detections : list detection)
    : M (bool * option coord) :=
  let candidate_clusters :=
    cluster_detections_to_rich_clusters raw_detections in
  let '(best_cluster, selection_details) :=
    find_best_coordinate_cluster candidate_clusters in
  w <- get ;;
  let debug_info :=
    out_debug_info (recognition_state w) (List.length raw_detections)
      (map word candidate_clusters)
      (option_map (fun b => cleaned_word_of (word b)) best_cluster) in
  r <- match recognition_state w with
       | LOCKED => _handle_locked_state raw_detections best_cluster
       | SEARCHING | LOST => _handle_searching_state best_cluster
       end ;;
  let '(success_this_frame, new_coords) := r in
  match success_this_frame, new_coords with
  | true, Some (x, y, z) =>
      modify (set_consecutive_failures 0) ;;
      modify (set_last_valid_coord new_coords) ;;
      w1 <- get ;;
      (if negb (RecognitionState_eqb (recognition_state w1) LOCKED)
       then _transition_to_locked else ret tt) ;;
      emit (coordinates_detected x y z) ;;
      emit (ocr_output_updated (out_final (x, y, z))) ;;
      ret (success_this_frame, new_coords)
  | _, _ =>
      modify (fun w => set_consecutive_failures (consecutive_failures w + 1) w) ;;
      w1 <- get ;;
      (if (RecognitionState_eqb (recognition_state w1) LOCKED
           && (lost_threshold_frames w1 <=? consecutive_failures w1)%Z)%bool
       then _transition_to_lost else ret tt) ;;
      emit (ocr_output_updated debug_info) ;;
      ret (success_this_frame, new_coords)
  end.

(** The loop of [run] on the detections of successive frames: the results
    of the ticks, the final state and all the signals, in order. *)
Fixpoint run_ticks (frames : list (list detection))
    : M (list (bool * option coord)) :=
  match frames with
  | [] => ret []
  | raw_detections :: frames' =>
      r <- _apply_tracking_algorithm raw_detections ;;
      rs <- run_ticks frames' ;;
      ret (r :: rs)
  end.

(** ** Calibration: [CalibrationDataManager] and [CalibrationSystem] *)

Module Calibration.

(** [CalibrationDataManager.get_map_key]; [area_id] is a string or [None],
    and [area_id or 'default'] also replaces the empty string. *)
Definition get_map_key (mode provider_or_map_name : string)
    (area_id : option string) : string :=
  if String.eqb mode "online"
  then
    ("online_" ++ provider_or_map_name ++ "_"
       ++ (if truthy area_id then or_empty area_id else "default"))%string
  else ("local_" ++ provider_or_map_name)%string.

Record CalibrationPoint : Type := {
  x : Q;
  y : Q;
  lat : Q;
  lon : Q
}.

Record TransformMatrix : Type := {
  a : Q;  (* lat = a*x + b*y + c *)
  b : Q;
  c : Q;
  d : Q;  (* lon = d*x + e*y + f *)
  e : Q;
  f : Q
}.

(** [ValueError(tr(key, ...))]: the exception carries the key of its
    message. *)
Inductive exception : Type :=
| ValueError (key : string).

Inductive result (A : Type) : Type :=
| Ok (v : A)
| Raise (e : exception).
Arguments Ok {A} v.
Arguments Raise {A} e.

(** The rows that one point adds to [A], and its entries of [b]. *)
Definition rows_of (point : CalibrationPoint) : list (list Q) :=
  [ [x point; y point; 1; 0; 0; 0];
    [0; 0; 0; x point; y point; 1] ]%Q.

Definition rhs_of (point : CalibrationPoint) : list Q :=
  [lat point; lon point].

(** The matrix [A] and the vector [b] after the loop over the points. *)
Definition design_matrix (points : list CalibrationPoint) : list (list Q) :=
  flat_map rows_of points.

Definition design_rhs (points : list CalibrationPoint) : list Q :=
  flat_map rhs_of points.

Section Solver.

(** [np.linalg.lstsq(A, b, rcond=None)[0]], a routine of NumPy: [None]
    stands for [LinAlgError]. *)
Variable lstsq : list (list Q) -> list Q -> option (list Q).

(** [CalibrationSystem.calculate_transform_matrix] *)
Definition calculate_transform_matrix (points : list CalibrationPoint)
    : result TransformMatrix :=
  if List.length points <? 2
  then Raise (ValueError "calibration_min_points")
  else
    match lstsq (design_matrix points) (design_rhs points) with
    | Some sol =>
        Ok {| a := nth 0 sol 0; b := nth 1 sol 0; c := nth 2 sol 0;
              d := nth 3 sol 0; e := nth 4 sol 0; f := nth 5 sol 0 |}%Q
    | None => Raise (ValueError "transform_matrix_error")
    end.

End Solver.

(** [CalibrationSystem.transform] *)
Definition transform (gx gy : Q) (matrix : option TransformMatrix)
    : result (Q * Q) :=
  match matrix with
  | None => Raise (ValueError "matrix_not_initialized")
  | Some matrix =>
      let lat := (a matrix * gx + b matrix * gy + c matrix)%Q in
      let lon := (d matrix * gx + e matrix * gy + f matrix)%Q in
      Ok (lat, lon)
  end.

(** [row . v] *)
Fixpoint dot (row v : list Q) : Q :=
  match row, v with
  | r :: row', q :: v' => (r * q + dot row' v')%Q
  | _, _ => 0%Q
  end.

(** A design matrix is singular when its six columns are linearly
    dependent: some vector that is not zero is sent to zero by every row. *)
Definition singular (A : list (list Q)) : Prop :=
  exists v : list Q,
    List.length v = 6
    /\ (exists i, ~ (nth i v 0 == 0)%Q)
    /\ forall row, In row A -> (dot row v == 0)%Q.

End Calibration.

(** ** Example inputs *)

(** A glyph of class [cls], ten pixels wide, whose left edge is at [x1]. *)
Definition glyph (cls x1 : Z) : detection :=
  {| class := cls;
     bbox := (inject_Z x1, 0, inject_Z (x1 + 10), 20)%Q;
     confidence := (9 # 10)%Q |}.

(** The class of a character of the alphabet. *)
Definition class_of_char (ch : ascii) : Z :=
  if Ascii.eqb ch "," then 10
  else if Ascii.eqb ch ":" then 11
  else if Ascii.eqb ch "-" then 12
  else (Z.of_nat (nat_of_ascii ch) - 48)%Z.

(** The detections of a text whose glyphs are two pixels apart, the first
    one at [x1]. *)
Fixpoint glyphs (x1 : Z) (text : string) : list detection :=
  match text with
  | EmptyString => []
  | String ch text' => glyph (class_of_char ch) x1 :: glyphs (x1 + 12) text'
  end.

(** A worker that has accepted [(0, 0, 0)], with the default thresholds. *)
Definition worker_at_origin (state : RecognitionState) : OCRWorker :=
  {| recognition_state := state;
     last_valid_coord := Some (0, 0, 0)%Z;
     last_valid_detections := None;
     consecutive_failures := 0;
     max_speed_threshold := 1000;
     lost_threshold_frames := 5;
     z_axis_threshold := 50 |}.

(** ** Definitions of the statements *)

(** The candidate of a frame: the coordinate parsed from the cluster that
    the selector picks among the clusters of the frame, if any. *)
Definition candidate (raw_detections : list detection) : option coord :=
  match fst (find_best_coordinate_cluster
               (cluster_detections_to_rich_clusters raw_detections)) with
  | Some best =>
      match result_of (_parse_and_validate_from_detections (detections best)
                         (initial_worker 0 0 0)) with
      | (true, Some c) => Some c
      | _ => None
      end
  | None => None
  end.

(** The teleport-jump test in the words of the specification, on the real
    numbers. *)
Definition teleport_jump_spec (z_axis max_speed : Z) (c0 c1 : coord) : Prop :=
  let '(x0, y0, z0) := c0 in
  let '(x1, y1, z1) := c1 in
  (z_axis < Z.abs (z1 - z0))%Z
  \/ (IZR max_speed
      < sqrt (IZR ((x1 - x0) * (x1 - x0) + (y1 - y0) * (y1 - y0))))%R.

(** What a tick accepts: the candidate of the frame, unless the worker is
    [LOCKED] and the candidate is a teleport jump. *)
Definition accepted (w : OCRWorker) (raw_detections : list detection)
    : option coord :=
  match candidate raw_detections with
  | Some c =>
      match recognition_state w with
      | LOCKED => if result_of (_is_teleport_jump c w) then None else Some c
      | _ => Some c
      end
  | None => None
  end.

(** The invariant of a cluster: its detections are in ascending order of
    [x1], and the character of index [i] of its text is the character that
    the class of its detection of index [i] decodes to. *)
Definition sorted_by_x1 (l : list detection) : Prop :=
  StronglySorted (fun d1 d2 => (bbox_x1 d1 <= bbox_x1 d2)%Q) l.

Definition text_decodes (c : cluster) : Prop :=
  String.length (word c) = List.length (detections c)
  /\ forall (i : nat) (d : detection),
       nth_error (detections c) i = Some d ->
       exists ch : ascii,
         _class_id_to_char_static (class d) = Some (String ch EmptyString)
         /\ String.get i (word c) = Some ch.

Definition cluster_invariant (c : cluster) : Prop :=
  sorted_by_x1 (detections c) /\ text_decodes c.

(** The key of the persistence format in the words of the specification:
    [<mode>_<provider-or-map>_<area-or-default>]. *)
Definition spec_map_key (mode provider_or_map_name : string)
    (area_id : option string) : string :=
  (mode ++ "_" ++ provider_or_map_name ++ "_"
     ++ match area_id with Some area => area | None => "default" end)%string.

(** The text [w] spells the detections [ds], one character each. *)
Definition spells (w : string) (ds : list detection) : Prop :=
  Forall2
    (fun ch d =>
       _class_id_to_char_static (class d) = Some (String ch EmptyString))
    (list_ascii_of_string w) ds.

(** What the third loop keeps true: the clusters already emitted satisfy the
    invariant, and so does the cluster in progress. *)
Definition walk_invariant (st : walk) : Prop :=
  Forall cluster_invariant (clusters st)
  /\ spells (current_word st) (current_detections_list st).

(** The selection in the words of the specification.  The stripped text of
    a cluster is its text without spaces and tabs; a cluster matches when its
    stripped text matches the coordinate grammar at the start. *)
Definition stripped_text (c : cluster) : string := cleaned_word_of (word c).

Definition matches_grammar (c : cluster) : Prop :=
  Re.re_match select_coord_pattern (stripped_text c) <> None.

(** [selects_longest clusters r]: [r] is the first cluster, among those that
    match, whose stripped text is longest; it is [None] when none matches. *)
Definition selects_longest (clusters : list cluster) (r : option cluster)
    : Prop :=
  match r with
  | None => forall c, In c clusters -> ~ matches_grammar c
  | Some best =>
      exists i,
        nth_error clusters i = Some best
        /\ matches_grammar best
        /\ (forall j c, nth_error clusters j = Some c -> matches_grammar c ->
                        String.length (stripped_text c)
                        <= String.length (stripped_text best))
        /\ (forall j c, j < i -> nth_error clusters j = Some c ->
                        matches_grammar c ->
                        String.length (stripped_text c)
                        < String.length (stripped_text best))
  end.

(** Two clusters: the text of the first one ends with two tabs. *)
Definition cluster_with_tabs : cluster :=
  {| word := String "1" (String "," (String "2" (String "," (String "3"
               (String "009" (String "009" EmptyString))))));
     detections := glyphs 0 "1,2,3" |}.

Definition cluster_longer : cluster :=
  {| word := "1,2,34"; detections := glyphs 100 "1,2,34" |}.

(** A text has no tab. *)
Definition tab_free (s : string) : Prop :=
  PyStr.forallb (fun c' => negb (Ascii.eqb "009" c')) s = true.

(** The coordinate grammar, read off the pattern
    [^(-?\d{1,7}),(-?\d{1,7}),(-?\d{1,7})]: the text starts with three
    components separated by commas, a component being an optional minus sign
    and one to seven digits; the last component takes as many digits as it
    can, up to seven. *)
Definition all_digits (ds : string) : Prop :=
  PyStr.forallb PyStr.is_digit ds = true.

Definition starts_with_digit (s : string) : Prop :=
  exists ch s', s = String ch s' /\ PyStr.is_digit ch = true.

(** [g] is a component, with the digits [ds]. *)
Definition is_component (g ds : string) : Prop :=
  (g = ds \/ g = String "-" ds)
  /\ 1 <= String.length ds <= 7
  /\ all_digits ds.

Definition coordinate_grammar (s g1 g2 g3 : string) : Prop :=
  exists ds1 ds2 ds3 rest : string,
    s = (g1 ++ "," ++ g2 ++ "," ++ g3 ++ rest)%string
    /\ is_component g1 ds1
    /\ is_component g2 ds2
    /\ is_component g3 ds3
    /\ (String.length ds3 = 7 \/ ~ starts_with_digit rest).

(** A token [20[23]\d-] starts at the index [i] of [s]. *)
Definition year_token_at (s : string) (i : nat) : Prop :=
  exists c3 c4 : ascii,
    PyStr.take 5 (PyStr.drop i s)
    = String "2" (String "0" (String c3 (String c4 (String "-" EmptyString))))
    /\ (c3 = "2"%char \/ c3 = "3"%char)
    /\ PyStr.is_digit c4 = true.

(** ** Functions that the matcher is compared with *)

(** The longest prefix of at most [n] characters of the class [p], and the
    rest of the text. *)
Fixpoint span (p : ascii -> bool) (n : nat) (s : string) : string * string :=
  match n, s with
  | S n', String ch s' =>
      if p ch
      then let '(pre, rest) := span p n' s' in (String ch pre, rest)
      else (EmptyString, s)
  | _, _ => (EmptyString, s)
  end.

(** The sign of a component and the text after it. *)
Definition sign_split (s : string) : string * string :=
  match s with
  | String ch s' => if Ascii.eqb "-" ch then ("-", s') else ("", s)
  | EmptyString => ("", s)
  end.

(** A component followed by something that is not a digit: its digits are
    all the digits found, and there are one to seven of them. *)
Definition component_full (s : string) : option (string * string) :=
  let '(sg, s1) := sign_split s in
  let '(ds, rest) := span PyStr.is_digit (String.length s1) s1 in
  if (1 <=? String.length ds) && (String.length ds <=? 7)
  then Some ((sg ++ ds)%string, rest) else None.

(** A component at the end of the pattern: it takes up to seven digits. *)
Definition component_greedy (s : string) : option (string * string) :=
  let '(sg, s1) := sign_split s in
  let '(ds, rest) := span PyStr.is_digit 7 s1 in
  if 1 <=? String.length ds
  then Some ((sg ++ ds)%string, rest) else None.

(** The three components of a text, and where the third one ends. *)
Definition three_components (s : string) : option (nat * list string) :=
  match component_full s with
  | Some (g1, String c1 r1) =>
      if Ascii.eqb "," c1
      then
        match component_full r1 with
        | Some (g2, String c2 r2) =>
            if Ascii.eqb "," c2
            then
              match component_greedy r2 with
              | Some (g3, _) =>
                  Some (String.length g1 + 1 + String.length g2 + 1
                        + String.length g3, [g1; g2; g3])
              | None => None
              end
            else None
        | _ => None
        end
      else None
  | _ => None
  end.

(** The text starts with a token [20[23]\d-]. *)
Definition starts_year (s : string) : bool :=
  match s with
  | String c1 (String c2 (String c3 (String c4 (String c5 _)))) =>
      Ascii.eqb "2" c1 && Ascii.eqb "0" c2 && is_2_or_3 c3
      && PyStr.is_digit c4 && Ascii.eqb "-" c5
  | _ => false
  end.

(** The index of the first token [20[23]\d-] of a text. *)
Fixpoint first_year (s : string) : option nat :=
  if starts_year s then Some 0
  else
    match s with
    | EmptyString => None
    | String _ s' => option_map S (first_year s')
    end.

(** A continuation that refuses every text starting in the class [p]. *)
Definition refuses {R : Type} (p : ascii -> bool) (k : Re.cont R) : Prop :=
  forall pos ch s caps, p ch = true -> k pos (String ch s) caps = None.

(** A continuation that never fails. *)
Definition total {R : Type} (k : Re.cont R) : Prop :=
  forall pos s caps, k pos s caps <> None.

(** A text has no blank. *)
Definition no_space (s : string) : Prop :=
  PyStr.forallb (fun ch => negb (PyStr.is_space ch)) s = true.

(** The string that the parser applies the grammar to: the characters of the
    detections, in the order of [x1], without the timestamp. *)
Definition cleaned_string (detections : list detection) : string :=
  _remove_timestamp_from_coord_string (coord_str_of detections).

(** Two calibration points, and the least-squares solution of smallest norm
    of their system. *)
Definition example_points : list Calibration.CalibrationPoint :=
  [ {| Calibration.x := 0; Calibration.y := 0;
       Calibration.lat := 0; Calibration.lon := 0 |};
    {| Calibration.x := 1; Calibration.y := 1;
       Calibration.lat := 1; Calibration.lon := 1 |} ]%Q.

Definition example_lstsq (A : list (list Q)) (b : list Q) : option (list Q) :=
  Some [1 # 2; 1 # 2; 0; 1 # 2; 1 # 2; 0]%Q.

(** The vector of the six coefficients as a transform. *)
Definition matrix_of (sol : list Q) : Calibration.TransformMatrix :=
  {| Calibration.a := nth 0 sol 0%Q; Calibration.b := nth 1 sol 0%Q;
     Calibration.c := nth 2 sol 0%Q; Calibration.d := nth 3 sol 0%Q;
     Calibration.e := nth 4 sol 0%Q; Calibration.f := nth 5 sol 0%Q |}.

(** ** Definitions of the further properties *)

(** The class of a detection decodes to a character. *)
Definition has_char (d : detection) : bool :=
  truthy (_class_id_to_char_static (class d)).

(** A detection counts for the average width of the clusterer: it decodes to
    a digit, a minus sign or a comma, and its box has a positive width. *)
Definition counts_for_width (d : detection) : bool :=
  (has_char d
   && (PyStr.isdigit (or_empty (_class_id_to_char_static (class d)))
       || PyStr.mem (or_empty (_class_id_to_char_static (class d))) ["-"; ","])
   && Qgtb (bbox_x2 d - bbox_x1 d) 0)%bool.

(** The detections and the text of a list of clusters, end to end. *)
Definition all_detections (cs : list cluster) : list detection :=
  List.concat (map detections cs).

Definition all_text (cs : list cluster) : string :=
  fold_right append "" (map word cs).

(** A character of the alphabet of the class table. *)
Definition in_alphabet (ch : ascii) : bool :=
  (PyStr.is_digit ch || Ascii.eqb ch "," || Ascii.eqb ch ":"
   || Ascii.eqb ch "-")%bool.

(** A cluster is not empty and its text spells its detections. *)
Definition well_spelled (c : cluster) : Prop :=
  word c <> "" /\ spells (word c) (detections c).

(** The stripped text of a cluster matches the pattern of the selector. *)
Definition matchesb (c : cluster) : bool :=
  match Re.re_match select_coord_pattern (stripped_text c) with
  | Some _ => true
  | None => false
  end.

(** A coordinate whose three components have a magnitude of at most
    9,999,999. *)
Definition in_range (c : coord) : Prop :=
  let '(x, y, z) := c in
  (Z.abs x <= max_coord_value)%Z /\ (Z.abs y <= max_coord_value)%Z
  /\ (Z.abs z <= max_coord_value)%Z.

(** The worker after a tick that accepts [c] from the cluster [best], and
    after a tick that fails. *)
Definition worker_after_accept (w : OCRWorker) (best : option cluster)
    (c : coord) : OCRWorker :=
  {| recognition_state := LOCKED;
     last_valid_coord := Some c;
     last_valid_detections := option_map detections best;
     consecutive_failures := 0;
     max_speed_threshold := max_speed_threshold w;
     lost_threshold_frames := lost_threshold_frames w;
     z_axis_threshold := z_axis_threshold w |}.

Definition goes_lost (w : OCRWorker) : bool :=
  (RecognitionState_eqb (recognition_state w) LOCKED
   && (lost_threshold_frames w <=? consecutive_failures w + 1)%Z)%bool.

Definition worker_after_failure (w : OCRWorker) : OCRWorker :=
  {| recognition_state := if goes_lost w then LOST else recognition_state w;
     last_valid_coord := last_valid_coord w;
     last_valid_detections := last_valid_detections w;
     consecutive_failures := consecutive_failures w + 1;
     max_speed_threshold := max_speed_threshold w;
     lost_threshold_frames := lost_threshold_frames w;
     z_axis_threshold := z_axis_threshold w |}.

(** The signals of a tick after those of the parser. *)
Definition signals_after_accept (w : OCRWorker) (c : coord) : list signal :=
  let '(x, y, z) := c in
  (if RecognitionState_eqb (recognition_state w) LOCKED
   then [] else [recognition_state_changed LOCKED])
  ++ [coordinates_detected x y z; ocr_output_updated (out_final (x, y, z))].

Definition signals_after_failure (w : OCRWorker) (debug_info : ocr_output)
    : list signal :=
  (if goes_lost w then [recognition_state_changed LOST] else [])
  ++ [ocr_output_updated debug_info].

(** The coordinates sent on [coordinates_detected], the states sent on
    [recognition_state_changed], and the coordinates of the ticks that
    succeeded. *)
Fixpoint detected_of (signals : list signal) : list coord :=
  match signals with
  | [] => []
  | coordinates_detected x y z :: rest => (x, y, z) :: detected_of rest
  | _ :: rest => detected_of rest
  end.

Fixpoint states_of (signals : list signal) : list RecognitionState :=
  match signals with
  | [] => []
  | recognition_state_changed s :: rest => s :: states_of rest
  | _ :: rest => states_of rest
  end.

Fixpoint accepted_of (results : list (bool * option coord)) : list coord :=
  match results with
  | [] => []
  | (true, Some c) :: rest => c :: accepted_of rest
  | _ :: rest => accepted_of rest
  end.

(** No two detections of the list have the same [x1]. *)
Definition distinct_x1 (l : list detection) : Prop :=
  forall d1 d2, In d1 l -> In d2 l -> (bbox_x1 d1 == bbox_x1 d2)%Q -> d1 = d2.

(** What holds of the worker after every run of ticks from its initial
    state. *)
Definition tracking_invariant (w : OCRWorker) : Prop :=
  (0 <= consecutive_failures w)%Z
  /\ (recognition_state w = SEARCHING <-> last_valid_coord w = None)
  /\ (last_valid_detections w = None <-> last_valid_coord w = None)
  /\ (forall c, last_valid_coord w = Some c -> in_range c)
  /\ (recognition_state w = LOST ->
      (lost_threshold_frames w <= consecutive_failures w)%Z)
  /\ (recognition_state w = LOCKED ->
      consecutive_failures w = 0%Z
      \/ (consecutive_failures w < lost_threshold_frames w)%Z).

(** ** The SVG transform of [main_app.py] *)

Module Svg.

(** The dictionary of a transform, with the keys ['a'] to ['f']. *)
Record matrix : Type := {
  a : Q; b : Q; c : Q; d : Q; e : Q; f : Q
}.

(** [MapCalibrationMainWindow.apply_svg_transform]; [None] stands for a
    matrix that is [None] or empty. *)
Definition apply_svg_transform (x y : Q) (m : option matrix) : Q * Q :=
  match m with
  | None => (x, y)
  | Some m =>
      (* x' = a*x + c*y + e, y' = b*x + d*y + f *)
      let new_x := (a m * x + c m * y + e m)%Q in
      let new_y := (b m * x + d m * y + f m)%Q in
      (new_x, new_y)
  end.

(** [MapCalibrationMainWindow.inverse_svg_transform] *)
Definition inverse_svg_transform (x y : Q) (m : option matrix) : Q * Q :=
  match m with
  | None => (x, y)
  | Some m =>
      let det := (a m * d m - b m * c m)%Q in
      if Qgtb (1 # 10000000000) (Qabs.Qabs det)  (* abs(det) < 1e-10 *)
      then (x, y)
      else
        let inv_a := (d m / det)%Q in
        let inv_b := (- b m / det)%Q in
        let inv_c := (- c m / det)%Q in
        let inv_d := (a m / det)%Q in
        let inv_e := ((c m * f m - d m * e m) / det)%Q in
        let inv_f := ((b m * e m - a m * f m) / det)%Q in
        let orig_x := (inv_a * x + inv_c * y + inv_e)%Q in
        let orig_y := (inv_b * x + inv_d * y + inv_f)%Q in
        (orig_x, orig_y)
  end.

End Svg.

(** ** The tracking history of [main_app.py] *)

Module History.

(** One entry of [tracking_history]. *)
Record entry : Type := {
  timestamp : string;
  lat : Q;
  lng : Q;
  zoom : Q
}.

(** The dictionary that the page answers, whose keys may be missing. *)
Record position_data : Type := {
  data_lat : option Q;
  data_lng : option Q;
  data_zoom : option Q
}.

(** The fields of the window that the handler reads or writes. *)
Record window : Type := {
  tracking_active : bool;
  current_lat : Q;
  current_lng : Q;
  current_zoom : option Q;
  tracking_history : list entry
}.

(** [MapCalibrationMainWindow.on_tracking_position_received], at the time
    [now]; [None] stands for an answer that is [None] or empty.  The text of
    the label is left out; it formats the zoom, which raises when the zoom
    is missing: the handler then stops, after it has stored the position and
    before it records it. *)
Definition on_tracking_position_received (now : string)
    (data : option position_data) (win : window) : window :=
  if negb (tracking_active win) then win
  else
    match data with
    | None => win
    | Some data =>
        match data_lat data, data_lng data with
        | Some lat', Some lng' =>
            let win1 :=
              {| tracking_active := tracking_active win;
                 current_lat := lat';
                 current_lng := lng';
                 current_zoom := data_zoom data;
                 tracking_history := tracking_history win |} in
            match data_zoom data with
            | None => win1  (* TypeError in the text of the label *)
            | Some zoom' =>
                let history :=
                  tracking_history win
                  ++ [ {| timestamp := now; lat := lat'; lng := lng';
                          zoom := zoom' |} ] in
                let history :=
                  if 100 <? List.length history
                  then List.tl history  (* pop(0) *)
                  else history in
                {| tracking_active := tracking_active win;
                   current_lat := lat';
                   current_lng := lng';
                   current_zoom := data_zoom data;
                   tracking_history := history |}
            end
        | _, _ => win
        end
    end.

End History.

(** ** The calibration file of [main_app.py] *)

Module Store.

(** A dictionary with string keys, in the order of insertion. *)
Definition dict (V : Type) : Type := list (string * V).

Fixpoint lookup {V : Type} (k : string) (data : dict V) : option V :=
  match data with
  | [] => None
  | (k', v) :: rest => if String.eqb k k' then Some v else lookup k rest
  end.

(** [data[k] = v] *)
Fixpoint setitem {V : Type} (k : string) (v : V) (data : dict V) : dict V :=
  match data with
  | [] => [(k, v)]
  | (k', v') :: rest =>
      if String.eqb k k' then (k, v) :: rest
      else (k', v') :: setitem k v rest
  end.

(** [del data[k]] *)
Definition delitem {V : Type} (k : string) (data : dict V) : dict V :=
  filter (fun kv => negb (String.eqb k (fst kv))) data.

(** One record of the file. *)
Record calibration_data : Type := {
  mode : string;
  provider_or_map_name : string;
  area_id : option string;
  matrix : Calibration.TransformMatrix;
  timestamp : string
}.

(** The calibration file: [None] when it does not exist or cannot be read,
    else the dictionary it holds.  Writing the file is taken to succeed. *)
Definition file : Type := option (dict calibration_data).

(** [CalibrationDataManager.load_all_calibrations] *)
Definition load_all_calibrations (fs : file) : dict calibration_data :=
  match fs with
  | Some data => data
  | None => []
  end.

(** [CalibrationDataManager.save_calibration], at the time [now] *)
Definition save_calibration (now : string) (mode provider_or_map_name : string)
    (transform_matrix : Calibration.TransformMatrix) (area_id : option string)
    (fs : file) : bool * file :=
  let data := load_all_calibrations fs in
  let map_key := Calibration.get_map_key mode provider_or_map_name area_id in
  let calibration_data :=
    {| mode := mode; provider_or_map_name := provider_or_map_name;
       area_id := area_id; matrix := transform_matrix; timestamp := now |} in
  (true, Some (setitem map_key calibration_data data)).

(** [CalibrationDataManager.load_calibration] *)
Definition load_calibration (mode provider_or_map_name : string)
    (area_id : option string) (fs : file)
    : option Calibration.TransformMatrix :=
  let data := load_all_calibrations fs in
  let map_key := Calibration.get_map_key mode provider_or_map_name area_id in
  match lookup map_key data with
  | Some calibration_data => Some (matrix calibration_data)
  | None => None
  end.

(** [CalibrationDataManager.has_calibration] *)
Definition has_calibration (mode provider_or_map_name : string)
    (area_id : option string) (fs : file) : bool :=
  let data := load_all_calibrations fs in
  let map_key := Calibration.get_map_key mode provider_or_map_name area_id in
  match lookup map_key data with
  | Some _ => true
  | None => false
  end.

(** [CalibrationDataManager.delete_calibration] *)
Definition delete_calibration (mode provider_or_map_name : string)
    (area_id : option string) (fs : file) : bool * file :=
  let data := load_all_calibrations fs in
  let map_key := Calibration.get_map_key mode provider_or_map_name area_id in
  match lookup map_key data with
  | Some _ => (true, Some (delitem map_key data))
  | None => (false, fs)
  end.

End Store.
(** * Theorems *)

(** ** The monad and the parser's effects *)

Ltac run_monad :=
  unfold bind, ret, get, modify, emit, result_of, worker_of, signals_of in *;
  simpl in *.

(** The parser answers [(True, (x, y, z))] or [(False, None)]. *)
Lemma parse_shape (dets : list detection) (w : OCRWorker) :
  (exists c, result_of (_parse_and_validate_from_detections dets w)
             = (true, Some c))
  \/ result_of (_parse_and_validate_from_detections dets w) = (false, None).
Proof.
  unfold _parse_and_validate_from_detections.
  destruct dets as [|d0 dets']; [right; reflexivity|].
  set (s := _remove_timestamp_from_coord_string _).
  unfold bind, ret, emit, result_of. cbv beta iota zeta.
  destruct (extract_coordinates s);
    [left; eexists; reflexivity | right; reflexivity ..].
Qed.


(** ** The teleport-jump test *)

(** [sqrt_gt] decides the comparison with the real square root. *)
Lemma sqrt_gt_real (n t : Z) :
  (0 <= n)%Z -> sqrt_gt n t = true <-> (IZR t < sqrt (IZR n))%R.
Proof.
  intros Hn. unfold sqrt_gt.
  assert (Hn' : (0 <= IZR n)%R) by (apply IZR_le; exact Hn).
  destruct (Z.ltb_spec t 0) as [Ht|Ht]; simpl.
  - split; [intros _|reflexivity].
    apply Rlt_le_trans with 0%R; [apply IZR_lt; exact Ht|apply sqrt_pos].
  - assert (Ht' : (0 <= IZR t)%R) by (apply IZR_le; exact Ht).
    assert (Hsq : sqrt (IZR (t * t)) = IZR t)
      by (rewrite mult_IZR; apply sqrt_square; exact Ht').
    destruct (Z.ltb_spec (t * t) n) as [Hlt|Hge].
    + split; [intros _|reflexivity].
      rewrite <- Hsq. apply sqrt_lt_1.
      * apply IZR_le. nia.
      * exact Hn'.
      * apply IZR_lt. exact Hlt.
    + split; [discriminate|intros Hr; exfalso].
      apply (Rlt_irrefl (IZR t)).
      apply Rlt_le_trans with (sqrt (IZR n)); [exact Hr|].
      rewrite <- Hsq. apply sqrt_le_1.
      * exact Hn'.
      * apply IZR_le. nia.
      * apply IZR_le. exact Hge.
Qed.

(** The test of the code, against a previous coordinate, is the test of the
    specification. *)
Lemma is_teleport_jump_spec (w : OCRWorker) (c0 c1 : coord) :
  last_valid_coord w = Some c0 ->
  result_of (_is_teleport_jump c1 w) = true
  <-> teleport_jump_spec (z_axis_threshold w) (max_speed_threshold w) c0 c1.
Proof.
  intros Hlast. destruct c0 as [[x0 y0] z0], c1 as [[x1 y1] z1].
  unfold _is_teleport_jump, teleport_jump_spec. run_monad. rewrite Hlast.
  set (n := ((x1 - x0) * (x1 - x0) + (y1 - y0) * (y1 - y0))%Z).
  assert (Hn : (0 <= n)%Z)
    by (unfold n; apply Z.add_nonneg_nonneg; apply Z.square_nonneg).
  destruct (Z.ltb_spec (z_axis_threshold w) (Z.abs (z1 - z0))) as [Hz|Hz];
    simpl.
  - split; [intros _; left; exact Hz|reflexivity].
  - destruct (sqrt_gt n (max_speed_threshold w)) eqn:Hs; simpl.
    + split; [intros _; right; apply sqrt_gt_real; assumption|reflexivity].
    + split; [discriminate|].
      intros [Hz'|Hr]; [lia|].
      apply sqrt_gt_real in Hr; [congruence|exact Hn].
Qed.

Lemma is_teleport_jump_state (w : OCRWorker) (c1 : coord) :
  worker_of (_is_teleport_jump c1 w) = w
  /\ signals_of (_is_teleport_jump c1 w) = [].
Proof.
  destruct c1 as [[x1 y1] z1].
  unfold _is_teleport_jump. run_monad.
  destruct (last_valid_coord w) as [[[x0 y0] z0]|]; [|split; reflexivity].
  destruct (_ <? _)%Z; [split; reflexivity|].
  destruct (sqrt_gt _ _); split; reflexivity.
Qed.

(** ** One tick of the tracking algorithm *)

Ltac tick_steps :=
  unfold bind, get, modify, emit, ret, _handle_locked_state,
    _handle_searching_state, _transition_to_locked, _transition_to_lost;
  cbv beta iota zeta.

Lemma parse_effects (dets : list detection) (w : OCRWorker) :
  exists evs,
    _parse_and_validate_from_detections dets w
    = (result_of (_parse_and_validate_from_detections dets
                    (initial_worker 0 0 0)), w, evs)
    /\ forall s, In s evs -> exists o, s = ocr_output_updated o.
Proof.
  unfold _parse_and_validate_from_detections.
  destruct dets as [|d0 dets'].
  { exists []. split; [reflexivity|intros s []]. }
  set (s := _remove_timestamp_from_coord_string _).
  unfold bind, ret, emit, result_of. cbv beta iota zeta.
  assert (Hout : forall (l : list ocr_output) sg,
             In sg (map ocr_output_updated l) ->
             exists o, sg = ocr_output_updated o).
  { intros l sg Hin. apply in_map_iff in Hin. destruct Hin as [o [Ho _]].
    exists o. symmetry. exact Ho. }
  destruct (extract_coordinates s); eexists; (split; [reflexivity|]);
    apply (Hout [_; _]).
Qed.

Ltac sig_elim H Hno Hno' :=
  rewrite ?in_app_iff in H; simpl In in H;
  repeat (destruct H as [H|H]);
  try discriminate; try contradiction;
  try (exfalso; eapply Hno; exact H);
  try (exfalso; eapply Hno'; exact H).

Ltac sig_intro := rewrite ?in_app_iff; simpl In; solve [auto 12].

Lemma tick_accept (w : OCRWorker) (raw : list detection) (c : coord) :
  accepted w raw = Some c ->
  let r := _apply_tracking_algorithm raw w in
  result_of r = (true, Some c)
  /\ consecutive_failures (worker_of r) = 0%Z
  /\ last_valid_coord (worker_of r) = Some c
  /\ recognition_state (worker_of r) = LOCKED
  /\ lost_threshold_frames (worker_of r) = lost_threshold_frames w
  /\ (forall s, In (recognition_state_changed s) (signals_of r)
                <-> s = LOCKED /\ recognition_state w <> LOCKED)
  /\ (forall x y z, In (coordinates_detected x y z) (signals_of r)
                    <-> c = (x, y, z)).
Proof.
  unfold accepted, candidate, _apply_tracking_algorithm.
  destruct (find_best_coordinate_cluster _) as [best details]. simpl fst.
  destruct best as [best|]; [|discriminate].
  destruct (parse_effects (detections best) w) as [evs [Hp Hevs]].
  set (pv := result_of _) in *.
  assert (Hno : forall s, ~ In (recognition_state_changed s) evs).
  { intros s Hin. destruct (Hevs _ Hin) as [o Ho]. discriminate. }
  assert (Hno' : forall x y z, ~ In (coordinates_detected x y z) evs).
  { intros x y z Hin. destruct (Hevs _ Hin) as [o Ho]. discriminate. }
  destruct pv as [[|] [c'|]]; try discriminate.
  intros Hacc.
  destruct (recognition_state w) eqn:Hst.
  - (* LOCKED *)
    pose proof (is_teleport_jump_state w c') as [Hjw Hjs].
    destruct (_is_teleport_jump c' w) as [[jump wj] ej] eqn:Hj.
    unfold worker_of, signals_of, result_of in Hjw, Hjs, Hacc.
    simpl in Hjw, Hjs, Hacc. subst wj ej.
    destruct jump; [discriminate|]. injection Hacc as ->.
    destruct c as [[x y] z].
    tick_steps. rewrite Hst. tick_steps. rewrite Hp. tick_steps.
    rewrite Hj. tick_steps.
    unfold result_of, worker_of, signals_of; cbn;
      repeat (progress (rewrite ?Hst; cbn)).
    do 4 (split; [reflexivity|]).
    split; [reflexivity|]. split.
    + intros s. split; [intros H; sig_elim H Hno Hno'|intros [_ H]; congruence].
    + intros x0 y0 z0. split; [intros H; sig_elim H Hno Hno'|intros H].
      * injection H as <- <- <-. reflexivity.
      * injection H as <- <- <-. sig_intro.
  - (* LOST *)
    injection Hacc as ->.
    destruct c as [[x y] z].
    tick_steps. rewrite Hst. tick_steps. rewrite Hp. tick_steps.
    unfold result_of, worker_of, signals_of; cbn;
      repeat (progress (rewrite ?Hst; cbn)).
    do 5 (split; [reflexivity|]). split.
    + intros s. split; [intros H; sig_elim H Hno Hno'|intros [-> _]].
      * injection H as <-. split; [reflexivity|discriminate].
      * sig_intro.
    + intros x0 y0 z0. split; [intros H; sig_elim H Hno Hno'|intros H].
      * injection H as <- <- <-. reflexivity.
      * injection H as <- <- <-. sig_intro.
  - (* SEARCHING *)
    injection Hacc as ->.
    destruct c as [[x y] z].
    tick_steps. rewrite Hst. tick_steps. rewrite Hp. tick_steps.
    unfold result_of, worker_of, signals_of; cbn;
      repeat (progress (rewrite ?Hst; cbn)).
    do 5 (split; [reflexivity|]). split.
    + intros s. split; [intros H; sig_elim H Hno Hno'|intros [-> _]].
      * injection H as <-. split; [reflexivity|discriminate].
      * sig_intro.
    + intros x0 y0 z0. split; [intros H; sig_elim H Hno Hno'|intros H].
      * injection H as <- <- <-. reflexivity.
      * injection H as <- <- <-. sig_intro.
Qed.

Lemma tick_reject (w : OCRWorker) (raw : list detection) :
  accepted w raw = None ->
  let r := _apply_tracking_algorithm raw w in
  result_of r = (false, None)
  /\ consecutive_failures (worker_of r) = (consecutive_failures w + 1)%Z
  /\ last_valid_coord (worker_of r) = last_valid_coord w
  /\ recognition_state (worker_of r)
     = (if (RecognitionState_eqb (recognition_state w) LOCKED
            && (lost_threshold_frames w <=? consecutive_failures w + 1)%Z)%bool
        then LOST else recognition_state w)
  /\ lost_threshold_frames (worker_of r) = lost_threshold_frames w
  /\ (forall s, In (recognition_state_changed s) (signals_of r)
                <-> s = LOST /\ recognition_state w = LOCKED
                    /\ (lost_threshold_frames w <= consecutive_failures w + 1)%Z)
  /\ (forall x y z, ~ In (coordinates_detected x y z) (signals_of r)).
Proof.
  unfold accepted, candidate, _apply_tracking_algorithm.
  destruct (find_best_coordinate_cluster _) as [best details]. simpl fst.
  destruct best as [best|].
  - destruct (parse_effects (detections best) w) as [evs [Hp Hevs]].
    pose proof (parse_shape (detections best) (initial_worker 0 0 0)) as Hsh.
    set (pv := result_of _) in *.
    assert (Hno : forall s, ~ In (recognition_state_changed s) evs).
    { intros s Hin. destruct (Hevs _ Hin) as [o Ho]. discriminate. }
    assert (Hno' : forall x y z, ~ In (coordinates_detected x y z) evs).
    { intros x y z Hin. destruct (Hevs _ Hin) as [o Ho]. discriminate. }
    destruct Hsh as [[c' Hpv]|Hpv]; rewrite Hpv in *; intros Hacc.
    + (* a parsed candidate: the worker is LOCKED and it is a jump *)
      destruct (recognition_state w) eqn:Hst; try discriminate.
      pose proof (is_teleport_jump_state w c') as [Hjw Hjs].
      destruct (_is_teleport_jump c' w) as [[jump wj] ej] eqn:Hj.
      unfold worker_of, signals_of, result_of in Hjw, Hjs, Hacc.
      simpl in Hjw, Hjs, Hacc. subst wj ej.
      destruct jump; [|discriminate].
      tick_steps. rewrite Hst. tick_steps. rewrite Hp. tick_steps.
      rewrite Hj. tick_steps.
      unfold result_of, worker_of, signals_of; cbn;
        repeat (progress (rewrite ?Hst; cbn)).
      destruct (Z.leb_spec (lost_threshold_frames w)
                  (consecutive_failures w + 1)) as [Hle|Hgt]; cbn;
        repeat (progress (rewrite ?Hst; cbn)).
      * do 5 (split; [reflexivity|]). split.
        -- intros s. split; [intros H; sig_elim H Hno Hno'|intros [-> _]].
           ++ injection H as <-. repeat split; assumption.
           ++ sig_intro.
        -- intros x y z H. sig_elim H Hno Hno'.
      * do 5 (split; [reflexivity|]). split.
        -- intros s. split; [intros H; sig_elim H Hno Hno'|intros [_ [_ H]]].
           lia.
        -- intros x y z H. sig_elim H Hno Hno'.
    + (* no parsed candidate *)
      clear Hacc.
      destruct (recognition_state w) eqn:Hst;
        tick_steps; rewrite Hst; tick_steps; rewrite Hp; tick_steps;
        unfold result_of, worker_of, signals_of; cbn;
        repeat (progress (rewrite ?Hst; cbn)).
      * destruct (Z.leb_spec (lost_threshold_frames w)
                    (consecutive_failures w + 1)) as [Hle|Hgt]; cbn;
        repeat (progress (rewrite ?Hst; cbn)).
        -- do 5 (split; [reflexivity|]). split.
           ++ intros s. split; [intros H; sig_elim H Hno Hno'|intros [-> _]].
              ** injection H as <-. repeat split; assumption.
              ** sig_intro.
           ++ intros x y z H. sig_elim H Hno Hno'.
        -- do 5 (split; [reflexivity|]). split.
           ++ intros s. split; [intros H; sig_elim H Hno Hno'|intros [_ [_ H]]].
              lia.
           ++ intros x y z H. sig_elim H Hno Hno'.
      * do 5 (split; [reflexivity|]). split.
        -- intros s. split; [intros H; sig_elim H Hno Hno'|intros [_ [H _]]].
           discriminate.
        -- intros x y z H. sig_elim H Hno Hno'.
      * do 5 (split; [reflexivity|]). split.
        -- intros s. split; [intros H; sig_elim H Hno Hno'|intros [_ [H _]]].
           discriminate.
        -- intros x y z H. sig_elim H Hno Hno'.
  - (* no cluster selected *)
    intros _.
    destruct (recognition_state w) eqn:Hst;
      tick_steps; rewrite Hst; tick_steps;
      unfold result_of, worker_of, signals_of; cbn;
      repeat (progress (rewrite ?Hst; cbn)).
    + destruct (Z.leb_spec (lost_threshold_frames w)
                  (consecutive_failures w + 1)) as [Hle|Hgt]; cbn;
        repeat (progress (rewrite ?Hst; cbn)).
      * do 5 (split; [reflexivity|]). split.
        -- intros s. split; [intros H|intros [-> _]; auto].
           destruct H as [H|[H|[]]]; try discriminate.
           injection H as <-. repeat split; assumption.
        -- intros x y z H. destruct H as [H|[H|[]]]; discriminate.
      * do 5 (split; [reflexivity|]). split.
        -- intros s. split; [intros H|intros [_ [_ H]]; lia].
           destruct H as [H|[]]; discriminate.
        -- intros x y z H. destruct H as [H|[]]; discriminate.
    + do 5 (split; [reflexivity|]). split.
      * intros s. split; [intros H|intros [_ [H _]]; discriminate].
        destruct H as [H|[]]; discriminate.
      * intros x y z H. destruct H as [H|[]]; discriminate.
    + do 5 (split; [reflexivity|]). split.
      * intros s. split; [intros H|intros [_ [H _]]; discriminate].
        destruct H as [H|[]]; discriminate.
      * intros x y z H. destruct H as [H|[]]; discriminate.
Qed.

(** ** Claims on the tracking state machine *)

Lemma sqrt_IZR_square (t : Z) : (0 <= t)%Z -> sqrt (IZR (t * t)) = IZR t.
Proof.
  intros Ht. rewrite mult_IZR. apply sqrt_square. apply IZR_le. exact Ht.
Qed.

(** A tick succeeds exactly on what [accepted] gives. *)
Lemma tick_result (w : OCRWorker) (raw : list detection) :
  result_of (_apply_tracking_algorithm raw w)
  = match accepted w raw with
    | Some c => (true, Some c)
    | None => (false, None)
    end.
Proof.
  destruct (accepted w raw) as [c|] eqn:Hacc.
  - apply (tick_accept w raw c Hacc).
  - apply (tick_reject w raw Hacc).
Qed.

(** C10: the teleport-jump check answers [False] when no coordinate has been
    accepted yet, so the first valid coordinate after the reset of the state
    is accepted; and both comparisons are strict: a candidate whose height
    differs from the previous one by exactly [z_axis_threshold] and whose
    horizontal displacement is exactly [max_speed_threshold] is not a
    jump. *)
Theorem C10_no_reference_and_strict_thresholds :
  (forall (w : OCRWorker) (c : coord),
      last_valid_coord w = None -> result_of (_is_teleport_jump c w) = false)
  /\ (forall (max_speed lost_frames z_axis : Z) (raw : list detection)
        (c : coord),
         candidate raw = Some c ->
         result_of (_apply_tracking_algorithm raw
                      (initial_worker max_speed lost_frames z_axis))
         = (true, Some c))
  /\ (forall (w : OCRWorker) (x0 y0 z0 x1 y1 z1 : Z),
         last_valid_coord w = Some (x0, y0, z0) ->
         Z.abs (z1 - z0) = z_axis_threshold w ->
         sqrt (IZR ((x1 - x0) * (x1 - x0) + (y1 - y0) * (y1 - y0)))
         = IZR (max_speed_threshold w) ->
         result_of (_is_teleport_jump (x1, y1, z1) w) = false).
Proof.
  split; [|split].
  - intros w [[x1 y1] z1] Hlast. unfold _is_teleport_jump. run_monad.
    rewrite Hlast. reflexivity.
  - intros max_speed lost_frames z_axis raw c Hc.
    rewrite tick_result. unfold accepted. rewrite Hc. reflexivity.
  - intros w x0 y0 z0 x1 y1 z1 Hlast Hz Hxy.
    destruct (result_of (_is_teleport_jump (x1, y1, z1) w)) eqn:Hj;
      [exfalso|reflexivity].
    apply (is_teleport_jump_spec w (x0, y0, z0) (x1, y1, z1) Hlast) in Hj.
    destruct Hj as [Hj|Hj].
    + lia.
    + rewrite Hxy in Hj. exact (Rlt_irrefl _ Hj).
Qed.

(** At the thresholds 50 and 1000, the move from [(0, 0, 0)] to
    [(600, 800, 50)] is not a jump. *)
Lemma C10_witness :
  result_of (_is_teleport_jump (600, 800, 50)%Z (worker_at_origin LOCKED))
  = false.
Proof.
  apply (proj2 (proj2 C10_no_reference_and_strict_thresholds)
               (worker_at_origin LOCKED) 0 0 0 600 800 50)%Z.
  - reflexivity.
  - reflexivity.
  - change (sqrt (IZR (1000 * 1000)) = IZR 1000).
    apply sqrt_IZR_square. discriminate.
Defined.

(** C2: in the state [LOCKED] a validly parsed candidate is rejected exactly
    when it is a teleport jump from the last accepted coordinate, that is
    when the height differs by more than [z_axis_threshold] or the
    horizontal distance exceeds [max_speed_threshold]; in the states
    [SEARCHING] and [LOST] every validly parsed candidate is accepted.  With
    the last accepted coordinate [(0, 0, 0)] and the thresholds 1000 and 50,
    the candidate [(2000, 0, 0)] is rejected in [LOCKED] and accepted in
    [SEARCHING] and in [LOST]. *)
Theorem C2_teleport_rejection :
  (candidate (glyphs 0 "2000,0,0") = Some (2000, 0, 0)%Z
   /\ result_of (_apply_tracking_algorithm (glyphs 0 "2000,0,0")
                   (worker_at_origin LOCKED)) = (false, None)
   /\ result_of (_apply_tracking_algorithm (glyphs 0 "2000,0,0")
                   (worker_at_origin SEARCHING)) = (true, Some (2000, 0, 0)%Z)
   /\ result_of (_apply_tracking_algorithm (glyphs 0 "2000,0,0")
                   (worker_at_origin LOST)) = (true, Some (2000, 0, 0)%Z))
  /\ (forall (w : OCRWorker) (raw : list detection) (c : coord),
         recognition_state w <> LOCKED ->
         candidate raw = Some c ->
         result_of (_apply_tracking_algorithm raw w) = (true, Some c))
  /\ (forall (w : OCRWorker) (raw : list detection) (c0 c1 : coord),
         recognition_state w = LOCKED ->
         last_valid_coord w = Some c0 ->
         candidate raw = Some c1 ->
         (result_of (_apply_tracking_algorithm raw w) = (false, None)
          <-> teleport_jump_spec (z_axis_threshold w) (max_speed_threshold w)
                c0 c1)
         /\ (result_of (_apply_tracking_algorithm raw w) = (true, Some c1)
             <-> ~ teleport_jump_spec (z_axis_threshold w)
                     (max_speed_threshold w) c0 c1)).
Proof.
  split; [|split].
  - repeat split; vm_compute; reflexivity.
  - intros w raw c Hst Hc. rewrite tick_result. unfold accepted. rewrite Hc.
    destruct (recognition_state w); [congruence|reflexivity|reflexivity].
  - intros w raw c0 c1 Hst Hlast Hc.
    rewrite tick_result. unfold accepted. rewrite Hc, Hst.
    pose proof (is_teleport_jump_spec w c0 c1 Hlast) as Hspec.
    destruct (result_of (_is_teleport_jump c1 w)).
    + split; split; try reflexivity; try discriminate.
      * intros _. apply Hspec. reflexivity.
      * intros Hn. exfalso. apply Hn. apply Hspec. reflexivity.
    + split; split; try reflexivity; try discriminate.
      * intros Hs. apply Hspec in Hs. discriminate.
      * intros _ Hs. apply Hspec in Hs. discriminate.
Qed.

(** The frame [2000,0,0] after [(0, 0, 0)] in the state [LOCKED]: it is
    rejected, and it is a teleport jump. *)
Lemma C2_witness :
  teleport_jump_spec 50 1000 (0, 0, 0)%Z (2000, 0, 0)%Z.
Proof.
  apply (proj1 (proj2 (proj2 C2_teleport_rejection)
                  (worker_at_origin LOCKED) (glyphs 0 "2000,0,0")
                  (0, 0, 0)%Z (2000, 0, 0)%Z
                  eq_refl eq_refl
                  (proj1 (proj1 C2_teleport_rejection)))).
  exact (proj1 (proj2 (proj1 C2_teleport_rejection))).
Defined.

(** A run of ticks that all fail adds their number to the counter, keeps the
    threshold, and leaves a [LOCKED] worker [LOCKED] until the counter
    reaches the threshold, [LOST] from then on. *)
Lemma failing_run (frames : list (list detection)) :
  forall w : OCRWorker,
    Forall (fun r => r = (false, @None coord)) (result_of (run_ticks frames w)) ->
    recognition_state w = LOCKED ->
    (consecutive_failures w < lost_threshold_frames w)%Z ->
    let w' := worker_of (run_ticks frames w) in
    consecutive_failures w'
    = (consecutive_failures w + Z.of_nat (List.length frames))%Z
    /\ lost_threshold_frames w' = lost_threshold_frames w
    /\ recognition_state w'
       = if (lost_threshold_frames w
             <=? consecutive_failures w + Z.of_nat (List.length frames))%Z
         then LOST else LOCKED.
Proof.
  induction frames as [|raw frames IH]; intros w Hall Hst Hlt.
  - cbn. rewrite Z.add_0_r. do 2 (split; [reflexivity|]). rewrite Hst.
    destruct (Z.leb_spec (lost_threshold_frames w) (consecutive_failures w));
      [lia|reflexivity].
  - cbn [run_ticks] in *. unfold bind in *.
    destruct (_apply_tracking_algorithm raw w) as [[r1 w1] e1] eqn:Htick.
    destruct (run_ticks frames w1) as [[rs w2] e2] eqn:Hrun.
    unfold ret, result_of, worker_of in *. cbn in Hall |- *.
    inversion Hall as [|? ? Hr1 Hrs]; subst.
    pose proof (tick_result w raw) as Hres.
    unfold result_of in Hres. rewrite Htick in Hres. cbn in Hres.
    destruct (accepted w raw) as [c|] eqn:Hacc; [discriminate|].
    pose proof (tick_reject w raw Hacc) as Hrej. cbn zeta in Hrej.
    unfold result_of, worker_of, signals_of in Hrej.
    rewrite Htick in Hrej. cbn in Hrej.
    destruct Hrej as [_ [Hcnt [_ [Hst1 [Hthr _]]]]].
    rewrite Hst in Hst1. cbn in Hst1.
    rewrite ?Zpos_P_of_succ_nat, ?Nat2Z.inj_succ.
    destruct (Z.leb_spec (lost_threshold_frames w)
                (consecutive_failures w + 1)) as [Hle|Hgt].
    + (* the threshold is reached at this tick: LOST from now on *)
      assert (Hlost : forall fs (v : OCRWorker),
                 recognition_state v = LOST ->
                 Forall (fun r => r = (false, @None coord))
                   (fst (fst (run_ticks fs v))) ->
                 consecutive_failures (snd (fst (run_ticks fs v)))
                 = (consecutive_failures v + Z.of_nat (List.length fs))%Z
                 /\ lost_threshold_frames (snd (fst (run_ticks fs v)))
                    = lost_threshold_frames v
                 /\ recognition_state (snd (fst (run_ticks fs v))) = LOST).
      { clear. induction fs as [|raw fs IHfs]; intros v Hv Hall.
        - cbn. rewrite Z.add_0_r. repeat split; assumption.
        - cbn [run_ticks] in *. unfold bind in *.
          destruct (_apply_tracking_algorithm raw v) as [[r1 v1] e1] eqn:Htick.
          destruct (run_ticks fs v1) as [[rs v2] e2] eqn:Hrun.
          unfold ret in *. cbn in Hall |- *.
          inversion Hall as [|? ? Hr1 Hrs]; subst.
          pose proof (tick_result v raw) as Hres.
          unfold result_of in Hres. rewrite Htick in Hres. cbn in Hres.
          destruct (accepted v raw) as [c|] eqn:Hacc; [discriminate|].
          pose proof (tick_reject v raw Hacc) as Hrej. cbn zeta in Hrej.
          unfold result_of, worker_of, signals_of in Hrej.
          rewrite Htick in Hrej. cbn in Hrej.
          destruct Hrej as [_ [Hcnt [_ [Hst1 [Hthr _]]]]].
          rewrite Hv in Hst1. cbn in Hst1.
          specialize (IHfs v1 Hst1). rewrite Hrun in IHfs. cbn in IHfs.
          destruct (IHfs Hrs) as [H1 [H2 H3]].
          rewrite ?Zpos_P_of_succ_nat, ?Nat2Z.inj_succ. repeat split; [lia|congruence|assumption]. }
      specialize (Hlost frames w1 Hst1). rewrite Hrun in Hlost. cbn in Hlost.
      destruct (Hlost Hrs) as [H1 [H2 H3]].
      repeat split; [lia|congruence|].
      destruct (Z.leb_spec (lost_threshold_frames w)
                  (consecutive_failures w + Z.succ (Z.of_nat (List.length frames))));
        [assumption|lia].
    + specialize (IH w1). rewrite Hrun in IH. cbn in IH.
      destruct (IH Hrs Hst1 ltac:(lia)) as [H1 [H2 H3]].
      repeat split; [lia|congruence|].
      rewrite H3, Hthr, Hcnt.
      replace (consecutive_failures w + 1 + Z.of_nat (List.length frames))%Z
        with (consecutive_failures w + Z.succ (Z.of_nat (List.length frames)))%Z
        by lia.
      reflexivity.
Qed.

(** C3: a tick that accepts a coordinate resets the failure counter, stores
    the coordinate as the last accepted one and leaves the worker [LOCKED],
    emitting a state change only when it was not [LOCKED] before; a tick that
    fails adds one to the counter, and takes a [LOCKED] worker to [LOST]
    when the counter reaches [lost_threshold_frames].  With the threshold 5,
    five failures in a row after an acceptance lead from [LOCKED] to [LOST]
    (and fewer do not), and the next frame with a valid candidate leads back
    to [LOCKED]. *)
Theorem C3_tracking_transitions :
  (forall (w : OCRWorker) (raw : list detection) (c : coord),
      result_of (_apply_tracking_algorithm raw w) = (true, Some c) ->
      let r := _apply_tracking_algorithm raw w in
      consecutive_failures (worker_of r) = 0%Z
      /\ last_valid_coord (worker_of r) = Some c
      /\ recognition_state (worker_of r) = LOCKED
      /\ (forall s, In (recognition_state_changed s) (signals_of r)
                    <-> s = LOCKED /\ recognition_state w <> LOCKED))
  /\ (forall (w : OCRWorker) (raw : list detection),
         (forall c, result_of (_apply_tracking_algorithm raw w)
                    <> (true, Some c)) ->
         let r := _apply_tracking_algorithm raw w in
         consecutive_failures (worker_of r) = (consecutive_failures w + 1)%Z
         /\ (recognition_state w = LOCKED ->
             (lost_threshold_frames w <= consecutive_failures w + 1)%Z ->
             recognition_state (worker_of r) = LOST)
         /\ (~ (recognition_state w = LOCKED
                /\ (lost_threshold_frames w <= consecutive_failures w + 1)%Z) ->
             recognition_state (worker_of r) = recognition_state w))
  /\ (forall (w : OCRWorker) (frames : list (list detection)),
         recognition_state w = LOCKED ->
         consecutive_failures w = 0%Z ->
         lost_threshold_frames w = 5%Z ->
         Forall (fun r => r = (false, None)) (result_of (run_ticks frames w)) ->
         (List.length frames < 5 ->
          recognition_state (worker_of (run_ticks frames w)) = LOCKED)
         /\ (List.length frames = 5 ->
             recognition_state (worker_of (run_ticks frames w)) = LOST))
  /\ (forall (w : OCRWorker) (raw : list detection) (c : coord),
         recognition_state w = LOST ->
         candidate raw = Some c ->
         let r := _apply_tracking_algorithm raw w in
         result_of r = (true, Some c)
         /\ recognition_state (worker_of r) = LOCKED
         /\ In (recognition_state_changed LOCKED) (signals_of r)).
Proof.
  split; [|split; [|split]].
  - intros w raw c Hres r. rewrite tick_result in Hres.
    destruct (accepted w raw) as [c'|] eqn:Hacc; [|discriminate].
    injection Hres as ->.
    destruct (tick_accept w raw c Hacc) as [_ [H1 [H2 [H3 [_ [H4 _]]]]]].
    subst r. split; [exact H1|]. split; [exact H2|]. split; [exact H3|].
    exact H4.
  - intros w raw Hres r.
    destruct (accepted w raw) as [c'|] eqn:Hacc.
    { exfalso. apply (Hres c'). rewrite tick_result, Hacc. reflexivity. }
    destruct (tick_reject w raw Hacc) as [_ [H1 [_ [H2 _]]]].
    fold r in H1, H2. split; [exact H1|]. split.
    + intros Hst Hle. rewrite H2, Hst. cbn.
      destruct (Z.leb_spec (lost_threshold_frames w)
                  (consecutive_failures w + 1)); [reflexivity|lia].
    + intros Hn. rewrite H2.
      destruct (recognition_state w) eqn:Hst; cbn; try reflexivity.
      destruct (Z.leb_spec (lost_threshold_frames w)
                  (consecutive_failures w + 1)); [|reflexivity].
      exfalso. apply Hn. split; [reflexivity|assumption].
  - intros w frames Hst Hcnt Hthr Hall.
    destruct (failing_run frames w Hall Hst ltac:(lia)) as [_ [_ H]].
    rewrite H, Hthr, Hcnt. split; intros Hlen.
    + destruct (Z.leb_spec 5 (0 + Z.of_nat (List.length frames)));
        [lia|reflexivity].
    + rewrite Hlen. reflexivity.
  - intros w raw c Hst Hc r.
    assert (Hacc : accepted w raw = Some c).
    { unfold accepted. rewrite Hc, Hst. reflexivity. }
    destruct (tick_accept w raw c Hacc) as [H0 [_ [_ [H3 [_ [H4 _]]]]]].
    fold r in H0, H3, H4. repeat split; try assumption.
    apply H4. split; [reflexivity|]. rewrite Hst. discriminate.
Qed.

(** Five empty frames after an acceptance, then the frame [2000,0,0]. *)
Lemma C3_witness :
  recognition_state
    (worker_of (run_ticks [[]; []; []; []; []] (worker_at_origin LOCKED)))
  = LOST
  /\ recognition_state
       (worker_of (_apply_tracking_algorithm (glyphs 0 "2000,0,0")
                     (worker_of (run_ticks [[]; []; []; []; []]
                                   (worker_at_origin LOCKED)))))
     = LOCKED.
Proof.
  assert (Hfail : Forall (fun r => r = (false, @None coord))
                    (result_of (run_ticks [[]; []; []; []; []]
                                  (worker_at_origin LOCKED)))).
  { vm_compute. repeat constructor. }
  assert (Hlost : recognition_state
                    (worker_of (run_ticks [[]; []; []; []; []]
                                  (worker_at_origin LOCKED))) = LOST).
  { exact (proj2 (proj1 (proj2 (proj2 C3_tracking_transitions))
                    (worker_at_origin LOCKED) [[]; []; []; []; []]
                    eq_refl eq_refl eq_refl Hfail) eq_refl). }
  assert (Hcand : candidate (glyphs 0 "2000,0,0") = Some (2000, 0, 0)%Z).
  { vm_compute. reflexivity. }
  split; [exact Hlost|].
  exact (proj1 (proj2 (proj2 (proj2 (proj2 C3_tracking_transitions))
                         _ _ _ Hlost Hcand))).
Defined.

(** ** The map key *)

(** C8, as stated, fails in local mode: the key of a local map has no area
    component. *)
Lemma C8_counterexample :
  Calibration.get_map_key "local" "world" None = "local_world"
  /\ Calibration.get_map_key "local" "world" None
     <> spec_map_key "local" "world" None.
Proof.
  split; [reflexivity|discriminate].
Qed.

(** C8, amended: in online mode the key is [online_<provider>_<area>], where
    the area is ["default"] when no area identifier is given (or an empty
    one); in every other mode the key is [local_<map>], without an area
    component and whatever the area identifier. *)
Theorem C8_map_key :
  forall (mode name : string) (area_id : option string),
    (mode = "online" ->
     area_id <> Some "" ->
     Calibration.get_map_key mode name area_id
     = spec_map_key "online" name area_id)
    /\ (mode = "online" ->
        area_id = Some "" ->
        Calibration.get_map_key mode name area_id
        = spec_map_key "online" name None)
    /\ (mode <> "online" ->
        Calibration.get_map_key mode name area_id
        = ("local_" ++ name)%string).
Proof.
  intros mode name area_id. unfold Calibration.get_map_key, spec_map_key.
  split; [|split].
  - intros -> Harea. cbn.
    destruct area_id as [[|ch area]|]; [congruence|reflexivity|reflexivity].
  - intros -> ->. reflexivity.
  - intros Hmode. destruct (String.eqb_spec mode "online"); [contradiction|].
    reflexivity.
Qed.

Lemma C8_witness :
  Calibration.get_map_key "online" "official" (Some "8") = "online_official_8"
  /\ Calibration.get_map_key "online" "official" None
     = "online_official_default"
  /\ Calibration.get_map_key "local" "world" (Some "8") = "local_world".
Proof.
  split; [|split].
  - apply (proj1 (C8_map_key "online" "official" (Some "8")) eq_refl).
    discriminate.
  - apply (proj1 (C8_map_key "online" "official" None) eq_refl).
    discriminate.
  - apply (proj2 (proj2 (C8_map_key "local" "world" (Some "8")))).
    discriminate.
Defined.

(** ** The stable sort *)

Section SortFacts.
Context {A : Type} (key : A -> Q).

Let le (x y : A) : Prop := (key x <= key y)%Q.

Lemma insert_by_Forall (P : A -> Prop) (x : A) (l : list A) :
  P x -> Forall P l -> Forall P (insert_by key x l).
Proof.
  intros Hx Hl. induction Hl as [|y l Hy Hl IH]; cbn.
  - constructor; [exact Hx|constructor].
  - destruct (Qle_bool (key x) (key y)).
    + constructor; [exact Hx|]. constructor; assumption.
    + constructor; assumption.
Qed.

Lemma insert_by_sorted (x : A) (l : list A) :
  StronglySorted le l -> StronglySorted le (insert_by key x l).
Proof.
  intros Hl. induction Hl as [|y l Hl IH Hy]; cbn.
  - constructor; constructor.
  - destruct (Qle_bool (key x) (key y)) eqn:Hxy.
    + apply Qle_bool_iff in Hxy.
      constructor; [constructor; assumption|].
      constructor; [exact Hxy|].
      eapply Forall_impl; [|exact Hy].
      intros z Hz. unfold le in *. eapply Qle_trans; eassumption.
    + constructor; [exact IH|].
      apply insert_by_Forall; [|exact Hy].
      unfold le. apply Qlt_le_weak. apply Qnot_le_lt.
      intros Hle. apply Qle_bool_iff in Hle. congruence.
Qed.

Lemma sort_by_sorted (l : list A) : StronglySorted le (sort_by key l).
Proof.
  induction l as [|x l IH]; cbn; [constructor|].
  apply insert_by_sorted. exact IH.
Qed.

Lemma insert_by_perm (x : A) (l : list A) :
  Permutation (x :: l) (insert_by key x l).
Proof.
  induction l as [|y l IH]; cbn; [reflexivity|].
  destruct (Qle_bool (key x) (key y)); [reflexivity|].
  rewrite perm_swap. constructor. exact IH.
Qed.

Lemma sort_by_perm (l : list A) : Permutation l (sort_by key l).
Proof.
  induction l as [|x l IH]; cbn; [constructor|].
  rewrite <- insert_by_perm. constructor. exact IH.
Qed.

Lemma sorted_app_l (l1 l2 : list A) :
  StronglySorted le (l1 ++ l2) -> StronglySorted le l1.
Proof.
  induction l1 as [|x l1 IH]; cbn; intros H; [constructor|].
  apply StronglySorted_inv in H. destruct H as [H1 H2].
  constructor; [apply IH; exact H1|].
  apply Forall_app in H2. apply H2.
Qed.

Lemma sorted_app_r (l1 l2 : list A) :
  StronglySorted le (l1 ++ l2) -> StronglySorted le l2.
Proof.
  induction l1 as [|x l1 IH]; cbn; intros H; [exact H|].
  apply StronglySorted_inv in H. apply IH. apply H.
Qed.

Lemma sorted_app_drop (l1 l2 : list A) (x : A) :
  StronglySorted le (l1 ++ x :: l2) -> StronglySorted le (l1 ++ l2).
Proof.
  induction l1 as [|y l1 IH]; cbn; intros H.
  - apply StronglySorted_inv in H. apply H.
  - apply StronglySorted_inv in H. destruct H as [H1 H2].
    constructor; [apply IH; exact H1|].
    apply Forall_app in H2. destruct H2 as [H2 H3].
    apply Forall_app. split; [exact H2|].
    inversion H3; assumption.
Qed.
End SortFacts.

(** ** The glyph clusterer *)

(** Every entry of the class table is one character. *)
Lemma class_char_single (k : Z) (s : string) :
  _class_id_to_char_static k = Some s -> exists ch, s = String ch EmptyString.
Proof.
  unfold _class_id_to_char_static.
  destruct (_ && _)%bool; [|discriminate].
  intros H. apply nth_error_In in H. cbn in H.
  repeat (destruct H as [H|H]; [eexists; symmetry; exact H|]).
  contradiction.
Qed.

Lemma list_ascii_of_string_app (s1 s2 : string) :
  list_ascii_of_string (s1 ++ s2)
  = list_ascii_of_string s1 ++ list_ascii_of_string s2.
Proof.
  induction s1 as [|ch s1 IH]; cbn; [reflexivity|]. rewrite IH. reflexivity.
Qed.

Lemma list_ascii_of_string_length (s : string) :
  List.length (list_ascii_of_string s) = String.length s.
Proof.
  induction s as [|ch s IH]; cbn; [reflexivity|]. rewrite IH. reflexivity.
Qed.

Lemma get_list_ascii (s : string) :
  forall i, String.get i s = nth_error (list_ascii_of_string s) i.
Proof.
  induction s as [|ch s IH]; intros [|i]; cbn; try reflexivity. apply IH.
Qed.

Lemma spells_text_decodes (w : string) (ds : list detection) :
  spells w ds -> text_decodes {| word := w; detections := ds |}.
Proof.
  unfold spells, text_decodes. cbn. intros H. split.
  - rewrite <- list_ascii_of_string_length. eapply Forall2_length. exact H.
  - intros i d. rewrite get_list_ascii. revert i.
    induction H as [|ch d' l ds' Hd H IH]; intros [|i] Hi; cbn in *;
      try discriminate.
    + injection Hi as <-. exists ch. split; [exact Hd|reflexivity].
    + apply IH. exact Hi.
Qed.

Lemma spells_snoc (w : string) (ds : list detection) (ch : ascii)
    (d : detection) :
  spells w ds ->
  _class_id_to_char_static (class d) = Some (String ch EmptyString) ->
  spells (w ++ String ch EmptyString) (ds ++ [d]).
Proof.
  unfold spells. intros H Hd. rewrite list_ascii_of_string_app.
  apply Forall2_app; [exact H|]. cbn. constructor; [exact Hd|constructor].
Qed.

Lemma spells_one (ch : ascii) (d : detection) :
  _class_id_to_char_static (class d) = Some (String ch EmptyString) ->
  spells (String ch EmptyString) [d].
Proof.
  intros Hd. unfold spells. cbn. constructor; [exact Hd|constructor].
Qed.

Lemma walk_preserves (avg sep : Q) (l : list detection) :
  forall st : walk,
    walk_invariant st ->
    sorted_by_x1 (current_detections_list st ++ l) ->
    let st' := fold_left (walk_step avg sep) l st in
    walk_invariant st' /\ sorted_by_x1 (current_detections_list st').
Proof.
  induction l as [|d l IH]; intros st Hinv Hsorted.
  - cbn. split; [exact Hinv|]. rewrite app_nil_r in Hsorted. exact Hsorted.
  - cbn [fold_left]. apply IH.
    + (* the invariant after one step *)
      destruct Hinv as [Hcl Hcur]. unfold walk_step.
      destruct (_class_id_to_char_static (class d)) as [s|] eqn:Hd; cbn;
        [|split; assumption].
      destruct (class_char_single _ _ Hd) as [ch ->]. cbn.
      destruct (last_x2 st) as [last|]; cbn.
      * match goal with |- context [if ?b then _ else _] => destruct b end.
        -- split; cbn; [|apply spells_one; exact Hd].
           destruct (current_word st) eqn:Hw; [exact Hcl|].
           apply Forall_app. split; [exact Hcl|].
           constructor; [|constructor]. split; cbn.
           ++ eapply sorted_app_l. exact Hsorted.
           ++ apply spells_text_decodes.
              first [exact Hcur | rewrite Hw; exact Hcur].
        -- split; cbn; [exact Hcl|]. apply spells_snoc; assumption.
      * split; cbn; [exact Hcl|]. apply spells_one. exact Hd.
    + (* the detections in progress and the rest stay sorted *)
      unfold walk_step.
      destruct (_class_id_to_char_static (class d)) as [s|] eqn:Hd; cbn;
        [|eapply sorted_app_drop; exact Hsorted].
      destruct (class_char_single _ _ Hd) as [ch ->]. cbn.
      destruct (last_x2 st) as [last|]; cbn.
      * match goal with |- context [if ?b then _ else _] => destruct b end;
          cbn.
        -- eapply sorted_app_r. exact Hsorted.
        -- rewrite <- app_assoc. exact Hsorted.
      * eapply sorted_app_r. exact Hsorted.
Qed.

(** C9: every cluster that the glyph clusterer emits satisfies the invariant
    of clusters: its detections are in ascending order of [x1], and the
    character of index [i] of its text is the one decoded from the class of
    its detection of index [i]. *)
Theorem C9_cluster_invariant :
  forall (raw_detections : list detection) (c : cluster),
    In c (cluster_detections_to_rich_clusters raw_detections) ->
    cluster_invariant c.
Proof.
  intros raw c. unfold cluster_detections_to_rich_clusters.
  destruct raw as [|d0 raw']; [intros []|].
  set (sorted := sort_by bbox_x1 (d0 :: raw')).
  destruct (width_stats sorted) as [total_width valid_char_count].
  destruct (valid_char_count =? 0)%Z; [intros []|].
  set (avg := (total_width / inject_Z valid_char_count)%Q).
  set (sep := separation_threshold_of avg (gaps_of sorted)).
  set (st0 := {| clusters := []; current_word := "";
                 current_detections_list := []; last_x2 := None |}).
  destruct (walk_preserves avg sep sorted st0) as [[Hcl Hcur] Hsorted].
  - split; cbn; constructor.
  - exact (sort_by_sorted bbox_x1 (d0 :: raw')).
  - set (st := fold_left (walk_step avg sep) sorted st0) in *.
    assert (Hall : Forall cluster_invariant
                     (clusters st
                      ++ [ {| word := current_word st;
                              detections := current_detections_list st |} ])).
    { apply Forall_app. split; [exact Hcl|].
      constructor; [|constructor].
      split; [exact Hsorted|apply spells_text_decodes; exact Hcur]. }
    destruct (current_word st) eqn:Hw; intros Hin.
    + eapply Forall_forall in Hcl; eassumption.
    + eapply Forall_forall in Hall; eassumption.
Qed.

Lemma C9_witness :
  cluster_invariant
    {| word := "2000,0,0"; detections := glyphs 0 "2000,0,0" |}.
Proof.
  apply (C9_cluster_invariant (glyphs 0 "2000,0,0")).
  vm_compute. left. reflexivity.
Defined.

(** ** The coordinate selector *)

Lemma select_step_fst (acc : option cluster * list detail) (c : cluster) :
  fst (select_step acc c)
  = match Re.re_match select_coord_pattern (stripped_text c) with
    | Some _ =>
        match fst acc with
        | None => Some c
        | Some best =>
            if String.length (PyStr.remove " " (word best))
               <? String.length (stripped_text c)
            then Some c else Some best
        end
    | None => fst acc
    end.
Proof.
  destruct acc as [best details]. unfold select_step, stripped_text.
  cbv beta iota zeta.
  destruct (Re.re_match select_coord_pattern (cleaned_word_of (word c)));
    [|reflexivity].
  cbn [fst]. destruct best as [b|]; [|reflexivity].
  destruct (String.length (PyStr.remove " " (word b))
            <? String.length (cleaned_word_of (word c))); reflexivity.
Qed.

Lemma remove_absent (ch : ascii) (s : string) :
  PyStr.forallb (fun c' => negb (Ascii.eqb ch c')) s = true ->
  PyStr.remove ch s = s.
Proof.
  induction s as [|c' s IH]; cbn; [reflexivity|].
  intros H. apply andb_true_iff in H. destruct H as [H1 H2].
  destruct (Ascii.eqb ch c'); [discriminate|]. rewrite IH; auto.
Qed.

Lemma remove_keeps_absent (ch ch' : ascii) (s : string) :
  PyStr.forallb (fun c' => negb (Ascii.eqb ch c')) s = true ->
  PyStr.forallb (fun c' => negb (Ascii.eqb ch c')) (PyStr.remove ch' s) = true.
Proof.
  induction s as [|c' s IH]; cbn; [reflexivity|].
  intros H. apply andb_true_iff in H. destruct H as [H1 H2].
  destruct (Ascii.eqb ch' c'); cbn; [auto|]. rewrite H1. cbn. auto.
Qed.

Lemma tab_free_stripped (c : cluster) :
  tab_free (word c) -> stripped_text c = PyStr.remove " " (word c).
Proof.
  intros H. unfold stripped_text, cleaned_word_of.
  apply remove_absent. apply remove_keeps_absent. exact H.
Qed.

(** On texts without tabs, which is all the glyph clusterer can emit, the
    selector returns the first longest match. *)
Lemma find_best_tab_free (clusters : list cluster) :
  Forall (fun c => tab_free (word c)) clusters ->
  selects_longest clusters (fst (find_best_coordinate_cluster clusters)).
Proof.
  unfold find_best_coordinate_cluster.
  induction clusters as [|c clusters IH] using rev_ind; intros Hall.
  - cbn. intros c [].
  - apply Forall_app in Hall. destruct Hall as [Hall Hc].
    inversion Hc as [|? ? Htab _]; subst. specialize (IH Hall).
    rewrite fold_left_app. cbn [fold_left]. rewrite select_step_fst.
    set (best := fst (fold_left select_step clusters (None, []))) in *.
    destruct (Re.re_match select_coord_pattern (stripped_text c)) eqn:Hm.
    + assert (Hmc : matches_grammar c) by (unfold matches_grammar; congruence).
      destruct best as [b|].
      * destruct IH as [i [Hi [Hb [Hmax Hfirst]]]].
        assert (Hbt : tab_free (word b)).
        { apply nth_error_In in Hi.
          eapply Forall_forall in Hall; [exact Hall|exact Hi]. }
        rewrite <- (tab_free_stripped b Hbt).
        destruct (Nat.ltb_spec (String.length (stripped_text b))
                    (String.length (stripped_text c))) as [Hlt|Hge].
        -- exists (List.length clusters). split; [|split; [|split]].
           ++ rewrite nth_error_app2, Nat.sub_diag; [reflexivity|lia].
           ++ exact Hmc.
           ++ intros j c' Hj Hc'.
              destruct (Nat.lt_ge_cases j (List.length clusters)) as [Hjl|Hjl].
              ** rewrite nth_error_app1 in Hj by exact Hjl.
                 specialize (Hmax j c' Hj Hc'). lia.
              ** rewrite nth_error_app2 in Hj by exact Hjl.
                 destruct (j - List.length clusters) as [|k]; cbn in Hj.
                 --- injection Hj as <-. lia.
                 --- destruct k; discriminate.
           ++ intros j c' Hjl Hj Hc'.
              rewrite nth_error_app1 in Hj by exact Hjl.
              specialize (Hmax j c' Hj Hc'). lia.
        -- exists i.
           assert (Hil : i < List.length clusters)
             by (apply nth_error_Some; congruence).
           split; [|split; [|split]].
           ++ rewrite nth_error_app1 by exact Hil. exact Hi.
           ++ exact Hb.
           ++ intros j c' Hj Hc'.
              destruct (Nat.lt_ge_cases j (List.length clusters)) as [Hjl|Hjl].
              ** rewrite nth_error_app1 in Hj by exact Hjl.
                 exact (Hmax j c' Hj Hc').
              ** rewrite nth_error_app2 in Hj by exact Hjl.
                 destruct (j - List.length clusters) as [|k]; cbn in Hj.
                 --- injection Hj as <-. exact Hge.
                 --- destruct k; discriminate.
           ++ intros j c' Hji Hj Hc'.
              rewrite nth_error_app1 in Hj by lia.
              exact (Hfirst j c' Hji Hj Hc').
      * exists (List.length clusters). split; [|split; [|split]].
        -- rewrite nth_error_app2, Nat.sub_diag; [reflexivity|lia].
        -- exact Hmc.
        -- intros j c' Hj Hc'.
           destruct (Nat.lt_ge_cases j (List.length clusters)) as [Hjl|Hjl].
           ++ rewrite nth_error_app1 in Hj by exact Hjl.
              apply nth_error_In in Hj. exfalso. exact (IH c' Hj Hc').
           ++ rewrite nth_error_app2 in Hj by exact Hjl.
              destruct (j - List.length clusters) as [|k]; cbn in Hj.
              ** injection Hj as <-. lia.
              ** destruct k; discriminate.
        -- intros j c' Hjl Hj Hc'.
           rewrite nth_error_app1 in Hj by exact Hjl.
           apply nth_error_In in Hj. exfalso. exact (IH c' Hj Hc').
    + assert (Hmc : ~ matches_grammar c)
        by (unfold matches_grammar; intros H; apply H; exact Hm).
      destruct best as [b|].
      * destruct IH as [i [Hi [Hb [Hmax Hfirst]]]].
        exists i.
        assert (Hil : i < List.length clusters)
          by (apply nth_error_Some; congruence).
        split; [|split; [|split]].
        -- rewrite nth_error_app1 by exact Hil. exact Hi.
        -- exact Hb.
        -- intros j c' Hj Hc'.
           destruct (Nat.lt_ge_cases j (List.length clusters)) as [Hjl|Hjl].
           ++ rewrite nth_error_app1 in Hj by exact Hjl.
              exact (Hmax j c' Hj Hc').
           ++ rewrite nth_error_app2 in Hj by exact Hjl.
              destruct (j - List.length clusters) as [|k]; cbn in Hj.
              ** injection Hj as <-. contradiction.
              ** destruct k; discriminate.
        -- intros j c' Hji Hj Hc'.
           rewrite nth_error_app1 in Hj by lia.
           exact (Hfirst j c' Hji Hj Hc').
      * intros c' Hin. apply in_app_iff in Hin. destruct Hin as [Hin|Hin].
        -- exact (IH c' Hin).
        -- destruct Hin as [<-|[]]. exact Hmc.
Qed.

(** C5 at a list of clusters where the text of the first match holds tabs:
    both clusters match, the stripped text of the second one is longer, and
    the selector returns the first one, because it measures the text of the
    cluster it holds with the spaces removed but the tabs kept. *)
Theorem C5_selector_keeps_shorter_match :
  stripped_text cluster_with_tabs = "1,2,3"
  /\ stripped_text cluster_longer = "1,2,34"
  /\ matches_grammar cluster_with_tabs
  /\ matches_grammar cluster_longer
  /\ fst (find_best_coordinate_cluster [cluster_with_tabs; cluster_longer])
     = Some cluster_with_tabs
  /\ selects_longest [cluster_with_tabs; cluster_longer] (Some cluster_longer)
  /\ ~ selects_longest [cluster_with_tabs; cluster_longer]
         (fst (find_best_coordinate_cluster
                 [cluster_with_tabs; cluster_longer])).
Proof.
  assert (H1 : matches_grammar cluster_with_tabs)
    by (unfold matches_grammar; vm_compute; discriminate).
  assert (H2 : matches_grammar cluster_longer)
    by (unfold matches_grammar; vm_compute; discriminate).
  split; [reflexivity|]. split; [reflexivity|].
  split; [exact H1|]. split; [exact H2|]. split; [reflexivity|]. split.
  - exists 1. split; [reflexivity|]. split; [exact H2|]. split.
    + intros [|[|j]] c Hj _; cbn in Hj; try (destruct j; discriminate);
        injection Hj as <-; cbn; lia.
    + intros [|j] c Hlt Hj _; [|lia]. injection Hj as <-. cbn. lia.
  - change (fst (find_best_coordinate_cluster
                   [cluster_with_tabs; cluster_longer]))
      with (Some cluster_with_tabs).
    intros [i [_ [_ [Hmax _]]]].
    specialize (Hmax 1 cluster_longer eq_refl H2). cbn in Hmax. lia.
Qed.

(** ** The matcher on the patterns of the source *)

Section Matcher.
Context {R : Type}.
Implicit Types (k : Re.cont R) (r : Re.regex).

Lemma m_rep_0 r lo pos s caps k :
  Re.m (Re.Rep r lo (Some 0)) pos s caps k
  = if lo =? 0 then k pos s caps else None.
Proof. reflexivity. Qed.

Lemma m_rep_S r lo n pos s caps k :
  Re.m (Re.Rep r lo (Some (S n))) pos s caps k
  = match Re.m r pos s caps
            (fun pos' s' caps' =>
               Re.m (Re.Rep r (pred lo) (Some n)) pos' s' caps' k) with
    | Some x => Some x
    | None => if lo =? 0 then k pos s caps else None
    end.
Proof. reflexivity. Qed.

Lemma m_cls (p : ascii -> bool) pos s caps k :
  Re.m (Re.Cls p) pos s caps k
  = match s with
    | String ch s' => if p ch then k (S pos) s' caps else None
    | EmptyString => None
    end.
Proof. reflexivity. Qed.

Lemma m_chr (c : ascii) pos s caps k :
  Re.m (Re.Chr c) pos s caps k
  = match s with
    | String ch s' => if Ascii.eqb c ch then k (S pos) s' caps else None
    | EmptyString => None
    end.
Proof. reflexivity. Qed.

Lemma m_cat r1 r2 pos s caps k :
  Re.m (Re.Cat r1 r2) pos s caps k
  = Re.m r1 pos s caps (fun pos' s' caps' => Re.m r2 pos' s' caps' k).
Proof. reflexivity. Qed.

Lemma m_opt r pos s caps k :
  Re.m (Re.Opt r) pos s caps k
  = match Re.m r pos s caps k with
    | Some x => Some x
    | None => k pos s caps
    end.
Proof. reflexivity. Qed.

Lemma m_grp r pos s caps k :
  Re.m (Re.Grp r) pos s caps k
  = Re.m r pos s caps
      (fun pos' s' caps' => k pos' s' (caps' ++ [PyStr.take (pos' - pos) s])).
Proof. reflexivity. Qed.

Lemma m_bos pos s caps k :
  Re.m Re.Bos pos s caps k = if pos =? 0 then k pos s caps else None.
Proof. reflexivity. Qed.

Lemma m_rep_unbounded r lo pos s caps k :
  Re.m (Re.Rep r lo None) pos s caps k
  = Re.m (Re.Rep r lo (Some (lo + String.length s))) pos s caps k.
Proof. reflexivity. Qed.

(** Before a continuation that refuses the class, a repetition of the
    class takes the whole run. *)
Lemma m_rep_cls_full (p : ascii -> bool) k :
  refuses p k ->
  forall hi lo pos s caps,
    Re.m (Re.Rep (Re.Cls p) lo (Some hi)) pos s caps k
    = let '(pre, rest) := span p (String.length s) s in
      if (lo <=? String.length pre) && (String.length pre <=? hi)
      then k (pos + String.length pre) rest caps else None.
Proof.
  intros Hk. induction hi as [|hi IH]; intros lo pos s caps.
  - rewrite m_rep_0. destruct s as [|ch s]; cbn.
    + rewrite Nat.add_0_r. destruct lo; reflexivity.
    + destruct (p ch) eqn:Hp.
      * destruct (span p (String.length s) s) as [pre rest]. cbn.
        rewrite andb_false_r. rewrite (Hk _ _ _ _ Hp).
        destruct (lo =? 0); reflexivity.
      * cbn. rewrite Nat.add_0_r. destruct lo; reflexivity.
  - rewrite m_rep_S, m_cls. destruct s as [|ch s].
    + cbn. rewrite Nat.add_0_r. destruct lo; reflexivity.
    + cbn [span String.length]. destruct (p ch) eqn:Hp.
      * rewrite IH.
        destruct (span p (String.length s) s) as [pre rest].
        cbn [String.length].
        replace (pred lo <=? String.length pre)
          with (lo <=? S (String.length pre))
          by (destruct lo; reflexivity).
        replace (S (String.length pre) <=? S hi)
          with (String.length pre <=? hi) by reflexivity.
        replace (S pos + String.length pre)
          with (pos + S (String.length pre)) by lia.
        destruct ((lo <=? S (String.length pre))
                  && (String.length pre <=? hi)).
        -- destruct (k _ rest caps); [reflexivity|].
           rewrite (Hk _ _ _ _ Hp). destruct (lo =? 0); reflexivity.
        -- rewrite (Hk _ _ _ _ Hp). destruct (lo =? 0); reflexivity.
      * cbn. rewrite Nat.add_0_r. destruct lo; reflexivity.
Qed.

(** Before a continuation that never fails, a repetition of the class
    takes as much of the run as its bound allows. *)
Lemma m_rep_cls_greedy (p : ascii -> bool) k :
  total k ->
  forall hi lo pos s caps,
    Re.m (Re.Rep (Re.Cls p) lo (Some hi)) pos s caps k
    = let '(pre, rest) := span p hi s in
      if lo <=? String.length pre
      then k (pos + String.length pre) rest caps else None.
Proof.
  intros Hk. induction hi as [|hi IH]; intros lo pos s caps.
  - rewrite m_rep_0. cbn. rewrite Nat.add_0_r. destruct lo; reflexivity.
  - rewrite m_rep_S, m_cls. destruct s as [|ch s].
    + cbn. rewrite Nat.add_0_r. destruct lo; reflexivity.
    + cbn [span]. destruct (p ch) eqn:Hp.
      * rewrite IH. destruct (span p hi s) as [pre rest].
        cbn [String.length].
        replace (pred lo <=? String.length pre)
          with (lo <=? S (String.length pre))
          by (destruct lo; reflexivity).
        replace (S pos + String.length pre)
          with (pos + S (String.length pre)) by lia.
        destruct (lo <=? S (String.length pre)) eqn:Hlo.
        -- destruct (k _ rest caps) eqn:Hkk; [reflexivity|].
           exfalso. exact (Hk _ _ _ Hkk).
        -- destruct lo; [discriminate|reflexivity].
      * cbn. rewrite Nat.add_0_r. destruct lo; reflexivity.
Qed.

(** A repetition that needs one character of the class fails on a text
    that does not start in the class. *)
Lemma m_rep_cls_fail (p : ascii -> bool) k lo hi pos s caps :
  (match s with String ch _ => p ch = false | EmptyString => True end) ->
  Re.m (Re.Rep (Re.Cls p) (S lo) hi) pos s caps k = None.
Proof.
  intros Hs.
  assert (H : forall n,
             Re.m (Re.Rep (Re.Cls p) (S lo) (Some n)) pos s caps k = None).
  { intros [|n]; [reflexivity|]. rewrite m_rep_S, m_cls.
    destruct s as [|ch s]; [reflexivity|]. rewrite Hs. reflexivity. }
  destruct hi as [n|]; [apply H|]. rewrite m_rep_unbounded. apply H.
Qed.
End Matcher.

Lemma span_app (p : ascii -> bool) (n : nat) (s pre rest : string) :
  span p n s = (pre, rest) -> s = (pre ++ rest)%string.
Proof.
  revert s pre rest. induction n as [|n IH]; intros s pre rest.
  - cbn. intros H. injection H as <- <-. reflexivity.
  - destruct s as [|ch s]; cbn.
    + intros H. injection H as <- <-. reflexivity.
    + destruct (p ch).
      * destruct (span p n s) as [pre' rest'] eqn:Hs.
        intros H. injection H as <- <-. cbn. f_equal. apply IH. exact Hs.
      * intros H. injection H as <- <-. reflexivity.
Qed.

Lemma take_app_length (a b : string) :
  PyStr.take (String.length a) (a ++ b) = a.
Proof.
  induction a as [|ch a IH]; cbn; [destruct b; reflexivity|].
  rewrite IH. reflexivity.
Qed.

Lemma append_length (a b : string) :
  String.length (a ++ b) = String.length a + String.length b.
Proof.
  induction a as [|ch a IH]; cbn; [reflexivity|]. rewrite IH. reflexivity.
Qed.

Lemma component_full_app (s g rest : string) :
  component_full s = Some (g, rest) -> s = (g ++ rest)%string.
Proof.
  unfold component_full, sign_split.
  destruct s as [|ch s].
  - cbn. discriminate.
  - destruct (Ascii.eqb_spec "-"%char ch) as [<-|Hne].
    + destruct (span PyStr.is_digit (String.length s) s) as [ds r] eqn:Hs.
      destruct (_ && _); [|discriminate].
      intros H. injection H as <- <-. cbn. f_equal.
      eapply span_app. exact Hs.
    + destruct (span PyStr.is_digit _ _) as [ds r] eqn:Hs.
      destruct (_ && _); [|discriminate].
      intros H. injection H as <- <-. cbn.
      eapply span_app. exact Hs.
Qed.

Lemma component_greedy_app (s g rest : string) :
  component_greedy s = Some (g, rest) -> s = (g ++ rest)%string.
Proof.
  unfold component_greedy, sign_split.
  destruct s as [|ch s].
  - cbn. discriminate.
  - destruct (Ascii.eqb_spec "-"%char ch) as [<-|Hne].
    + destruct (span PyStr.is_digit 7 s) as [ds r] eqn:Hs.
      destruct (_ <=? _); [|discriminate].
      intros H. injection H as <- <-. cbn. f_equal.
      eapply span_app. exact Hs.
    + destruct (span PyStr.is_digit 7 _) as [ds r] eqn:Hs.
      destruct (_ <=? _); [|discriminate].
      intros H. injection H as <- <-. cbn.
      eapply span_app. exact Hs.
Qed.

Section Component.
Context {R : Type}.
Implicit Types (k : Re.cont R).

Lemma m_component_full k :
  refuses PyStr.is_digit k ->
  forall pos s caps,
    Re.m component pos s caps k
    = match component_full s with
      | Some (g, rest) => k (pos + String.length g) rest caps
      | None => None
      end.
Proof.
  intros Hk pos s caps. unfold component, component_full, sign_split.
  rewrite m_cat, m_opt, m_chr. unfold Re.digit.
  destruct s as [|ch s].
  - rewrite (m_rep_cls_full _ _ Hk). reflexivity.
  - destruct (Ascii.eqb_spec "-"%char ch) as [<-|Hne].
    + rewrite !(m_rep_cls_full _ _ Hk).
      destruct (span PyStr.is_digit (String.length s) s) as [ds rest].
      change (span PyStr.is_digit (String.length (String "-" s))
                (String "-" s))
        with (EmptyString, String "-" s).
      cbv iota. change (1 <=? String.length "") with false.
      cbn [andb]. cbv iota.
      destruct ((1 <=? String.length ds) && (String.length ds <=? 7));
        cbv iota; [|reflexivity].
      change (("-" ++ ds)%string) with (String "-" ds).
      cbn [String.length].
      replace (S pos + String.length ds) with (pos + S (String.length ds))
        by lia.
      destruct (k (pos + S (String.length ds)) rest caps); reflexivity.
    + rewrite (m_rep_cls_full _ _ Hk).
      destruct (span PyStr.is_digit (String.length (String ch s))
                  (String ch s)) as [ds rest].
      destruct ((1 <=? String.length ds) && (String.length ds <=? 7));
        reflexivity.
Qed.

Lemma m_component_greedy k :
  total k ->
  forall pos s caps,
    Re.m component pos s caps k
    = match component_greedy s with
      | Some (g, rest) => k (pos + String.length g) rest caps
      | None => None
      end.
Proof.
  intros Hk pos s caps. unfold component, component_greedy, sign_split.
  rewrite m_cat, m_opt, m_chr. unfold Re.digit.
  destruct s as [|ch s].
  - rewrite (m_rep_cls_greedy _ _ Hk). reflexivity.
  - destruct (Ascii.eqb_spec "-"%char ch) as [<-|Hne].
    + rewrite !(m_rep_cls_greedy _ _ Hk).
      destruct (span PyStr.is_digit 7 s) as [ds rest].
      change (span PyStr.is_digit 7 (String "-" s))
        with (EmptyString, String "-" s).
      cbv iota. change (1 <=? String.length "") with false. cbv iota.
      destruct (1 <=? String.length ds); cbv iota; [|reflexivity].
      change (("-" ++ ds)%string) with (String "-" ds).
      cbn [String.length].
      replace (S pos + String.length ds) with (pos + S (String.length ds))
        by lia.
      destruct (k (pos + S (String.length ds)) rest caps); reflexivity.
    + rewrite (m_rep_cls_greedy _ _ Hk).
      destruct (span PyStr.is_digit 7 (String ch s)) as [ds rest].
      destruct (1 <=? String.length ds); reflexivity.
Qed.

Lemma m_group_full k :
  refuses PyStr.is_digit k ->
  forall pos s caps,
    Re.m (Re.Grp component) pos s caps k
    = match component_full s with
      | Some (g, rest) => k (pos + String.length g) rest (caps ++ [g])
      | None => None
      end.
Proof.
  intros Hk pos s caps.
  change (Re.m (Re.Grp component) pos s caps k)
    with (Re.m component pos s caps
            (fun pos' s' caps' =>
               k pos' s' (caps' ++ [PyStr.take (pos' - pos) s]))).
  rewrite m_component_full.
  - destruct (component_full s) as [[g rest]|] eqn:Hc; [|reflexivity].
    apply component_full_app in Hc. subst s.
    replace (pos + String.length g - pos) with (String.length g) by lia.
    rewrite take_app_length. reflexivity.
  - intros pos' ch s' caps' Hch. apply Hk. exact Hch.
Qed.

Lemma m_group_greedy k :
  total k ->
  forall pos s caps,
    Re.m (Re.Grp component) pos s caps k
    = match component_greedy s with
      | Some (g, rest) => k (pos + String.length g) rest (caps ++ [g])
      | None => None
      end.
Proof.
  intros Hk pos s caps.
  change (Re.m (Re.Grp component) pos s caps k)
    with (Re.m component pos s caps
            (fun pos' s' caps' =>
               k pos' s' (caps' ++ [PyStr.take (pos' - pos) s]))).
  rewrite m_component_greedy.
  - destruct (component_greedy s) as [[g rest]|] eqn:Hc; [|reflexivity].
    apply component_greedy_app in Hc. subst s.
    replace (pos + String.length g - pos) with (String.length g) by lia.
    rewrite take_app_length. reflexivity.
  - intros pos' s' caps'. apply Hk.
Qed.
End Component.

Lemma digit_not_comma (ch : ascii) :
  PyStr.is_digit ch = true -> Ascii.eqb "," ch = false.
Proof.
  intros H. destruct (Ascii.eqb_spec ","%char ch) as [<-|]; [|reflexivity].
  discriminate.
Qed.

(** The pattern of the parser finds the three components. *)
Lemma re_match_parse_pattern (s : string) :
  Re.re_match parse_coord_pattern s = three_components s.
Proof.
  assert (Hcomma : forall (r : Re.regex) (k : Re.cont (nat * list string)),
             refuses PyStr.is_digit
               (fun pos' s' caps' =>
                  Re.m (Re.Cat (Re.Chr ",") r) pos' s' caps' k)).
  { intros r k pos ch s' caps Hch. rewrite m_cat, m_chr.
    rewrite (digit_not_comma _ Hch). reflexivity. }
  unfold Re.re_match, parse_coord_pattern, three_components.
  rewrite m_cat, m_bos. change (0 =? 0) with true. cbv beta iota.
  rewrite m_cat, (m_group_full _ (Hcomma _ _)).
  destruct (component_full s) as [[g1 [|c1 r1]]|]; cbv beta iota;
    [reflexivity| |reflexivity].
  rewrite m_cat, m_chr. destruct (Ascii.eqb "," c1); [|reflexivity].
  rewrite m_cat, (m_group_full _ (Hcomma _ _)).
  destruct (component_full r1) as [[g2 [|c2 r2]]|]; cbv beta iota;
    [reflexivity| |reflexivity].
  rewrite m_cat, m_chr. destruct (Ascii.eqb "," c2); [|reflexivity].
  rewrite m_group_greedy by (intros pos s' caps; discriminate).
  destruct (component_greedy r2) as [[g3 r3]|]; [|reflexivity].
  unfold Re.accept. cbn [app]. f_equal. f_equal. lia.
Qed.

(** The pattern of the selector matches the same texts. *)
Lemma re_match_select_pattern (s : string) :
  Re.re_match select_coord_pattern s
  = option_map (fun r => (fst r, [])) (three_components s).
Proof.
  assert (Hcomma : forall (r : Re.regex) (k : Re.cont (nat * list string)),
             refuses PyStr.is_digit
               (fun pos' s' caps' =>
                  Re.m (Re.Cat (Re.Chr ",") r) pos' s' caps' k)).
  { intros r k pos ch s' caps Hch. rewrite m_cat, m_chr.
    rewrite (digit_not_comma _ Hch). reflexivity. }
  unfold Re.re_match, select_coord_pattern, three_components.
  rewrite m_cat, m_bos. change (0 =? 0) with true. cbv beta iota.
  rewrite m_cat, (m_component_full _ (Hcomma _ _)).
  destruct (component_full s) as [[g1 [|c1 r1]]|]; cbv beta iota;
    [reflexivity| |reflexivity].
  rewrite m_cat, m_chr. destruct (Ascii.eqb "," c1); [|reflexivity].
  rewrite m_cat, (m_component_full _ (Hcomma _ _)).
  destruct (component_full r1) as [[g2 [|c2 r2]]|]; cbv beta iota;
    [reflexivity| |reflexivity].
  rewrite m_cat, m_chr. destruct (Ascii.eqb "," c2); [|reflexivity].
  rewrite m_component_greedy by (intros pos s' caps; discriminate).
  destruct (component_greedy r2) as [[g3 r3]|]; [|reflexivity].
  unfold Re.accept. cbn. f_equal. f_equal. lia.
Qed.

(** ** The three components and the coordinate grammar *)

Lemma span_spec (p : ascii -> bool) (n : nat) :
  forall s pre rest,
    span p n s = (pre, rest) ->
    s = (pre ++ rest)%string
    /\ PyStr.forallb p pre = true
    /\ String.length pre <= n
    /\ (String.length pre = n
        \/ match rest with String ch _ => p ch = false | EmptyString => True end).
Proof.
  induction n as [|n IH]; intros s pre rest.
  - cbn. intros H. injection H as <- <-. cbn. auto.
  - destruct s as [|ch s]; cbn.
    + intros H. injection H as <- <-. cbn. repeat split; auto; lia.
    + destruct (p ch) eqn:Hp.
      * destruct (span p n s) as [pre' rest'] eqn:Hs.
        intros H. injection H as <- <-.
        destruct (IH _ _ _ Hs) as [H1 [H2 [H3 H4]]]. cbn.
        rewrite Hp, H2. subst s. repeat split; auto; try lia.
        destruct H4 as [H4|H4]; [left; lia|right; exact H4].
      * intros H. injection H as <- <-. cbn.
        repeat split; auto; try lia.
  Qed.

Lemma span_intro (p : ascii -> bool) :
  forall pre n rest,
    PyStr.forallb p pre = true ->
    String.length pre <= n ->
    (String.length pre = n
     \/ match rest with String ch _ => p ch = false | EmptyString => True end) ->
    span p n (pre ++ rest) = (pre, rest).
Proof.
  induction pre as [|c pre IH]; intros n rest Hall Hlen Hend.
  - cbn. destruct n as [|n]; [reflexivity|].
    destruct rest as [|ch rest]; cbn; [reflexivity|].
    destruct Hend as [Hend|Hend]; [cbn in Hend; lia|]. rewrite Hend.
    reflexivity.
  - cbn in Hall, Hlen. apply andb_true_iff in Hall. destruct Hall as [Hc Hall].
    destruct n as [|n]; [lia|]. cbn. rewrite Hc.
    rewrite (IH n rest Hall); [reflexivity|lia|].
    destruct Hend as [Hend|Hend]; [left; cbn in Hend; lia|right; exact Hend].
Qed.

Lemma not_starts_with_digit (rest : string) :
  ~ starts_with_digit rest
  <-> match rest with
      | String ch _ => PyStr.is_digit ch = false
      | EmptyString => True
      end.
Proof.
  unfold starts_with_digit. destruct rest as [|ch rest].
  - split; [auto|]. intros _ [ch [s' [H _]]]. discriminate.
  - split.
    + intros H. destruct (PyStr.is_digit ch) eqn:Hd; [|reflexivity].
      exfalso. apply H. exists ch, rest. auto.
    + intros H [ch' [s' [Heq Hd]]]. injection Heq as <- <-. congruence.
Qed.

Lemma all_digits_head (ds : string) :
  all_digits ds -> 1 <= String.length ds ->
  exists ch ds', ds = String ch ds' /\ PyStr.is_digit ch = true.
Proof.
  destruct ds as [|ch ds']; cbn; [lia|]. intros H _.
  apply andb_true_iff in H. exists ch, ds'. split; [reflexivity|apply H].
Qed.

Lemma component_full_sound (s g rest : string) :
  component_full s = Some (g, rest) ->
  exists ds, is_component g ds /\ s = (g ++ rest)%string
             /\ ~ starts_with_digit rest.
Proof.
  unfold component_full, sign_split. intros H.
  assert (Hgen : forall sg s1,
             (sg = "" \/ sg = "-") ->
             (let '(ds, rest) := span PyStr.is_digit (String.length s1) s1 in
              if (1 <=? String.length ds) && (String.length ds <=? 7)
              then Some ((sg ++ ds)%string, rest) else None) = Some (g, rest) ->
             exists ds, is_component g ds /\ (sg ++ s1)%string = (g ++ rest)%string
                        /\ ~ starts_with_digit rest).
  { intros sg s1 Hsg.
    destruct (span PyStr.is_digit (String.length s1) s1) as [ds r] eqn:Hs.
    destruct (_ && _) eqn:Hb; [|discriminate].
    intros Heq. injection Heq as <- <-.
    apply andb_true_iff in Hb. destruct Hb as [Hb1 Hb2].
    apply Nat.leb_le in Hb1, Hb2.
    destruct (span_spec _ _ _ _ _ Hs) as [H1 [H2 [H3 H4]]].
    exists ds. split; [|split].
    - split; [|split; [lia|exact H2]].
      destruct Hsg as [->| ->]; [left|right]; reflexivity.
    - subst s1. destruct Hsg as [->| ->]; reflexivity.
    - apply not_starts_with_digit. destruct H4 as [H4|H4]; [|exact H4].
      subst s1. rewrite append_length in H4.
      destruct r; [exact I|cbn in H4; lia]. }
  destruct s as [|ch s].
  - apply (Hgen "" ""); [left; reflexivity|exact H].
  - destruct (Ascii.eqb_spec "-"%char ch) as [<-|Hne].
    + apply (Hgen "-" s); [right; reflexivity|exact H].
    + apply (Hgen "" (String ch s)); [left; reflexivity|exact H].
Qed.

Lemma component_greedy_sound (s g rest : string) :
  component_greedy s = Some (g, rest) ->
  exists ds, is_component g ds /\ s = (g ++ rest)%string
             /\ (String.length ds = 7 \/ ~ starts_with_digit rest).
Proof.
  unfold component_greedy, sign_split. intros H.
  assert (Hgen : forall sg s1,
             (sg = "" \/ sg = "-") ->
             (let '(ds, rest) := span PyStr.is_digit 7 s1 in
              if 1 <=? String.length ds
              then Some ((sg ++ ds)%string, rest) else None) = Some (g, rest) ->
             exists ds, is_component g ds /\ (sg ++ s1)%string = (g ++ rest)%string
                        /\ (String.length ds = 7 \/ ~ starts_with_digit rest)).
  { intros sg s1 Hsg.
    destruct (span PyStr.is_digit 7 s1) as [ds r] eqn:Hs.
    destruct (1 <=? String.length ds) eqn:Hb; [|discriminate].
    intros Heq. injection Heq as <- <-.
    apply Nat.leb_le in Hb.
    destruct (span_spec _ _ _ _ _ Hs) as [H1 [H2 [H3 H4]]].
    exists ds. split; [|split].
    - split; [|split; [lia|exact H2]].
      destruct Hsg as [->| ->]; [left|right]; reflexivity.
    - subst s1. destruct Hsg as [->| ->]; reflexivity.
    - destruct H4 as [H4|H4]; [left; exact H4|right].
      apply not_starts_with_digit. exact H4. }
  destruct s as [|ch s].
  - apply (Hgen "" ""); [left; reflexivity|exact H].
  - destruct (Ascii.eqb_spec "-"%char ch) as [<-|Hne].
    + apply (Hgen "-" s); [right; reflexivity|exact H].
    + apply (Hgen "" (String ch s)); [left; reflexivity|exact H].
Qed.

Lemma component_full_complete (g ds rest : string) :
  is_component g ds -> ~ starts_with_digit rest ->
  component_full (g ++ rest) = Some (g, rest).
Proof.
  intros [Hg [Hlen Hds]] Hrest. apply not_starts_with_digit in Hrest.
  destruct (all_digits_head ds Hds ltac:(lia)) as [ch [ds' [Hch Hd]]].
  unfold component_full, sign_split.
  assert (Hspan : forall n, String.length ds <= n ->
             span PyStr.is_digit n (ds ++ rest) = (ds, rest)).
  { intros n Hn. apply span_intro; [exact Hds|exact Hn|right; exact Hrest]. }
  assert (Hb : (1 <=? String.length ds) && (String.length ds <=? 7) = true).
  { apply andb_true_iff. split; apply Nat.leb_le; lia. }
  destruct Hg as [->| ->].
  - subst ds. cbn [append].
    destruct (Ascii.eqb_spec "-"%char ch) as [<-|Hne]; [discriminate|].
    change (String ch (ds' ++ rest)) with ((String ch ds') ++ rest)%string.
    rewrite Hspan by (rewrite append_length; lia).
    rewrite Hb. reflexivity.
  - cbn [append]. rewrite Ascii.eqb_refl.
    rewrite Hspan by (rewrite append_length; lia).
    rewrite Hb. reflexivity.
Qed.

Lemma component_greedy_complete (g ds rest : string) :
  is_component g ds ->
  (String.length ds = 7 \/ ~ starts_with_digit rest) ->
  component_greedy (g ++ rest) = Some (g, rest).
Proof.
  intros [Hg [Hlen Hds]] Hrest.
  destruct (all_digits_head ds Hds ltac:(lia)) as [ch [ds' [Hch Hd]]].
  unfold component_greedy, sign_split.
  assert (Hspan : span PyStr.is_digit 7 (ds ++ rest) = (ds, rest)).
  { apply span_intro; [exact Hds|lia|].
    destruct Hrest as [H|H]; [left; exact H|right].
    apply not_starts_with_digit. exact H. }
  assert (Hb : (1 <=? String.length ds) = true) by (apply Nat.leb_le; lia).
  destruct Hg as [->| ->].
  - subst ds. cbn [append].
    destruct (Ascii.eqb_spec "-"%char ch) as [<-|Hne]; [discriminate|].
    change (String ch (ds' ++ rest)) with ((String ch ds') ++ rest)%string.
    rewrite Hspan. rewrite Hb. reflexivity.
  - cbn [append]. rewrite Ascii.eqb_refl.
    rewrite Hspan. rewrite Hb. reflexivity.
Qed.

Lemma append_assoc (a b c : string) :
  ((a ++ b) ++ c)%string = (a ++ b ++ c)%string.
Proof.
  induction a as [|ch a IH]; cbn; [reflexivity|]. rewrite IH. reflexivity.
Qed.

(** What the pattern of the parser captures is what the grammar says. *)
Lemma three_components_sound (s : string) (e : nat) (caps : list string) :
  three_components s = Some (e, caps) ->
  exists g1 g2 g3,
    caps = [g1; g2; g3] /\ coordinate_grammar s g1 g2 g3.
Proof.
  unfold three_components.
  destruct (component_full s) as [[g1 [|c1 r1]]|] eqn:H1; try discriminate.
  destruct (Ascii.eqb_spec ","%char c1) as [<-|]; [|discriminate].
  destruct (component_full r1) as [[g2 [|c2 r2]]|] eqn:H2; try discriminate.
  destruct (Ascii.eqb_spec ","%char c2) as [<-|]; [|discriminate].
  destruct (component_greedy r2) as [[g3 r3]|] eqn:H3; [|discriminate].
  intros H. injection H as <- <-.
  destruct (component_full_sound _ _ _ H1) as [ds1 [Hc1 [Hs1 _]]].
  destruct (component_full_sound _ _ _ H2) as [ds2 [Hc2 [Hs2 _]]].
  destruct (component_greedy_sound _ _ _ H3) as [ds3 [Hc3 [Hs3 Hend]]].
  exists g1, g2, g3. split; [reflexivity|].
  exists ds1, ds2, ds3, r3. subst s r1 r2. repeat split; try assumption;
    try apply Hc1; try apply Hc2; try apply Hc3.
Qed.

Lemma three_components_complete (s g1 g2 g3 : string) :
  coordinate_grammar s g1 g2 g3 ->
  three_components s
  = Some (String.length g1 + 1 + String.length g2 + 1 + String.length g3,
          [g1; g2; g3]).
Proof.
  intros [ds1 [ds2 [ds3 [rest [Hs [Hc1 [Hc2 [Hc3 Hend]]]]]]]]. subst s.
  unfold three_components.
  assert (Hcomma : forall t, ~ starts_with_digit (String "," t)).
  { intros t. apply not_starts_with_digit. reflexivity. }
  cbn [append].
  rewrite (component_full_complete g1 ds1 _ Hc1 (Hcomma _)).
  rewrite Ascii.eqb_refl.
  rewrite (component_full_complete g2 ds2 _ Hc2 (Hcomma _)).
  rewrite Ascii.eqb_refl.
  rewrite (component_greedy_complete g3 ds3 _ Hc3 Hend).
  reflexivity.
Qed.

(** ** The year token and the search of the timestamp pattern *)

Lemma m_timestamp (pos : nat) (s : string) :
  Re.m timestamp_pattern pos s [] Re.accept
  = if starts_year s then Some (pos + 5, []) else None.
Proof.
  unfold timestamp_pattern, Re.digit, starts_year.
  destruct s as [|c1 [|c2 [|c3 [|c4 [|c5 s]]]]];
    repeat (progress (rewrite ?m_cat, ?m_chr, ?m_cls; cbv beta iota));
    repeat match goal with
           | |- context [if ?b then _ else _] => destruct b; cbn [andb]
           end;
    try reflexivity.
  unfold Re.accept. f_equal. f_equal. lia.
Qed.

Lemma first_year_eq (s : string) :
  first_year s
  = if starts_year s then Some 0
    else match s with
         | EmptyString => None
         | String _ s' => option_map S (first_year s')
         end.
Proof. destruct s; reflexivity. Qed.

Lemma search_timestamp (s : string) :
  forall pos,
    Re.search_from timestamp_pattern pos s
    = option_map (fun i => (pos + i, pos + i + 5, [])) (first_year s).
Proof.
  induction s as [|ch s IH]; intros pos.
  - reflexivity.
  - cbn [Re.search_from]. rewrite m_timestamp, first_year_eq.
    destruct (starts_year (String ch s)).
    + cbn. rewrite Nat.add_0_r. reflexivity.
    + rewrite IH. destruct (first_year s) as [i|]; cbn; [|reflexivity].
      repeat f_equal; lia.
Qed.

Lemma starts_year_iff (s : string) :
  starts_year s = true <-> year_token_at s 0.
Proof.
  unfold year_token_at. change (PyStr.drop 0 s) with s.
  destruct s as [|c1 [|c2 [|c3 [|c4 [|c5 s]]]]];
    unfold starts_year; cbv iota; cbn [PyStr.take];
    try (split; [discriminate|intros [c3' [c4' [H _]]]; discriminate]).
  split.
  - intros H. repeat (apply andb_true_iff in H; destruct H as [H ?]).
    apply Ascii.eqb_eq in H. subst c1.
    repeat match goal with
           | Heq : Ascii.eqb _ _ = true |- _ => apply Ascii.eqb_eq in Heq
           end.
    subst. exists c3, c4. split; [reflexivity|]. split; [|assumption].
    unfold is_2_or_3 in *.
    match goal with
    | Hor : (_ || _)%bool = true |- _ =>
        apply orb_true_iff in Hor; destruct Hor as [Hor|Hor];
          apply Ascii.eqb_eq in Hor; auto
    end.
  - intros [c3' [c4' [H [H3 H4]]]]. injection H as -> -> -> -> ->.
    rewrite H4. unfold is_2_or_3.
    destruct H3 as [->| ->]; reflexivity.
Qed.

Lemma year_token_at_S (ch : ascii) (s : string) (i : nat) :
  year_token_at (String ch s) (S i) <-> year_token_at s i.
Proof. unfold year_token_at. reflexivity. Qed.

Lemma year_token_at_empty (i : nat) : ~ year_token_at "" i.
Proof.
  unfold year_token_at. intros [c3 [c4 [H _]]].
  destruct i; discriminate.
Qed.

(** [first_year] finds the first token, if there is one. *)
Lemma first_year_some (s : string) :
  forall i, first_year s = Some i ->
            year_token_at s i /\ forall j, j < i -> ~ year_token_at s j.
Proof.
  induction s as [|ch s IH]; intros i; rewrite first_year_eq.
  - cbn. discriminate.
  - destruct (starts_year (String ch s)) eqn:Hy.
    + intros H. injection H as <-. split; [|intros j Hj; lia].
      apply starts_year_iff. exact Hy.
    + destruct (first_year s) as [i'|]; cbn; [|discriminate].
      intros H. injection H as <-.
      destruct (IH i' eq_refl) as [H1 H2]. split.
      * apply year_token_at_S. exact H1.
      * intros [|j] Hj.
        -- intros Hn. apply starts_year_iff in Hn. congruence.
        -- intros Hn. apply year_token_at_S in Hn. apply (H2 j); [lia|exact Hn].
Qed.

Lemma first_year_none (s : string) :
  first_year s = None -> forall i, ~ year_token_at s i.
Proof.
  induction s as [|ch s IH]; rewrite first_year_eq.
  - intros _ i. apply year_token_at_empty.
  - destruct (starts_year (String ch s)) eqn:Hy; [discriminate|].
    destruct (first_year s) as [i'|]; cbn; [discriminate|].
    intros _ [|i] Hn.
    + apply starts_year_iff in Hn. congruence.
    + apply year_token_at_S in Hn. exact (IH eq_refl i Hn).
Qed.

(** A text that holds a year token holds a hyphen. *)
Lemma year_token_hyphen (s : string) :
  forall i, year_token_at s i ->
            PyStr.forallb (fun ch => negb (Ascii.eqb "-" ch)) s = false.
Proof.
  induction s as [|ch s IH]; intros i H.
  - exfalso. exact (year_token_at_empty i H).
  - destruct i as [|i].
    + destruct H as [c3 [c4 [H _]]]. change (PyStr.drop 0 ?x) with x in H.
      destruct s as [|c2 [|c3' [|c4' [|c5 s]]]]; cbn [PyStr.take] in H;
        try discriminate.
      injection H as -> -> -> -> ->. cbn [PyStr.forallb].
      rewrite (Ascii.eqb_refl "-"). cbn [negb andb].
      rewrite !andb_false_r. reflexivity.
    + apply year_token_at_S in H. cbn [PyStr.forallb].
      rewrite (IH i H). apply andb_false_r.
Qed.

(** ** Texts without blanks *)

Lemma lstrip_no_space (s : string) : no_space s -> PyStr.lstrip s = s.
Proof.
  unfold no_space. destruct s as [|ch s]; cbn; [reflexivity|].
  intros H. apply andb_true_iff in H. destruct H as [H _].
  destruct (PyStr.is_space ch); [discriminate|reflexivity].
Qed.

Lemma rstrip_no_space (s : string) : no_space s -> PyStr.rstrip s = s.
Proof.
  unfold no_space. induction s as [|ch s IH]; cbn; [reflexivity|].
  intros H. apply andb_true_iff in H. destruct H as [Hc Hs].
  rewrite (IH Hs). destruct s; [|reflexivity].
  destruct (PyStr.is_space ch); [discriminate|reflexivity].
Qed.

Lemma strip_no_space (s : string) : no_space s -> PyStr.strip s = s.
Proof.
  intros H. unfold PyStr.strip. rewrite (lstrip_no_space s H).
  apply rstrip_no_space. exact H.
Qed.

Lemma take_no_space (s : string) :
  forall n, no_space s -> no_space (PyStr.take n s).
Proof.
  unfold no_space. induction s as [|ch s IH]; intros [|n]; cbn; auto.
  intros H. apply andb_true_iff in H. destruct H as [Hc Hs].
  rewrite Hc. cbn. apply IH. exact Hs.
Qed.

Lemma append_no_space (a b : string) :
  no_space a -> no_space b -> no_space (a ++ b).
Proof.
  unfold no_space. induction a as [|ch a IH]; cbn; [auto|].
  intros H Hb. apply andb_true_iff in H. destruct H as [Hc Ha].
  rewrite Hc. cbn. auto.
Qed.

Lemma no_space_head (s : string) :
  no_space s ->
  match s with
  | String ch _ => PyStr.is_space ch = false
  | EmptyString => True
  end.
Proof.
  unfold no_space. destruct s as [|ch s]; cbn; [auto|].
  intros H. apply andb_true_iff in H. destruct H as [H _].
  destruct (PyStr.is_space ch); [discriminate|reflexivity].
Qed.

Lemma no_space_tail (ch : ascii) (s : string) :
  no_space (String ch s) -> no_space s.
Proof.
  unfold no_space. cbn. intros H. apply andb_true_iff in H. apply H.
Qed.

Lemma search_spaces_none (s : string) :
  no_space s -> forall pos, Re.search_from spaces_pattern pos s = None.
Proof.
  induction s as [|ch s IH]; intros Hs pos; cbn [Re.search_from];
    unfold spaces_pattern, Re.space.
  - rewrite (m_rep_cls_fail PyStr.is_space Re.accept 1 None pos "" []
               (no_space_head "" Hs)).
    reflexivity.
  - rewrite (m_rep_cls_fail PyStr.is_space Re.accept 1 None pos (String ch s)
               [] (no_space_head (String ch s) Hs)).
    apply IH. eapply no_space_tail. exact Hs.
Qed.

Lemma search_year_only_none (s : string) :
  no_space s -> forall pos, Re.search_from year_only_pattern pos s = None.
Proof.
  induction s as [|ch s IH]; intros Hs pos; cbn [Re.search_from];
    unfold year_only_pattern, Re.space; rewrite m_cat.
  - rewrite (m_rep_cls_fail PyStr.is_space _ 0 None pos "" []
               (no_space_head "" Hs)).
    reflexivity.
  - rewrite (m_rep_cls_fail PyStr.is_space _ 0 None pos (String ch s) []
               (no_space_head (String ch s) Hs)).
    apply IH. eapply no_space_tail. exact Hs.
Qed.

(** On a text without blanks the timestamp removal cuts at the first year
    token, or returns the text. *)
Lemma remove_timestamp_no_space (s : string) :
  no_space s ->
  _remove_timestamp_from_coord_string s
  = match first_year s with
    | Some i => PyStr.take i s
    | None => s
    end.
Proof.
  intros Hs. unfold _remove_timestamp_from_coord_string, Re.re_search,
    Re.re_split1, Re.re_search.
  rewrite search_timestamp.
  destruct (first_year s) as [i|]; cbn [option_map].
  - apply rstrip_no_space. apply take_no_space. exact Hs.
  - rewrite (search_spaces_none s Hs). cbn [List.length Nat.ltb Nat.leb].
    rewrite (search_year_only_none s Hs). reflexivity.
Qed.

Lemma class_char_no_space (k : Z) :
  no_space (or_empty (_class_id_to_char_static k)).
Proof.
  destruct (_class_id_to_char_static k) as [s|] eqn:Hk; [|reflexivity].
  unfold _class_id_to_char_static in Hk.
  destruct (_ && _)%bool; [|discriminate].
  apply nth_error_In in Hk. cbn in Hk.
  repeat (destruct Hk as [Hk|Hk]; [subst s; reflexivity|]).
  contradiction.
Qed.

Lemma concat_no_space (l : list string) :
  Forall no_space l -> no_space (String.concat "" l).
Proof.
  induction 1 as [|x l Hx Hl IH]; [reflexivity|].
  cbn [String.concat]. destruct l as [|y l]; [exact Hx|].
  apply append_no_space; [exact Hx|]. exact IH.
Qed.

Lemma coord_str_no_space (dets : list detection) : no_space (coord_str_of dets).
Proof.
  unfold coord_str_of. apply concat_no_space.
  apply Forall_forall. intros s Hin. apply in_map_iff in Hin.
  destruct Hin as [d [<- _]]. apply class_char_no_space.
Qed.

Lemma cleaned_no_space (dets : list detection) :
  no_space (cleaned_string dets).
Proof.
  unfold cleaned_string.
  rewrite (remove_timestamp_no_space _ (coord_str_no_space dets)).
  destruct (first_year _); [apply take_no_space|]; apply coord_str_no_space.
Qed.

(** ** Claims on the timestamp removal and on the parser *)

(** C4: the timestamp removal turns [-1234,5678,20 2025-01-01 10:00:00] into
    [-1234,5678,20], which the numeric extraction reads as
    [(-1234, 5678, 20)]; and on every string the rule of the year fires only
    at a token [20[23]\d-], the first one of the string, where it cuts: a
    string with no such token, for instance one with no hyphen or one that
    ends with [,20 ], is not cut by that rule. *)
Theorem C4_timestamp_stripping :
  _remove_timestamp_from_coord_string "-1234,5678,20 2025-01-01 10:00:00"
  = "-1234,5678,20"
  /\ extract_coordinates "-1234,5678,20" = extracted (-1234, 5678, 20)%Z
  /\ (forall (s : string) (st e : nat) (caps : list string),
         Re.re_search timestamp_pattern s = Some (st, e, caps) ->
         year_token_at s st
         /\ (forall j, j < st -> ~ year_token_at s j)
         /\ e = st + 5
         /\ _remove_timestamp_from_coord_string s
            = PyStr.rstrip (PyStr.take st s))
  /\ (forall (s : string),
         Re.re_search timestamp_pattern s = None
         <-> forall i, ~ year_token_at s i)
  /\ (forall (s : string),
         PyStr.forallb (fun ch => negb (Ascii.eqb "-" ch)) s = true ->
         Re.re_search timestamp_pattern s = None)
  /\ (Re.re_search timestamp_pattern "-1234,5678,20 " = None
      /\ _remove_timestamp_from_coord_string "-1234,5678,20 "
         = "-1234,5678,20 ").
Proof.
  split; [vm_compute; reflexivity|].
  split; [vm_compute; reflexivity|].
  split; [|split; [|split; [|split; vm_compute; reflexivity]]].
  - intros s st e caps Hs.
    unfold _remove_timestamp_from_coord_string. rewrite Hs.
    unfold Re.re_search in Hs. rewrite search_timestamp in Hs.
    destruct (first_year s) as [i|] eqn:Hi; [|discriminate].
    cbn in Hs. injection Hs as <- <- <-.
    destruct (first_year_some s i Hi) as [H1 H2].
    repeat split; assumption.
  - intros s. unfold Re.re_search. rewrite search_timestamp.
    destruct (first_year s) as [i|] eqn:Hi; cbn.
    + split; [discriminate|]. intros H. exfalso.
      exact (H i (proj1 (first_year_some s i Hi))).
    + split; [intros _|reflexivity]. apply first_year_none. exact Hi.
  - intros s Hs. unfold Re.re_search. rewrite search_timestamp.
    destruct (first_year s) as [i|] eqn:Hi; [|reflexivity].
    pose proof (year_token_hyphen s i (proj1 (first_year_some s i Hi))).
    congruence.
Qed.

(** The rule of the year on the example of the specification: the token is
    at the index 14. *)
Lemma C4_witness :
  year_token_at "-1234,5678,20 2025-01-01 10:00:00" 14
  /\ _remove_timestamp_from_coord_string "-1234,5678,20 2025-01-01 10:00:00"
     = PyStr.rstrip (PyStr.take 14 "-1234,5678,20 2025-01-01 10:00:00").
Proof.
  assert (Hs : Re.re_search timestamp_pattern
                 "-1234,5678,20 2025-01-01 10:00:00" = Some (14, 19, [])).
  { vm_compute. reflexivity. }
  pose proof (proj1 (proj2 (proj2 C4_timestamp_stripping)) _ _ _ _ Hs)
    as [H1 [_ [_ H2]]].
  split; [exact H1|exact H2].
Defined.

(** The result of the parser on a list that is not empty. *)
Lemma parse_result (d : detection) (dets : list detection) (w : OCRWorker) :
  result_of (_parse_and_validate_from_detections (d :: dets) w)
  = match extract_coordinates (cleaned_string (d :: dets)) with
    | extracted c => (true, Some c)
    | _ => (false, None)
    end.
Proof.
  unfold _parse_and_validate_from_detections, cleaned_string.
  unfold bind, ret, emit, result_of. cbv beta iota zeta.
  destruct (extract_coordinates _); reflexivity.
Qed.

(** C1: when the string read from the detections, without its timestamp,
    starts with three components of the coordinate grammar whose integers
    have a magnitude of at most 9,999,999, the parser succeeds with these
    three integers; on every other list, the empty one included, it answers
    [(False, None)]. *)
Theorem C1_parser :
  (forall (detections : list detection) (w : OCRWorker)
          (g1 g2 g3 : string) (x y z : Z),
      coordinate_grammar (cleaned_string detections) g1 g2 g3 ->
      PyStr.int g1 = Some x -> PyStr.int g2 = Some y -> PyStr.int g3 = Some z ->
      (Z.abs x <= 9999999)%Z -> (Z.abs y <= 9999999)%Z ->
      (Z.abs z <= 9999999)%Z ->
      result_of (_parse_and_validate_from_detections detections w)
      = (true, Some (x, y, z)))
  /\ (forall (detections : list detection) (w : OCRWorker),
         ~ (exists (g1 g2 g3 : string) (x y z : Z),
               coordinate_grammar (cleaned_string detections) g1 g2 g3
               /\ PyStr.int g1 = Some x /\ PyStr.int g2 = Some y
               /\ PyStr.int g3 = Some z
               /\ (Z.abs x <= 9999999)%Z /\ (Z.abs y <= 9999999)%Z
               /\ (Z.abs z <= 9999999)%Z) ->
         result_of (_parse_and_validate_from_detections detections w)
         = (false, None))
  /\ (forall w : OCRWorker,
         result_of (_parse_and_validate_from_detections [] w) = (false, None)).
Proof.
  split; [|split].
  - intros dets w g1 g2 g3 x y z Hg Hx Hy Hz Hbx Hby Hbz.
    pose proof (three_components_complete _ _ _ _ Hg) as Hthree.
    destruct dets as [|d dets].
    { vm_compute in Hthree. discriminate. }
    rewrite parse_result. unfold extract_coordinates.
    rewrite (strip_no_space _ (cleaned_no_space _)).
    rewrite re_match_parse_pattern, Hthree.
    unfold group. cbn [Nat.sub nth]. rewrite Hx, Hy, Hz.
    unfold max_coord_value.
    destruct (Z.leb_spec (Z.abs x) 9999999); [|lia].
    destruct (Z.leb_spec (Z.abs y) 9999999); [|lia].
    destruct (Z.leb_spec (Z.abs z) 9999999); [|lia].
    reflexivity.
  - intros dets w Hno. destruct dets as [|d dets]; [reflexivity|].
    rewrite parse_result. unfold extract_coordinates.
    rewrite (strip_no_space _ (cleaned_no_space _)).
    rewrite re_match_parse_pattern.
    destruct (three_components (cleaned_string (d :: dets)))
      as [[e caps]|] eqn:Hthree; [|reflexivity].
    destruct (three_components_sound _ _ _ Hthree) as [g1 [g2 [g3 [-> Hg]]]].
    unfold group. cbn [Nat.sub nth].
    destruct (PyStr.int g1) as [x|] eqn:Hx; [|reflexivity].
    destruct (PyStr.int g2) as [y|] eqn:Hy; [|reflexivity].
    destruct (PyStr.int g3) as [z|] eqn:Hz; [|reflexivity].
    unfold max_coord_value.
    destruct (Z.leb_spec (Z.abs x) 9999999); [|reflexivity].
    destruct (Z.leb_spec (Z.abs y) 9999999); [|reflexivity].
    destruct (Z.leb_spec (Z.abs z) 9999999); [|reflexivity].
    exfalso. apply Hno. exists g1, g2, g3, x, y, z. repeat split; assumption.
  - intros w. reflexivity.
Qed.

(** The detections of [-12,345,6789] parse to [(-12, 345, 6789)]. *)
Lemma C1_witness :
  result_of (_parse_and_validate_from_detections (glyphs 0 "-12,345,6789")
               (initial_worker 1000 5 50))
  = (true, Some (-12, 345, 6789)%Z).
Proof.
  assert (Hc : cleaned_string (glyphs 0 "-12,345,6789") = "-12,345,6789").
  { vm_compute. reflexivity. }
  assert (Hg : coordinate_grammar (cleaned_string (glyphs 0 "-12,345,6789"))
                 "-12" "345" "6789").
  { rewrite Hc. exists "12", "345", "6789", "".
    split; [reflexivity|].
    split; [split; [right; reflexivity|split; [cbn; lia|reflexivity]]|].
    split; [split; [left; reflexivity|split; [cbn; lia|reflexivity]]|].
    split; [split; [left; reflexivity|split; [cbn; lia|reflexivity]]|].
    right. intros [ch [s' [H _]]]. discriminate. }
  exact (proj1 C1_parser (glyphs 0 "-12,345,6789") (initial_worker 1000 5 50)
           "-12" "345" "6789" (-12)%Z 345%Z 6789%Z Hg eq_refl eq_refl eq_refl
           ltac:(cbn; lia) ltac:(cbn; lia) ltac:(cbn; lia)).
Defined.

(** ** Claims on the calibration solver *)

(** The design matrix of two points is always singular. *)
Lemma two_points_singular (p1 p2 : Calibration.CalibrationPoint) :
  Calibration.singular (Calibration.design_matrix [p1; p2]).
Proof.
  unfold Calibration.singular.
  destruct (Qeq_dec (Calibration.x p1) (Calibration.x p2)) as [Heq|Hne].
  - exists [1; 0; - Calibration.x p1; 0; 0; 0]%Q.
    split; [reflexivity|]. split.
    + exists 0. cbn. intros H. discriminate H.
    + intros row Hin. cbn in Hin.
      destruct Hin as [<-|[<-|[<-|[<-|[]]]]]; cbn.
      * ring.
      * ring.
      * rewrite <- Heq. ring.
      * ring.
  - exists [Calibration.y p1 - Calibration.y p2;
            Calibration.x p2 - Calibration.x p1;
            - ((Calibration.y p1 - Calibration.y p2) * Calibration.x p1
               + (Calibration.x p2 - Calibration.x p1) * Calibration.y p1);
            0; 0; 0]%Q.
    split; [reflexivity|]. split.
    + exists 1. cbn. intros H. apply Hne.
      assert (E : (Calibration.x p2
                   == Calibration.x p1
                      + (Calibration.x p2 - Calibration.x p1))%Q) by ring.
      rewrite H in E. rewrite E. ring.
    + intros row Hin. cbn in Hin.
      destruct Hin as [<-|[<-|[<-|[<-|[]]]]]; cbn; ring.
Qed.

(** C6, as stated, fails at two points: their design matrix is singular, so
    the solver cannot both succeed on them and reject them, whatever the
    least-squares routine answers. *)
Lemma C6_counterexample :
  Calibration.singular (Calibration.design_matrix example_points)
  /\ forall lstsq,
       ~ ((exists m,
              Calibration.calculate_transform_matrix lstsq example_points
              = Calibration.Ok m)
          /\ (Calibration.singular (Calibration.design_matrix example_points) ->
              Calibration.calculate_transform_matrix lstsq example_points
              = Calibration.Raise
                  (Calibration.ValueError "transform_matrix_error"))).
Proof.
  split; [apply two_points_singular|].
  intros lstsq [[m Hm] Hs].
  rewrite (Hs (two_points_singular _ _)) in Hm. discriminate.
Qed.

(** C6, amended: with fewer than two points the solver raises the validation
    error; with two points or more it never raises it: it returns the
    transform made of the six numbers that the least-squares routine
    answers, and raises the computation error exactly when that routine
    raises [LinAlgError]; the solver itself does not test whether the design
    matrix is singular, and with exactly two points that matrix always
    is. *)
Theorem C6_solver_errors :
  forall (lstsq : list (list Q) -> list Q -> option (list Q))
         (points : list Calibration.CalibrationPoint),
    (List.length points < 2 ->
     Calibration.calculate_transform_matrix lstsq points
     = Calibration.Raise (Calibration.ValueError "calibration_min_points"))
    /\ (2 <= List.length points ->
        (forall sol,
            lstsq (Calibration.design_matrix points)
              (Calibration.design_rhs points) = Some sol ->
            Calibration.calculate_transform_matrix lstsq points
            = Calibration.Ok (matrix_of sol))
        /\ (lstsq (Calibration.design_matrix points)
              (Calibration.design_rhs points) = None <->
            Calibration.calculate_transform_matrix lstsq points
            = Calibration.Raise
                (Calibration.ValueError "transform_matrix_error"))
        /\ Calibration.calculate_transform_matrix lstsq points
           <> Calibration.Raise (Calibration.ValueError "calibration_min_points"))
    /\ (List.length points = 2 ->
        Calibration.singular (Calibration.design_matrix points)).
Proof.
  intros lstsq points. unfold Calibration.calculate_transform_matrix.
  split; [|split].
  - intros Hlen. destruct (Nat.ltb_spec (List.length points) 2); [|lia].
    reflexivity.
  - intros Hlen. destruct (Nat.ltb_spec (List.length points) 2); [lia|].
    destruct (lstsq _ _) as [sol|]; split; [| split | | split].
    + intros sol' H'. injection H' as <-. reflexivity.
    + split; discriminate.
    + discriminate.
    + discriminate.
    + split; reflexivity.
    + discriminate.
  - intros Hlen. destruct points as [|p1 [|p2 [|p3 points]]];
      try discriminate.
    apply two_points_singular.
Qed.

(** On the two example points the solver returns what the routine answers,
    although their design matrix is singular. *)
Lemma C6_witness :
  Calibration.calculate_transform_matrix example_lstsq example_points
  = Calibration.Ok (matrix_of [1 # 2; 1 # 2; 0; 1 # 2; 1 # 2; 0]%Q)
  /\ Calibration.singular (Calibration.design_matrix example_points).
Proof.
  pose proof (C6_solver_errors example_lstsq example_points) as [_ [H2 H3]].
  split.
  - apply (proj1 (H2 (le_n 2))). reflexivity.
  - apply H3. reflexivity.
Defined.

(** ** Further properties of the glyph clusterer *)

Lemma width_stats_count (l : list detection) :
  forall (acc : Q * Z),
    snd (fold_left
           (fun (acc : Q * Z) detection =>
              let '(total_width, valid_char_count) := acc in
              let char := _class_id_to_char_static (class detection) in
              if (truthy char
                  && (PyStr.isdigit (or_empty char)
                      || PyStr.mem (or_empty char) ["-"; ","]))%bool
              then
                let width := (bbox_x2 detection - bbox_x1 detection)%Q in
                if Qgtb width 0
                then ((total_width + width)%Q, (valid_char_count + 1)%Z)
                else acc
              else acc) l acc)
    = (snd acc + Z.of_nat (List.length (filter counts_for_width l)))%Z.
Proof.
  induction l as [|d l IH]; intros [tw n].
  - cbn. lia.
  - cbn [fold_left filter]. rewrite IH. unfold counts_for_width, has_char.
    destruct (truthy _ && _)%bool; cbn [andb].
    + destruct (Qgtb _ 0); cbn [snd List.length]; lia.
    + cbn [snd]. lia.
Qed.

Lemma width_stats_zero (l : list detection) :
  (snd (width_stats l) =? 0)%Z = true
  <-> forall d, In d l -> counts_for_width d = false.
Proof.
  unfold width_stats. rewrite width_stats_count. cbn [snd].
  rewrite Z.eqb_eq. split.
  - intros H d Hin. destruct (counts_for_width d) eqn:Hd; [|reflexivity].
    assert (Hf : In d (filter counts_for_width l))
      by (apply filter_In; auto).
    destruct (filter counts_for_width l); [contradiction|cbn in H; lia].
  - intros H. replace (filter counts_for_width l) with (@nil detection).
    + reflexivity.
    + symmetry. induction l as [|d l IH]; [reflexivity|]. cbn.
      rewrite (H d (or_introl eq_refl)). apply IH.
      intros d' Hd'. apply H. right. exact Hd'.
Qed.

Lemma spells_nil (ds : list detection) : spells "" ds -> ds = [].
Proof. unfold spells. cbn. intros H. inversion H. reflexivity. Qed.

Lemma all_detections_snoc (cs : list cluster) (c : cluster) :
  all_detections (cs ++ [c]) = all_detections cs ++ detections c.
Proof.
  unfold all_detections. rewrite map_app, concat_app. cbn.
  rewrite app_nil_r. reflexivity.
Qed.

Lemma append_nil_r (s : string) : (s ++ "")%string = s.
Proof. induction s as [|ch s IH]; cbn; [reflexivity|]. rewrite IH. reflexivity. Qed.

Lemma all_text_snoc (cs : list cluster) (c : cluster) :
  all_text (cs ++ [c]) = (all_text cs ++ word c)%string.
Proof.
  unfold all_text. induction cs as [|c' cs IH]; cbn.
  - apply append_nil_r.
  - rewrite IH. symmetry. apply append_assoc.
Qed.

(** What the third loop keeps: the clusters emitted and the one in progress
    hold, in order, the detections read so far that decode to a character,
    and spell their characters; no cluster emitted is empty. *)
Lemma walk_partition (avg sep : Q) (l : list detection) :
  forall st : walk,
    spells (current_word st) (current_detections_list st) ->
    Forall well_spelled (clusters st) ->
    (last_x2 st = None -> current_word st = "") ->
    let st' := fold_left (walk_step avg sep) l st in
    all_detections (clusters st') ++ current_detections_list st'
    = (all_detections (clusters st) ++ current_detections_list st)
      ++ filter has_char l
    /\ (all_text (clusters st') ++ current_word st')%string
       = ((all_text (clusters st) ++ current_word st)
          ++ fold_right append ""
               (map (fun d => or_empty (_class_id_to_char_static (class d))) l))%string
    /\ spells (current_word st') (current_detections_list st')
    /\ Forall well_spelled (clusters st').
Proof.
  induction l as [|d l IH]; intros st Hsp Hne Hfirst.
  - cbn. rewrite app_nil_r, append_nil_r. auto.
  - cbn [fold_left filter map fold_right].
    assert (Hstep :
      all_detections (clusters (walk_step avg sep st d))
        ++ current_detections_list (walk_step avg sep st d)
      = (all_detections (clusters st) ++ current_detections_list st)
        ++ (if has_char d then [d] else [])
      /\ (all_text (clusters (walk_step avg sep st d))
            ++ current_word (walk_step avg sep st d))%string
         = ((all_text (clusters st) ++ current_word st)
              ++ or_empty (_class_id_to_char_static (class d)))%string
      /\ spells (current_word (walk_step avg sep st d))
           (current_detections_list (walk_step avg sep st d))
      /\ Forall well_spelled (clusters (walk_step avg sep st d))
      /\ (last_x2 (walk_step avg sep st d) = None ->
          current_word (walk_step avg sep st d) = "")).
    { unfold walk_step, has_char.
      destruct (_class_id_to_char_static (class d)) as [s|] eqn:Hd.
      2:{ cbn. rewrite app_nil_r, append_nil_r. auto. }
      destruct (class_char_single _ _ Hd) as [ch ->]. cbn [truthy negb or_empty].
      destruct (last_x2 st) as [last|].
      - match goal with |- context [if ?b then _ else _] => destruct b end;
          cbn [clusters current_word current_detections_list last_x2].
        + destruct (current_word st) eqn:Hw.
          * rewrite (spells_nil _ Hsp). rewrite !app_nil_r, append_nil_r.
            repeat split; auto; try discriminate. apply spells_one. exact Hd.
          * rewrite all_detections_snoc, all_text_snoc. cbn [word detections].
            rewrite <- app_assoc. rewrite append_assoc.
            repeat split; auto; try discriminate.
            -- apply spells_one. exact Hd.
            -- apply Forall_app. split; [exact Hne|].
               constructor; [|constructor].
               split; cbn [word detections]; [discriminate|exact Hsp].
        + rewrite app_assoc. rewrite <- append_assoc.
          repeat split; auto; try discriminate. apply spells_snoc; assumption.
      - cbn [clusters current_word current_detections_list last_x2].
        rewrite (Hfirst eq_refl) in *. rewrite (spells_nil _ Hsp).
        rewrite !app_nil_r, append_nil_r.
        repeat split; auto; try discriminate. apply spells_one. exact Hd. }
    destruct Hstep as [H1 [H2 [H3 [H4 H5]]]].
    destruct (IH (walk_step avg sep st d) H3 H4 H5) as [I1 [I2 [I3 I4]]].
    cbv zeta. rewrite I1, I2, H1, H2.
    repeat split; auto.
    + rewrite <- app_assoc. f_equal. destruct (has_char d); reflexivity.
    + rewrite !append_assoc. reflexivity.
Qed.

Lemma concat_empty_sep (l : list string) :
  String.concat "" l = fold_right append "" l.
Proof.
  induction l as [|x l IH]; [reflexivity|].
  cbn [String.concat fold_right]. destruct l as [|y l].
  - symmetry. apply append_nil_r.
  - rewrite IH. reflexivity.
Qed.

Lemma counts_has_char (d : detection) :
  counts_for_width d = true -> has_char d = true.
Proof.
  unfold counts_for_width. intros H.
  apply andb_true_iff in H. destruct H as [H _].
  apply andb_true_iff in H. apply H.
Qed.

(** The clusterer, when some detection counts for the average width. *)
Lemma clusterer_facts (raw : list detection) :
  (exists d, In d raw /\ counts_for_width d = true) ->
  let cs := cluster_detections_to_rich_clusters raw in
  all_detections cs = filter has_char (sort_by bbox_x1 raw)
  /\ all_text cs = coord_str_of raw
  /\ Forall well_spelled cs
  /\ cs <> [].
Proof.
  intros [d [Hin Hd]]. unfold cluster_detections_to_rich_clusters.
  destruct raw as [|d0 raw']; [contradiction|].
  set (sorted := sort_by bbox_x1 (d0 :: raw')).
  assert (Hins : In d sorted).
  { eapply Permutation_in; [apply sort_by_perm|exact Hin]. }
  destruct (width_stats sorted) as [total_width valid_char_count] eqn:Hws.
  destruct (valid_char_count =? 0)%Z eqn:Hz.
  { exfalso. pose proof (proj1 (width_stats_zero sorted)) as H0.
    rewrite Hws in H0. cbn [snd] in H0. rewrite (H0 Hz d Hins) in Hd.
    discriminate. }
  set (avg := (total_width / inject_Z valid_char_count)%Q).
  set (sep := separation_threshold_of avg (gaps_of sorted)).
  set (st0 := {| clusters := []; current_word := "";
                 current_detections_list := []; last_x2 := None |}).
  destruct (walk_partition avg sep sorted st0) as [H1 [H2 [H3 H4]]].
  - constructor.
  - constructor.
  - reflexivity.
  - cbn [clusters current_word current_detections_list st0 all_detections
         all_text map List.concat fold_right app append] in H1, H2.
    set (st := fold_left (walk_step avg sep) sorted st0) in *.
    unfold coord_str_of. rewrite concat_empty_sep. fold sorted.
    assert (Hne : filter has_char sorted <> []).
    { intros Hnil. assert (Hf : In d (filter has_char sorted)).
      { apply filter_In. split; [exact Hins|apply counts_has_char; exact Hd]. }
      rewrite Hnil in Hf. contradiction. }
    destruct (current_word st) eqn:Hw.
    + rewrite (spells_nil _ H3) in H1. rewrite app_nil_r in H1.
      rewrite append_nil_r in H2.
      repeat split; auto.
      intros Hnil. rewrite Hnil in H1. cbn in H1. apply Hne. symmetry.
      exact H1.
    + rewrite all_detections_snoc, all_text_snoc. cbn [word detections].
      repeat split; auto.
      * apply Forall_app. split; [exact H4|].
        constructor; [|constructor]. split; cbn [word detections];
          [discriminate|exact H3].
      * intros Hnil. destruct (clusters st); discriminate.
Qed.

(** X1: when some detection counts for the average width, the clusters hold,
    end to end, exactly the detections that decode to a character, in the
    order of [x1], each one once; and their texts, end to end, are the
    string that the parser reads from the same detections. *)
Theorem X1_clusters_partition_the_detections :
  forall (raw : list detection),
    (exists d, In d raw /\ counts_for_width d = true) ->
    all_detections (cluster_detections_to_rich_clusters raw)
    = filter has_char (sort_by bbox_x1 raw)
    /\ all_text (cluster_detections_to_rich_clusters raw) = coord_str_of raw.
Proof.
  intros raw H. destruct (clusterer_facts raw H) as [H1 [H2 _]]. auto.
Qed.

Lemma X1_witness :
  all_detections (cluster_detections_to_rich_clusters
                    (glyphs 0 "-512" ++ glyphs 100 "3191,5189"))
  = filter has_char
      (sort_by bbox_x1 (glyphs 0 "-512" ++ glyphs 100 "3191,5189"))
  /\ all_text (cluster_detections_to_rich_clusters
                 (glyphs 0 "-512" ++ glyphs 100 "3191,5189"))
     = coord_str_of (glyphs 0 "-512" ++ glyphs 100 "3191,5189").
Proof.
  apply X1_clusters_partition_the_detections.
  exists (glyph 12 0). split; [left; reflexivity|reflexivity].
Defined.

Lemma clusterer_nil_iff :
  forall (raw : list detection),
    cluster_detections_to_rich_clusters raw = []
    <-> forall d, In d raw -> counts_for_width d = false.
Proof.
  intros raw. split.
  - intros Hnil d Hin. destruct (counts_for_width d) eqn:Hd; [|reflexivity].
    exfalso.
    destruct (clusterer_facts raw (ex_intro _ d (conj Hin Hd)))
      as [_ [_ [_ Hne]]].
    exact (Hne Hnil).
  - intros Hall. unfold cluster_detections_to_rich_clusters.
    destruct raw as [|d0 raw']; [reflexivity|].
    set (sorted := sort_by bbox_x1 (d0 :: raw')).
    assert (Hz : (snd (width_stats sorted) =? 0)%Z = true).
    { apply width_stats_zero. intros d Hin. apply Hall.
      eapply Permutation_in; [symmetry; apply sort_by_perm|exact Hin]. }
    destruct (width_stats sorted) as [tw n]. cbn [snd] in Hz. rewrite Hz.
    reflexivity.
Qed.

(** X2: the clusterer returns no cluster exactly when no detection counts
    for the average width (no digit, minus sign or comma with a box of
    positive width), in particular on the empty list. *)
Theorem X2_no_cluster_iff_nothing_counts :
  forall (raw : list detection),
    cluster_detections_to_rich_clusters raw = []
    <-> forall d, In d raw -> counts_for_width d = false.
Proof. exact clusterer_nil_iff. Qed.

Lemma X2_witness :
  cluster_detections_to_rich_clusters [glyph 11 0; glyph 11 12] = [].
Proof.
  apply (proj2 (X2_no_cluster_iff_nothing_counts [glyph 11 0; glyph 11 12])).
  intros d [<-|[<-|[]]]; reflexivity.
Defined.

(** Every cluster emitted is not empty and spells its detections. *)
Lemma clusterer_well_spelled (raw : list detection) :
  Forall well_spelled (cluster_detections_to_rich_clusters raw).
Proof.
  destruct (existsb counts_for_width raw) eqn:He.
  - apply existsb_exists in He.
    destruct (clusterer_facts raw He) as [_ [_ [Hall _]]]. exact Hall.
  - assert (Hnil : cluster_detections_to_rich_clusters raw = []).
    { apply clusterer_nil_iff. intros d Hd.
      destruct (counts_for_width d) eqn:Hc; [|reflexivity].
      assert (existsb counts_for_width raw = true)
        by (apply existsb_exists; eauto).
      congruence. }
    rewrite Hnil. constructor.
Qed.

Lemma class_char_alphabet (k : Z) (ch : ascii) :
  _class_id_to_char_static k = Some (String ch EmptyString) ->
  in_alphabet ch = true.
Proof.
  unfold _class_id_to_char_static.
  destruct (_ && _)%bool; [|discriminate].
  intros H. apply nth_error_In in H. cbn in H.
  repeat (destruct H as [H|H]; [injection H as <-; reflexivity|]).
  contradiction.
Qed.

Lemma spells_alphabet (w : string) (ds : list detection) :
  spells w ds -> PyStr.forallb in_alphabet w = true.
Proof.
  unfold spells. revert ds. induction w as [|ch w IH]; intros ds H;
    [reflexivity|].
  cbn in H. inversion H as [|? d ? ds' Hd Hrest]; subst. cbn.
  rewrite (class_char_alphabet _ _ Hd). cbn. eapply IH. exact Hrest.
Qed.

(** X3: a cluster that the clusterer emits is never empty: it has at least
    one detection, its text has one character for each detection, and every
    character of its text belongs to the alphabet [0123456789,:-]. *)
Theorem X3_clusters_not_empty_over_alphabet :
  forall (raw : list detection) (c : cluster),
    In c (cluster_detections_to_rich_clusters raw) ->
    detections c <> []
    /\ String.length (word c) = List.length (detections c)
    /\ PyStr.forallb in_alphabet (word c) = true.
Proof.
  intros raw c Hin.
  pose proof (clusterer_well_spelled raw) as Hall.
  eapply Forall_forall in Hall; [|exact Hin].
  destruct Hall as [Hne Hsp].
  pose proof (Forall2_length Hsp) as Hlen.
  rewrite list_ascii_of_string_length in Hlen.
  split; [|split].
  - intros Hnil. rewrite Hnil in Hlen. cbn in Hlen.
    destruct (word c); [congruence|discriminate].
  - exact Hlen.
  - eapply spells_alphabet. exact Hsp.
Qed.

Lemma X3_witness :
  detections {| word := "2000,0,0"; detections := glyphs 0 "2000,0,0" |} <> []
  /\ String.length "2000,0,0" = List.length (glyphs 0 "2000,0,0")
  /\ PyStr.forallb in_alphabet "2000,0,0" = true.
Proof.
  apply (X3_clusters_not_empty_over_alphabet (glyphs 0 "2000,0,0")
           {| word := "2000,0,0"; detections := glyphs 0 "2000,0,0" |}).
  vm_compute. left. reflexivity.
Defined.

(** ** Further properties of the selector *)

Lemma matchesb_iff (c : cluster) : matchesb c = true <-> matches_grammar c.
Proof.
  unfold matchesb, matches_grammar.
  destruct (Re.re_match select_coord_pattern (stripped_text c)).
  - split; [discriminate|reflexivity].
  - split; [discriminate|]. intros H. exfalso. apply H. reflexivity.
Qed.

Lemma select_step_snd (acc : option cluster * list detail) (c : cluster) :
  map detail_word (snd (select_step acc c))
  = map detail_word (snd acc) ++ [word c]
  /\ map detail_cleaned (snd (select_step acc c))
     = map detail_cleaned (snd acc) ++ [stripped_text c]
  /\ map detail_matched (snd (select_step acc c))
     = map detail_matched (snd acc) ++ [matchesb c].
Proof.
  destruct acc as [best details].
  unfold select_step, matchesb, stripped_text. cbv beta iota zeta.
  destruct (Re.re_match select_coord_pattern (cleaned_word_of (word c)));
    cbn [snd]; rewrite !map_app; auto.
Qed.

Lemma find_best_details (cs : list cluster) :
  forall acc,
    map detail_word (snd (fold_left select_step cs acc))
    = map detail_word (snd acc) ++ map word cs
    /\ map detail_cleaned (snd (fold_left select_step cs acc))
       = map detail_cleaned (snd acc) ++ map stripped_text cs
    /\ map detail_matched (snd (fold_left select_step cs acc))
       = map detail_matched (snd acc) ++ map matchesb cs.
Proof.
  induction cs as [|c cs IH]; intros acc.
  - cbn. rewrite !app_nil_r. auto.
  - cbn [fold_left map]. destruct (IH (select_step acc c)) as [H1 [H2 H3]].
    destruct (select_step_snd acc c) as [S1 [S2 S3]].
    rewrite H1, H2, H3, S1, S2, S3. rewrite <- !app_assoc. auto.
Qed.

Lemma find_best_member (cs : list cluster) :
  forall acc,
    (forall b, fst acc = Some b -> matchesb b = true) ->
    (forall b, fst (fold_left select_step cs acc) = Some b ->
               (fst acc = Some b \/ In b cs) /\ matchesb b = true)
    /\ (fst (fold_left select_step cs acc) = None
        <-> fst acc = None /\ forall c, In c cs -> matchesb c = false).
Proof.
  induction cs as [|c cs IH]; intros acc Hacc.
  - cbn. split.
    + intros b Hb. auto.
    + split; [intros H; split; [exact H|intros c []]|intros [H _]; exact H].
  - cbn [fold_left].
    assert (Hstep : (forall b, fst (select_step acc c) = Some b ->
                               matchesb b = true)
                    /\ (forall b, fst (select_step acc c) = Some b ->
                                  fst acc = Some b \/ b = c)
                    /\ (fst (select_step acc c) = None
                        <-> fst acc = None /\ matchesb c = false)).
    { rewrite select_step_fst.
      destruct (Re.re_match select_coord_pattern (stripped_text c)) eqn:Hm.
      - assert (Hc : matchesb c = true) by (unfold matchesb; rewrite Hm; auto).
        destruct (fst acc) as [b0|] eqn:Hb0.
        + destruct (_ <? _).
          * split; [|split].
            -- intros b Hb. injection Hb as <-. exact Hc.
            -- intros b Hb. injection Hb as <-. auto.
            -- split; [discriminate|intros [H1 H2]; congruence].
          * split; [|split].
            -- intros b Hb. injection Hb as <-. apply Hacc. reflexivity.
            -- intros b Hb. auto.
            -- split; [discriminate|intros [H1 H2]; congruence].
        + split; [|split].
          * intros b Hb. injection Hb as <-. exact Hc.
          * intros b Hb. injection Hb as <-. auto.
          * split; [discriminate|intros [H1 H2]; congruence].
      - assert (Hc : matchesb c = false) by (unfold matchesb; rewrite Hm; auto).
        split; [|split].
        + exact Hacc.
        + intros b Hb. auto.
        + split; [intros H; auto|intros [H _]; exact H]. }
    destruct Hstep as [S1 [S2 S3]].
    destruct (IH (select_step acc c) S1) as [I1 I2]. split.
    + intros b Hb. destruct (I1 b Hb) as [[H|H] Hm]; split; auto.
      * destruct (S2 b H) as [H'| ->]; [left; exact H'|right; left; reflexivity].
      * right. right. exact H.
    + rewrite I2, S3. split.
      * intros [[H1 H2] H3]. split; [exact H1|].
        intros c' [<-|Hin]; auto.
      * intros [H1 H2]. repeat split; auto.
        -- apply H2. left. reflexivity.
        -- intros c' Hin. apply H2. right. exact Hin.
Qed.

(** X4: on every list of clusters, the cluster that the selector returns is
    one of the list and its stripped text matches the coordinate grammar;
    the selector returns none exactly when no cluster matches; and the
    details hold one entry for each cluster, in order, with its text, its
    stripped text and whether it matches. *)
Theorem X4_selector_sound :
  forall (cs : list cluster),
    (forall b, fst (find_best_coordinate_cluster cs) = Some b ->
               In b cs /\ matches_grammar b)
    /\ (fst (find_best_coordinate_cluster cs) = None
        <-> forall c, In c cs -> ~ matches_grammar c)
    /\ map detail_word (snd (find_best_coordinate_cluster cs)) = map word cs
    /\ map detail_cleaned (snd (find_best_coordinate_cluster cs))
       = map stripped_text cs
    /\ map detail_matched (snd (find_best_coordinate_cluster cs))
       = map matchesb cs.
Proof.
  intros cs. unfold find_best_coordinate_cluster.
  destruct (find_best_member cs (None, [])) as [H1 H2];
    [intros b Hb; discriminate|].
  destruct (find_best_details cs (None, [])) as [D1 [D2 D3]].
  cbn [snd map app] in D1, D2, D3. cbn [fst] in H1, H2.
  split; [|split; [|auto]].
  - intros b Hb. destruct (H1 b Hb) as [[H|H] Hm]; [discriminate|].
    split; [exact H|apply matchesb_iff; exact Hm].
  - rewrite H2. split.
    + intros [_ H] c Hin Hm. apply matchesb_iff in Hm.
      rewrite (H c Hin) in Hm. discriminate.
    + intros H. split; [reflexivity|]. intros c Hin.
      destruct (matchesb c) eqn:Hm; [|reflexivity].
      exfalso. apply (H c Hin). apply matchesb_iff. exact Hm.
Qed.

Lemma X4_witness :
  In cluster_with_tabs [cluster_with_tabs; cluster_longer]
  /\ matches_grammar cluster_with_tabs.
Proof.
  apply (proj1 (X4_selector_sound [cluster_with_tabs; cluster_longer])).
  reflexivity.
Defined.

Lemma alphabet_tab_free (w : string) :
  PyStr.forallb in_alphabet w = true -> tab_free w.
Proof.
  unfold tab_free. induction w as [|ch w IH]; cbn [PyStr.forallb];
    [reflexivity|].
  intros H. apply andb_true_iff in H. destruct H as [Hc Hw].
  rewrite (IH Hw), andb_true_r.
  destruct (Ascii.eqb_spec "009"%char ch) as [<-|]; [discriminate|reflexivity].
Qed.

(** X5: in the pipeline, where the selector receives the clusters of the
    clusterer, it returns the first cluster, among those that match the
    grammar, whose text is longest, and none when none matches. *)
Theorem X5_pipeline_selects_first_longest :
  forall (raw : list detection),
    selects_longest (cluster_detections_to_rich_clusters raw)
      (fst (find_best_coordinate_cluster
              (cluster_detections_to_rich_clusters raw))).
Proof.
  intros raw. apply find_best_tab_free.
  eapply Forall_impl; [|apply clusterer_well_spelled].
  intros c [_ Hsp]. apply alphabet_tab_free.
  eapply spells_alphabet. exact Hsp.
Qed.

(** ** Further properties of the parser *)

Lemma digit_value_range (ch : ascii) :
  PyStr.is_digit ch = true ->
  (0 <= Z.of_nat (nat_of_ascii ch) - 48 <= 9)%Z.
Proof.
  unfold PyStr.is_digit. intros H. apply andb_true_iff in H.
  destruct H as [H1 H2]. apply Nat.leb_le in H1, H2. lia.
Qed.

Lemma digits_value_bound (ds : string) :
  forall acc : Z,
    all_digits ds -> (0 <= acc)%Z ->
    exists v,
      PyStr.digits_value acc ds = Some v
      /\ (acc * 10 ^ Z.of_nat (String.length ds) <= v
          < (acc + 1) * 10 ^ Z.of_nat (String.length ds))%Z.
Proof.
  unfold all_digits. induction ds as [|ch ds IH]; intros acc Hall Hacc.
  - exists acc. cbn. split; [reflexivity|lia].
  - cbn [PyStr.forallb] in Hall. apply andb_true_iff in Hall.
    destruct Hall as [Hch Hds]. cbn [PyStr.digits_value]. rewrite Hch.
    pose proof (digit_value_range ch Hch) as Hd.
    destruct (IH (10 * acc + (Z.of_nat (nat_of_ascii ch) - 48))%Z Hds
                ltac:(lia)) as [v [Hv Hb]].
    exists v. split; [exact Hv|].
    cbn [String.length]. rewrite Nat2Z.inj_succ, Z.pow_succ_r by lia.
    assert (Hp : (0 < 10 ^ Z.of_nat (String.length ds))%Z)
      by (apply Z.pow_pos_nonneg; lia).
    nia.
Qed.

Lemma int_digits (ch : ascii) (ds : string) :
  PyStr.is_digit ch = true ->
  PyStr.int (String ch ds) = PyStr.digits_value 0 (String ch ds).
Proof.
  destruct ch as [[] [] [] [] [] [] [] []]; intros H;
    try discriminate H; reflexivity.
Qed.

(** The integer of a component exists and has at most seven digits. *)
Lemma int_component (g ds : string) :
  is_component g ds ->
  exists v, PyStr.int g = Some v /\ (Z.abs v <= max_coord_value)%Z.
Proof.
  intros [Hg [Hlen Hds]].
  destruct (all_digits_head ds Hds ltac:(lia)) as [ch [ds' [Hch Hd]]].
  destruct (digits_value_bound ds 0 Hds ltac:(lia)) as [v [Hv Hb]].
  assert (Hpow : (10 ^ Z.of_nat (String.length ds) <= 10 ^ 7)%Z)
    by (apply Z.pow_le_mono_r; lia).
  change (10 ^ 7)%Z with 10000000%Z in Hpow. unfold max_coord_value.
  destruct Hg as [->| ->].
  - exists v. subst ds. rewrite (int_digits ch ds' Hd). split; [exact Hv|lia].
  - exists (- v)%Z. subst ds. cbn [PyStr.int]. rewrite Hv.
    split; [reflexivity|lia].
Qed.

(** The numeric extraction finds a coordinate in range or no match. *)
Lemma extract_coordinates_cases (s : string) :
  extract_coordinates s = format_mismatch
  \/ exists c, extract_coordinates s = extracted c /\ in_range c.
Proof.
  unfold extract_coordinates. rewrite re_match_parse_pattern.
  destruct (three_components (PyStr.strip s)) as [[e caps]|] eqn:Hthree;
    [|left; reflexivity].
  destruct (three_components_sound _ _ _ Hthree) as [g1 [g2 [g3 [-> Hg]]]].
  destruct Hg as [ds1 [ds2 [ds3 [rest [_ [Hc1 [Hc2 [Hc3 _]]]]]]]].
  destruct (int_component _ _ Hc1) as [x [Hx Hbx]].
  destruct (int_component _ _ Hc2) as [y [Hy Hby]].
  destruct (int_component _ _ Hc3) as [z [Hz Hbz]].
  unfold group. cbn [Nat.sub nth]. rewrite Hx, Hy, Hz.
  apply Z.leb_le in Hbx, Hby, Hbz. rewrite Hbx, Hby, Hbz.
  right. exists (x, y, z). split; [reflexivity|].
  apply Z.leb_le in Hbx, Hby, Hbz. cbn. auto.
Qed.

(** X6: on every string the numeric extraction either finds no match or
    finds a coordinate whose three components have a magnitude of at most
    9,999,999: after a match of the pattern the conversion to integers never
    fails and the test of the range never rejects. *)
Theorem X6_range_test_never_rejects :
  forall (s : string),
    (extract_coordinates s = format_mismatch
     \/ exists c, extract_coordinates s = extracted c /\ in_range c)
    /\ (forall c, extract_coordinates s <> out_of_range c)
    /\ extract_coordinates s <> conversion_error.
Proof.
  intros s. pose proof (extract_coordinates_cases s) as H.
  split; [exact H|].
  destruct H as [H|[c [H _]]]; rewrite H; split; try discriminate;
    intros c'; discriminate.
Qed.

(** A coordinate that the parser returns is in range. *)
Lemma parse_in_range (dets : list detection) (w : OCRWorker) (c : coord) :
  result_of (_parse_and_validate_from_detections dets w) = (true, Some c) ->
  in_range c.
Proof.
  destruct dets as [|d dets]; [discriminate|].
  rewrite parse_result.
  destruct (extract_coordinates_cases (cleaned_string (d :: dets)))
    as [H|[c' [H Hr]]]; rewrite H; [discriminate|].
  intros Heq. injection Heq as <-. exact Hr.
Qed.

(** The candidate of a frame is in range. *)
Lemma candidate_in_range (raw : list detection) (c : coord) :
  candidate raw = Some c -> in_range c.
Proof.
  unfold candidate.
  destruct (fst (find_best_coordinate_cluster _)) as [best|]; [|discriminate].
  destruct (result_of _) as [[|] [c'|]] eqn:Hr; try discriminate.
  intros H. injection H as <-. eapply parse_in_range. exact Hr.
Qed.

(** X8: on a string without blanks, which is all that detections spell, the
    timestamp removal returns the string itself when it holds no year token
    [20[23]\d-], and otherwise what precedes its first year token. *)
Theorem X8_timestamp_removal_without_blanks :
  forall (s : string),
    no_space s ->
    ((forall i, ~ year_token_at s i) ->
     _remove_timestamp_from_coord_string s = s)
    /\ (forall i,
           year_token_at s i -> (forall j, j < i -> ~ year_token_at s j) ->
           _remove_timestamp_from_coord_string s = PyStr.take i s).
Proof.
  intros s Hs. rewrite (remove_timestamp_no_space s Hs). split.
  - intros Hno. destruct (first_year s) as [i|] eqn:Hi; [|reflexivity].
    exfalso. exact (Hno i (proj1 (first_year_some s i Hi))).
  - intros i Hi Hfirst. destruct (first_year s) as [i'|] eqn:Hi'.
    + destruct (first_year_some s i' Hi') as [H1 H2].
      destruct (Nat.lt_trichotomy i i') as [Hlt|[->|Hgt]].
      * exfalso. exact (H2 i Hlt Hi).
      * reflexivity.
      * exfalso. exact (Hfirst i' Hgt H1).
    + exfalso. exact (first_year_none s Hi' i Hi).
Qed.

Lemma X8_witness :
  _remove_timestamp_from_coord_string "-1234,5678,202025-01-0110:00:00"
  = PyStr.take 13 "-1234,5678,202025-01-0110:00:00".
Proof.
  apply (proj2 (X8_timestamp_removal_without_blanks
                  "-1234,5678,202025-01-0110:00:00" eq_refl) 13).
  - exists "2"%char, "5"%char. split; [reflexivity|]. split; [left|]; reflexivity.
  - intros j Hj [c3 [c4 [H _]]].
    do 13 (destruct j as [|j]; [discriminate H|]). lia.
Defined.

(** ** Further properties of the tracking state machine *)

(** One tick, in full: its result, the worker it leaves and its signals. *)
Ltac finish_full Hst :=
  cbn; repeat (progress (rewrite ?Hst; cbn));
  unfold set_consecutive_failures, set_recognition_state,
    set_last_valid_coord, set_last_valid_detections;
  cbn; rewrite ?Hst; cbn; rewrite ?app_nil_r, <- ?app_assoc; reflexivity.

Lemma tick_full (w : OCRWorker) (raw : list detection) :
  exists (evs : list signal) (debug_info : ocr_output),
    (forall s, In s evs -> exists o, s = ocr_output_updated o)
    /\ _apply_tracking_algorithm raw w
       = match accepted w raw with
         | Some c =>
             ((true, Some c),
              worker_after_accept w
                (fst (find_best_coordinate_cluster
                        (cluster_detections_to_rich_clusters raw))) c,
              evs ++ signals_after_accept w c)
         | None =>
             ((false, None), worker_after_failure w,
              evs ++ signals_after_failure w debug_info)
         end.
Proof.
  unfold accepted, candidate, _apply_tracking_algorithm,
    worker_after_accept, worker_after_failure, signals_after_accept,
    signals_after_failure, goes_lost.
  destruct (find_best_coordinate_cluster _) as [best details]. cbn [fst].
  destruct best as [best|].
  - destruct (parse_effects (detections best) w) as [evs [Hp Hevs]].
    pose proof (parse_shape (detections best) (initial_worker 0 0 0)) as Hsh.
    set (pv := result_of _) in *.
    exists evs.
    exists (out_debug_info (recognition_state w) (List.length raw)
              (map word (cluster_detections_to_rich_clusters raw))
              (Some (cleaned_word_of (word best)))).
    split; [exact Hevs|].
    destruct Hsh as [[c' Hpv]|Hpv]; rewrite Hpv in *.
    + destruct (recognition_state w) eqn:Hst.
      * pose proof (is_teleport_jump_state w c') as [Hjw Hjs].
        destruct (_is_teleport_jump c' w) as [[jump wj] ej] eqn:Hj.
        unfold worker_of, signals_of, result_of in Hjw, Hjs |- *.
        cbn [fst snd] in Hjw, Hjs |- *. subst wj ej.
        destruct c' as [[x y] z].
        tick_steps. rewrite Hst. tick_steps. rewrite Hp. tick_steps.
        rewrite Hj. tick_steps.
        destruct jump.
        -- destruct (lost_threshold_frames w <=? consecutive_failures w + 1)%Z
             eqn:Hle; cbn; repeat (progress (rewrite ?Hst, ?Hle; cbn));
             finish_full Hst.
        -- finish_full Hst.
      * destruct c' as [[x y] z].
        tick_steps. rewrite Hst. tick_steps. rewrite Hp. tick_steps.
        finish_full Hst.
      * destruct c' as [[x y] z].
        tick_steps. rewrite Hst. tick_steps. rewrite Hp. tick_steps.
        finish_full Hst.
    + destruct (recognition_state w) eqn:Hst;
        tick_steps; rewrite Hst; tick_steps; rewrite Hp; tick_steps.
      * destruct (lost_threshold_frames w <=? consecutive_failures w + 1)%Z
          eqn:Hle; cbn; repeat (progress (rewrite ?Hst, ?Hle; cbn));
          finish_full Hst.
      * finish_full Hst.
      * finish_full Hst.
  - exists [].
    exists (out_debug_info (recognition_state w) (List.length raw)
              (map word (cluster_detections_to_rich_clusters raw)) None).
    split; [intros s []|].
    destruct (recognition_state w) eqn:Hst;
      tick_steps; rewrite Hst; tick_steps.
    + destruct (lost_threshold_frames w <=? consecutive_failures w + 1)%Z
        eqn:Hle; cbn; repeat (progress (rewrite ?Hst, ?Hle; cbn));
        finish_full Hst.
    + finish_full Hst.
    + finish_full Hst.
Qed.

Lemma run_ticks_cons (raw : list detection) (frames : list (list detection))
    (w : OCRWorker) :
  result_of (run_ticks (raw :: frames) w)
  = result_of (_apply_tracking_algorithm raw w)
    :: result_of (run_ticks frames (worker_of (_apply_tracking_algorithm raw w)))
  /\ worker_of (run_ticks (raw :: frames) w)
     = worker_of (run_ticks frames (worker_of (_apply_tracking_algorithm raw w)))
  /\ signals_of (run_ticks (raw :: frames) w)
     = signals_of (_apply_tracking_algorithm raw w)
       ++ signals_of (run_ticks frames
                        (worker_of (_apply_tracking_algorithm raw w))).
Proof.
  cbn [run_ticks]. unfold bind, ret, result_of, worker_of, signals_of.
  destruct (_apply_tracking_algorithm raw w) as [[r w1] e1]. cbn [fst snd].
  destruct (run_ticks frames w1) as [[rs w2] e2]. cbn [fst snd].
  rewrite app_nil_r. auto.
Qed.

(** What one tick gives, read off [tick_full]. *)
Lemma tick_cases (w : OCRWorker) (raw : list detection) :
  (exists c best evs,
      accepted w raw = Some c
      /\ fst (find_best_coordinate_cluster
                (cluster_detections_to_rich_clusters raw)) = Some best
      /\ in_range c
      /\ (forall s, In s evs -> exists o, s = ocr_output_updated o)
      /\ _apply_tracking_algorithm raw w
         = ((true, Some c), worker_after_accept w (Some best) c,
            evs ++ signals_after_accept w c))
  \/ (exists evs debug_info,
         accepted w raw = None
         /\ (forall s, In s evs -> exists o, s = ocr_output_updated o)
         /\ _apply_tracking_algorithm raw w
            = ((false, None), worker_after_failure w,
               evs ++ signals_after_failure w debug_info)).
Proof.
  destruct (tick_full w raw) as [evs [dbg [Hevs Heq]]].
  destruct (accepted w raw) as [c|] eqn:Hacc.
  - left. unfold accepted in Hacc.
    destruct (candidate raw) as [c'|] eqn:Hc; [|discriminate].
    assert (Hcc : c = c').
    { destruct (recognition_state w); [|congruence|congruence].
      destruct (result_of (_is_teleport_jump c' w)); congruence. }
    subst c'. pose proof (candidate_in_range raw c Hc) as Hr.
    unfold candidate in Hc.
    destruct (fst (find_best_coordinate_cluster
                     (cluster_detections_to_rich_clusters raw)))
      as [best|] eqn:Hb; [|discriminate].
    exists c, best, evs. auto.
  - right. exists evs, dbg. auto.
Qed.

Lemma tick_keeps_invariant (w : OCRWorker) (raw : list detection) :
  tracking_invariant w ->
  tracking_invariant (worker_of (_apply_tracking_algorithm raw w)).
Proof.
  intros [I1 [I2 [I3 [I4 [I5 I6]]]]].
  destruct (tick_cases w raw)
    as [[c [best [evs [Hacc [Hb [Hr [_ Heq]]]]]]]|[evs [dbg [Hacc [_ Heq]]]]];
    rewrite Heq; unfold worker_of; cbn [fst snd];
    unfold tracking_invariant, worker_after_accept, worker_after_failure;
    cbn [recognition_state last_valid_coord last_valid_detections
         consecutive_failures lost_threshold_frames option_map].
  - split; [lia|]. split; [split; discriminate|].
    split; [split; discriminate|].
    split; [intros c' H; injection H as <-; exact Hr|].
    split; [discriminate|]. intros _. left. reflexivity.
  - unfold goes_lost.
    split; [lia|].
    destruct (recognition_state w) eqn:Hst; cbn [RecognitionState_eqb andb].
    + destruct (Z.leb_spec (lost_threshold_frames w)
                  (consecutive_failures w + 1)) as [Hle|Hgt].
      * split.
        { split; [discriminate|]. intros H. apply I2 in H. discriminate. }
        split; [exact I3|]. split; [exact I4|].
        split; [intros _; exact Hle|discriminate].
      * split; [exact I2|]. split; [exact I3|]. split; [exact I4|].
        split; [discriminate|]. intros _. right. exact Hgt.
    + split; [exact I2|]. split; [exact I3|]. split; [exact I4|].
      split; [intros _; specialize (I5 eq_refl); lia|discriminate].
    + split; [exact I2|]. split; [exact I3|]. split; [exact I4|].
      split; discriminate.
Qed.

Lemma tick_keeps_thresholds (w : OCRWorker) (raw : list detection) :
  let w' := worker_of (_apply_tracking_algorithm raw w) in
  max_speed_threshold w' = max_speed_threshold w
  /\ lost_threshold_frames w' = lost_threshold_frames w
  /\ z_axis_threshold w' = z_axis_threshold w.
Proof.
  destruct (tick_cases w raw)
    as [[c [best [evs [_ [_ [_ [_ Heq]]]]]]]|[evs [dbg [_ [_ Heq]]]]];
    rewrite Heq; cbn; auto.
Qed.

(** X10: after every sequence of ticks from the initial state, the failure
    counter is not negative, the state is [SEARCHING] exactly when no
    coordinate has been accepted yet, the template is kept exactly when a
    coordinate is, the last accepted coordinate is in range, a [LOST] worker
    has at least [lost_threshold_frames] failures, and a [LOCKED] one has
    none or fewer than that; the three thresholds are never changed. *)
Theorem X10_tracking_invariant :
  forall (frames : list (list detection)) (max_speed lost_frames z_axis : Z),
    let w := worker_of (run_ticks frames
                          (initial_worker max_speed lost_frames z_axis)) in
    tracking_invariant w
    /\ max_speed_threshold w = max_speed
    /\ lost_threshold_frames w = lost_frames
    /\ z_axis_threshold w = z_axis.
Proof.
  intros frames max_speed lost_frames z_axis.
  assert (Hgen : forall fs w0,
             tracking_invariant w0 ->
             tracking_invariant (worker_of (run_ticks fs w0))
             /\ max_speed_threshold (worker_of (run_ticks fs w0))
                = max_speed_threshold w0
             /\ lost_threshold_frames (worker_of (run_ticks fs w0))
                = lost_threshold_frames w0
             /\ z_axis_threshold (worker_of (run_ticks fs w0))
                = z_axis_threshold w0).
  { induction fs as [|raw fs IH]; intros w0 Hinv.
    - cbn. auto.
    - destruct (run_ticks_cons raw fs w0) as [_ [Hw _]]. rewrite Hw.
      destruct (IH _ (tick_keeps_invariant w0 raw Hinv)) as [H1 [H2 [H3 H4]]].
      destruct (tick_keeps_thresholds w0 raw) as [T1 [T2 T3]].
      split; [exact H1|]. split; [congruence|]. split; congruence. }
  apply (Hgen frames (initial_worker max_speed lost_frames z_axis)).
  unfold tracking_invariant, initial_worker. cbn.
  split; [lia|]. split; [split; reflexivity|]. split; [split; reflexivity|].
  split; [discriminate|]. split; discriminate.
Qed.

Lemma tick_state (w : OCRWorker) (raw : list detection) :
  let r := _apply_tracking_algorithm raw w in
  (forall c, result_of r = (true, Some c) ->
             recognition_state (worker_of r) = LOCKED)
  /\ (result_of r = (false, None) ->
      recognition_state (worker_of r)
      = if goes_lost w then LOST else recognition_state w)
  /\ ((exists c, result_of r = (true, Some c)) \/ result_of r = (false, None)).
Proof.
  destruct (tick_cases w raw)
    as [[c [best [evs [_ [_ [_ [_ Heq]]]]]]]|[evs [dbg [_ [_ Heq]]]]];
    rewrite Heq; unfold result_of, worker_of; cbn [fst snd].
  - split; [intros c' _; reflexivity|]. split; [discriminate|].
    left. exists c. reflexivity.
  - split; [intros c' H; discriminate|]. split; [intros _; reflexivity|].
    right. reflexivity.
Qed.

(** X11: the worker stays [SEARCHING] exactly as long as no tick succeeds,
    and once it has left [SEARCHING] no sequence of ticks brings it back. *)
Theorem X11_searching_until_first_success :
  forall (frames : list (list detection)) (w : OCRWorker),
    (recognition_state w = SEARCHING ->
     (recognition_state (worker_of (run_ticks frames w)) = SEARCHING
      <-> accepted_of (result_of (run_ticks frames w)) = []))
    /\ (recognition_state w <> SEARCHING ->
        recognition_state (worker_of (run_ticks frames w)) <> SEARCHING).
Proof.
  induction frames as [|raw frames IH]; intros w.
  - cbn. split; [intros H; split; auto|auto].
  - destruct (run_ticks_cons raw frames w) as [Hr [Hw _]]. rewrite Hr, Hw.
    destruct (tick_state w raw) as [Hok [Hko Hcases]].
    destruct (IH (worker_of (_apply_tracking_algorithm raw w))) as [IH1 IH2].
    split.
    + intros Hst. destruct Hcases as [[c Hc]|Hf].
      * rewrite Hc. cbn [accepted_of]. split; [|discriminate].
        intros H. exfalso. apply IH2 in H; [exact H|].
        rewrite (Hok c Hc). discriminate.
      * rewrite Hf. cbn [accepted_of]. apply IH1. rewrite (Hko Hf).
        unfold goes_lost. rewrite Hst. reflexivity.
    + intros Hst. apply IH2. destruct Hcases as [[c Hc]|Hf].
      * rewrite (Hok c Hc). discriminate.
      * rewrite (Hko Hf). destruct (goes_lost w); [discriminate|exact Hst].
Qed.

Lemma X11_witness :
  recognition_state
    (worker_of (run_ticks [[]; glyphs 0 "12,5"] (initial_worker 1000 5 50)))
  = SEARCHING.
Proof.
  apply (proj1 (X11_searching_until_first_success [[]; glyphs 0 "12,5"]
                  (initial_worker 1000 5 50)) eq_refl).
  vm_compute. reflexivity.
Defined.

Lemma detected_of_app (l1 l2 : list signal) :
  detected_of (l1 ++ l2) = detected_of l1 ++ detected_of l2.
Proof.
  induction l1 as [|s l1 IH]; [reflexivity|].
  destruct s; cbn; rewrite IH; reflexivity.
Qed.

Lemma states_of_app (l1 l2 : list signal) :
  states_of (l1 ++ l2) = states_of l1 ++ states_of l2.
Proof.
  induction l1 as [|s l1 IH]; [reflexivity|].
  destruct s; cbn; rewrite IH; reflexivity.
Qed.

Lemma outputs_only (evs : list signal) :
  (forall s, In s evs -> exists o, s = ocr_output_updated o) ->
  detected_of evs = [] /\ states_of evs = [].
Proof.
  induction evs as [|s evs IH]; intros H; [auto|].
  destruct (H s (or_introl eq_refl)) as [o ->]. cbn.
  apply IH. intros s' Hs'. apply H. right. exact Hs'.
Qed.

(** X12: over every sequence of ticks, the coordinates sent on
    [coordinates_detected] are the coordinates of the ticks that succeeded,
    in order, each one once: a failed tick sends none. *)
Theorem X12_one_signal_for_each_accepted_coordinate :
  forall (frames : list (list detection)) (w : OCRWorker),
    detected_of (signals_of (run_ticks frames w))
    = accepted_of (result_of (run_ticks frames w)).
Proof.
  induction frames as [|raw frames IH]; intros w; [reflexivity|].
  destruct (run_ticks_cons raw frames w) as [Hr [_ Hs]]. rewrite Hr, Hs.
  rewrite detected_of_app, IH.
  destruct (tick_cases w raw)
    as [[c [best [evs [_ [_ [_ [Hevs Heq]]]]]]]|[evs [dbg [_ [Hevs Heq]]]]];
    rewrite Heq; unfold result_of, worker_of, signals_of; cbn [fst snd];
    rewrite detected_of_app, (proj1 (outputs_only evs Hevs)).
  - destruct c as [[x y] z]. unfold signals_after_accept.
    rewrite detected_of_app.
    destruct (RecognitionState_eqb (recognition_state w) LOCKED); reflexivity.
  - unfold signals_after_failure. rewrite detected_of_app.
    destruct (goes_lost w); reflexivity.
Qed.

(** X13: a tick sends [recognition_state_changed] exactly when it changes
    the state, once, with the state it leaves: [LOCKED] after a success from
    another state, [LOST] when a [LOCKED] worker reaches the threshold, and
    nothing otherwise. *)
Theorem X13_state_signal_iff_state_changes :
  forall (w : OCRWorker) (raw : list detection),
    let r := _apply_tracking_algorithm raw w in
    states_of (signals_of r)
    = if RecognitionState_eqb (recognition_state w)
           (recognition_state (worker_of r))
      then [] else [recognition_state (worker_of r)].
Proof.
  intros w raw.
  destruct (tick_cases w raw)
    as [[c [best [evs [_ [_ [_ [Hevs Heq]]]]]]]|[evs [dbg [_ [Hevs Heq]]]]];
    cbv zeta; rewrite Heq; unfold result_of, worker_of, signals_of;
    cbn [fst snd]; rewrite states_of_app, (proj2 (outputs_only evs Hevs)).
  - destruct c as [[x y] z]. unfold signals_after_accept, worker_after_accept.
    cbn [recognition_state]. rewrite states_of_app.
    destruct (recognition_state w); reflexivity.
  - unfold signals_after_failure, worker_after_failure.
    cbn [recognition_state]. rewrite states_of_app.
    unfold goes_lost.
    destruct (recognition_state w); cbn [RecognitionState_eqb andb];
      try reflexivity.
    destruct (lost_threshold_frames w <=? consecutive_failures w + 1)%Z;
      reflexivity.
Qed.

(** The teleport-jump test reads the last accepted coordinate and the two
    thresholds only. *)
Lemma is_teleport_jump_congr (w1 w2 : OCRWorker) (c : coord) :
  last_valid_coord w1 = last_valid_coord w2 ->
  z_axis_threshold w1 = z_axis_threshold w2 ->
  max_speed_threshold w1 = max_speed_threshold w2 ->
  result_of (_is_teleport_jump c w1) = result_of (_is_teleport_jump c w2).
Proof.
  intros H1 H2 H3. destruct c as [[x y] z].
  unfold _is_teleport_jump, bind, get, ret, result_of. cbv beta iota zeta.
  rewrite H1, H2, H3.
  destruct (last_valid_coord w2) as [[[x0 y0] z0]|]; [|reflexivity].
  destruct (_ <? _)%Z; [reflexivity|].
  destruct (sqrt_gt _ _); reflexivity.
Qed.

(** X9: a candidate equal to the last accepted coordinate is never a
    teleport jump when both thresholds are at least 0, so a tick of a
    [LOCKED] worker accepts it; with a negative threshold every candidate is
    a jump from every accepted coordinate. *)
Theorem X9_same_coordinate_is_no_jump :
  forall (w : OCRWorker) (c : coord),
    last_valid_coord w = Some c ->
    ((0 <= z_axis_threshold w)%Z -> (0 <= max_speed_threshold w)%Z ->
     result_of (_is_teleport_jump c w) = false
     /\ forall raw, candidate raw = Some c ->
                    result_of (_apply_tracking_algorithm raw w)
                    = (true, Some c))
    /\ ((z_axis_threshold w < 0)%Z \/ (max_speed_threshold w < 0)%Z ->
        forall c', result_of (_is_teleport_jump c' w) = true).
Proof.
  intros w [[x y] z] Hlast. split.
  - intros Hz Hm.
    assert (Hj : result_of (_is_teleport_jump (x, y, z) w) = false).
    { unfold _is_teleport_jump, bind, get, ret, result_of.
      cbv beta iota zeta. rewrite Hlast. rewrite !Z.sub_diag. cbn [Z.abs].
      destruct (Z.ltb_spec (z_axis_threshold w) 0); [lia|].
      unfold sqrt_gt. cbn [Z.mul Z.add].
      destruct (Z.ltb_spec (max_speed_threshold w) 0); [lia|].
      destruct (Z.ltb_spec (max_speed_threshold w * max_speed_threshold w) 0);
        [nia|reflexivity]. }
    split; [exact Hj|]. intros raw Hc. rewrite tick_result.
    unfold accepted. rewrite Hc.
    destruct (recognition_state w); rewrite ?Hj; reflexivity.
  - intros Hneg [[x' y'] z'].
    unfold _is_teleport_jump, bind, get, ret, result_of.
    cbv beta iota zeta. rewrite Hlast.
    destruct (Z.ltb_spec (z_axis_threshold w) (Z.abs (z' - z)));
      [reflexivity|].
    destruct Hneg as [Hneg|Hneg]; [lia|].
    unfold sqrt_gt.
    destruct (Z.ltb_spec (max_speed_threshold w) 0); [reflexivity|lia].
Qed.

Lemma X9_witness :
  result_of (_is_teleport_jump (0, 0, 0)%Z (worker_at_origin LOCKED)) = false.
Proof.
  apply (proj1 (X9_same_coordinate_is_no_jump (worker_at_origin LOCKED)
                  (0, 0, 0)%Z eq_refl));
    cbn; lia.
Defined.

(** A [LOCKED] worker after [k] failures in a row. *)
Lemma run_of_jumps (raw : list detection) (c : coord) (k : nat) :
  forall w : OCRWorker,
    recognition_state w = LOCKED ->
    candidate raw = Some c ->
    result_of (_is_teleport_jump c w) = true ->
    (consecutive_failures w + Z.of_nat k < lost_threshold_frames w)%Z ->
    result_of (run_ticks (repeat raw k) w) = repeat (false, None) k
    /\ worker_of (run_ticks (repeat raw k) w)
       = set_consecutive_failures (consecutive_failures w + Z.of_nat k) w.
Proof.
  induction k as [|k IH]; intros w Hst Hc Hj Hlt.
  - cbn. rewrite Z.add_0_r. split; [reflexivity|]. destruct w; reflexivity.
  - cbn [repeat]. destruct (run_ticks_cons raw (repeat raw k) w) as [Hr [Hw _]].
    rewrite Hr, Hw.
    assert (Hacc : accepted w raw = None).
    { unfold accepted. rewrite Hc, Hst, Hj. reflexivity. }
    destruct (tick_cases w raw)
      as [[c' [best [evs [Hacc' _]]]]|[evs [dbg [_ [_ Heq]]]]];
      [congruence|].
    rewrite Heq. unfold result_of, worker_of. cbn [fst snd].
    assert (Hw1 : worker_after_failure w
                  = set_consecutive_failures (consecutive_failures w + 1) w).
    { unfold worker_after_failure, goes_lost, set_consecutive_failures.
      rewrite Hst. cbn [RecognitionState_eqb andb].
      destruct (Z.leb_spec (lost_threshold_frames w)
                  (consecutive_failures w + 1)); [lia|reflexivity]. }
    rewrite Hw1.
    destruct (IH (set_consecutive_failures (consecutive_failures w + 1) w))
      as [I1 I2].
    + exact Hst.
    + exact Hc.
    + rewrite <- Hj. apply is_teleport_jump_congr; reflexivity.
    + cbn [consecutive_failures set_consecutive_failures lost_threshold_frames].
      lia.
    + unfold result_of, worker_of in I1, I2. rewrite I1, I2.
      split; [reflexivity|].
      unfold set_consecutive_failures.
      cbn [consecutive_failures recognition_state last_valid_coord
           last_valid_detections max_speed_threshold lost_threshold_frames
           z_axis_threshold].
      f_equal. lia.
Qed.

(** X14: a real teleport is taken up again after [lost_threshold_frames]
    frames.  From a [LOCKED] worker with no failure and a threshold
    [n >= 1], a frame whose candidate is a teleport jump, seen again and
    again, is rejected [n] times; the [n]-th rejection leaves the worker
    [LOST], and the next tick accepts the candidate and leaves the worker
    [LOCKED] on it. *)
Theorem X14_teleport_is_reacquired :
  forall (w : OCRWorker) (raw : list detection) (c : coord) (n : nat),
    recognition_state w = LOCKED ->
    consecutive_failures w = 0%Z ->
    lost_threshold_frames w = Z.of_nat (S n) ->
    candidate raw = Some c ->
    result_of (_is_teleport_jump c w) = true ->
    result_of (run_ticks (repeat raw (S n)) w) = repeat (false, None) (S n)
    /\ recognition_state (worker_of (run_ticks (repeat raw (S n)) w)) = LOST
    /\ result_of (run_ticks (repeat raw (S n) ++ [raw]) w)
       = repeat (false, None) (S n) ++ [(true, Some c)]
    /\ recognition_state (worker_of (run_ticks (repeat raw (S n) ++ [raw]) w))
       = LOCKED
    /\ last_valid_coord (worker_of (run_ticks (repeat raw (S n) ++ [raw]) w))
       = Some c.
Proof.
  intros w raw c n Hst Hcnt Hthr Hc Hj.
  destruct (run_of_jumps raw c n w Hst Hc Hj ltac:(lia)) as [R1 W1].
  set (wn := set_consecutive_failures (consecutive_failures w + Z.of_nat n) w)
    in *.
  (* the tick of index n: the threshold is reached *)
  assert (Hwn : accepted wn raw = None).
  { unfold accepted. rewrite Hc. cbn [wn recognition_state
      set_consecutive_failures]. rewrite Hst.
    rewrite (is_teleport_jump_congr wn w c eq_refl eq_refl eq_refl), Hj.
    reflexivity. }
  assert (Htick : result_of (_apply_tracking_algorithm raw wn) = (false, None)
                  /\ worker_of (_apply_tracking_algorithm raw wn)
                     = worker_after_failure wn).
  { destruct (tick_cases wn raw)
      as [[c' [best [evs [Hacc' _]]]]|[evs [dbg [_ [_ Heq]]]]];
      [congruence|]. rewrite Heq. auto. }
  destruct Htick as [T1 T2].
  assert (Hlost : recognition_state (worker_after_failure wn) = LOST).
  { unfold worker_after_failure, goes_lost.
    cbn [wn recognition_state set_consecutive_failures consecutive_failures
         lost_threshold_frames]. rewrite Hst. cbn [RecognitionState_eqb andb].
    destruct (Z.leb_spec (lost_threshold_frames w)
                (consecutive_failures w + Z.of_nat n + 1)); [reflexivity|lia]. }
  (* runs of ticks compose *)
  assert (Happ : forall fs1 fs2 v,
             result_of (run_ticks (fs1 ++ fs2) v)
             = result_of (run_ticks fs1 v)
               ++ result_of (run_ticks fs2 (worker_of (run_ticks fs1 v)))
             /\ worker_of (run_ticks (fs1 ++ fs2) v)
                = worker_of (run_ticks fs2 (worker_of (run_ticks fs1 v)))).
  { induction fs1 as [|f fs1 IH1]; intros fs2 v; [cbn; auto|].
    cbn [app].
    destruct (run_ticks_cons f (fs1 ++ fs2) v) as [A1 [A2 _]].
    destruct (run_ticks_cons f fs1 v) as [B1 [B2 _]].
    destruct (IH1 fs2 (worker_of (_apply_tracking_algorithm f v))) as [C1 C2].
    rewrite A1, A2, B1, B2, C1, C2. auto. }
  assert (Hsn : result_of (run_ticks (repeat raw (S n)) w)
                = repeat (false, None) (S n)
                /\ worker_of (run_ticks (repeat raw (S n)) w)
                   = worker_after_failure wn).
  { replace (repeat raw (S n)) with (repeat raw n ++ [raw])
      by (rewrite <- repeat_cons; reflexivity).
    destruct (Happ (repeat raw n) [raw] w) as [A1 A2].
    destruct (run_ticks_cons raw [] (worker_of (run_ticks (repeat raw n) w)))
      as [B1 [B2 _]].
    rewrite A1, A2, B1, B2, R1, W1, T1, T2.
    split; [|reflexivity].
    cbn [run_ticks repeat]. unfold ret, result_of. cbn [fst].
    rewrite (repeat_cons n (false, @None coord)). reflexivity. }
  destruct Hsn as [S1 S2].
  split; [exact S1|]. split; [rewrite S2; exact Hlost|].
  destruct (Happ (repeat raw (S n)) [raw] w) as [A1 A2].
  destruct (run_ticks_cons raw [] (worker_of (run_ticks (repeat raw (S n)) w)))
    as [B1 [B2 _]].
  rewrite A1, A2, B1, B2, S1, S2.
  assert (Hacc : accepted (worker_after_failure wn) raw = Some c).
  { unfold accepted. rewrite Hc, Hlost. reflexivity. }
  destruct (tick_cases (worker_after_failure wn) raw)
    as [[c' [best [evs [Hacc' [_ [_ [_ Heq]]]]]]]|[evs [dbg [Hacc' _]]]];
    [|congruence].
  assert (c' = c) by congruence. subst c'.
  rewrite Heq. unfold result_of, worker_of. cbn. auto.
Qed.

Lemma X14_witness :
  result_of (run_ticks (repeat (glyphs 0 "2000,0,0") 5
                          ++ [glyphs 0 "2000,0,0"])
               (worker_at_origin LOCKED))
  = repeat (false, None) 5 ++ [(true, Some (2000, 0, 0)%Z)].
Proof.
  assert (Hc : candidate (glyphs 0 "2000,0,0") = Some (2000, 0, 0)%Z)
    by (vm_compute; reflexivity).
  exact (proj1 (proj2 (proj2
           (X14_teleport_is_reacquired (worker_at_origin LOCKED)
              (glyphs 0 "2000,0,0") (2000, 0, 0)%Z 4
              eq_refl eq_refl eq_refl Hc eq_refl)))).
Defined.

(** ** The order of the detections *)

Lemma sorted_perm_eq (l1 : list detection) :
  forall l2,
    sorted_by_x1 l1 -> sorted_by_x1 l2 -> Permutation l1 l2 ->
    distinct_x1 l1 -> l1 = l2.
Proof.
  unfold sorted_by_x1.
  induction l1 as [|a l1 IH]; intros l2 H1 H2 Hp Hd.
  - apply Permutation_nil in Hp. subst. reflexivity.
  - destruct l2 as [|b l2].
    { apply Permutation_sym, Permutation_nil in Hp. discriminate. }
    apply StronglySorted_inv in H1. destruct H1 as [H1 F1].
    apply StronglySorted_inv in H2. destruct H2 as [H2 F2].
    assert (Hab : a = b).
    { assert (Ha : In a (b :: l2))
        by (eapply Permutation_in; [exact Hp|left; reflexivity]).
      assert (Hb : In b (a :: l1))
        by (eapply Permutation_in; [symmetry; exact Hp|left; reflexivity]).
      destruct Ha as [Ha|Ha]; [auto|].
      destruct Hb as [Hb|Hb]; [auto|].
      apply Hd; [left; reflexivity|right; exact Hb|].
      apply Qle_antisym.
      - eapply Forall_forall in F1; [exact F1|exact Hb].
      - eapply Forall_forall in F2; [exact F2|exact Ha]. }
    subst b. f_equal. apply IH; auto.
    + eapply Permutation_cons_inv. exact Hp.
    + intros d1 d2 Hd1 Hd2. apply Hd; right; assumption.
Qed.

Lemma sort_by_x1_perm (l1 l2 : list detection) :
  Permutation l1 l2 -> distinct_x1 l1 ->
  sort_by bbox_x1 l1 = sort_by bbox_x1 l2.
Proof.
  intros Hp Hd. apply sorted_perm_eq.
  - apply (sort_by_sorted bbox_x1).
  - apply (sort_by_sorted bbox_x1).
  - rewrite <- (sort_by_perm bbox_x1 l1), <- (sort_by_perm bbox_x1 l2).
    exact Hp.
  - intros d1 d2 Hd1 Hd2. apply Hd.
    + eapply Permutation_in; [symmetry; apply sort_by_perm|exact Hd1].
    + eapply Permutation_in; [symmetry; apply sort_by_perm|exact Hd2].
Qed.

(** X7: the order in which the classifier lists its detections does not
    matter.  On two lists that hold the same detections, where no two
    detections share their [x1], the clusterer emits the same clusters, the
    parser reads the same string and gives the same result, and a tick does
    the same. *)
Theorem X7_order_of_detections_is_irrelevant :
  forall (raw1 raw2 : list detection) (w : OCRWorker),
    Permutation raw1 raw2 ->
    distinct_x1 raw1 ->
    cluster_detections_to_rich_clusters raw1
    = cluster_detections_to_rich_clusters raw2
    /\ coord_str_of raw1 = coord_str_of raw2
    /\ _parse_and_validate_from_detections raw1 w
       = _parse_and_validate_from_detections raw2 w
    /\ _apply_tracking_algorithm raw1 w = _apply_tracking_algorithm raw2 w.
Proof.
  intros raw1 raw2 w Hp Hd.
  pose proof (sort_by_x1_perm raw1 raw2 Hp Hd) as Hs.
  assert (Hc : cluster_detections_to_rich_clusters raw1
               = cluster_detections_to_rich_clusters raw2).
  { unfold cluster_detections_to_rich_clusters.
    destruct raw1 as [|a raw1], raw2 as [|b raw2].
    - reflexivity.
    - apply Permutation_nil in Hp. discriminate.
    - apply Permutation_sym, Permutation_nil in Hp. discriminate.
    - rewrite Hs. reflexivity. }
  assert (Hstr : coord_str_of raw1 = coord_str_of raw2)
    by (unfold coord_str_of; rewrite Hs; reflexivity).
  split; [exact Hc|]. split; [exact Hstr|]. split.
  - unfold _parse_and_validate_from_detections. rewrite Hstr.
    destruct raw1 as [|a raw1], raw2 as [|b raw2]; try reflexivity.
    + apply Permutation_nil in Hp. discriminate.
    + apply Permutation_sym, Permutation_nil in Hp. discriminate.
  - unfold _apply_tracking_algorithm. rewrite Hc.
    rewrite (Permutation_length Hp). reflexivity.
Qed.

Lemma X7_witness :
  cluster_detections_to_rich_clusters (rev (glyphs 0 "1,2,3"))
  = cluster_detections_to_rich_clusters (glyphs 0 "1,2,3").
Proof.
  apply (X7_order_of_detections_is_irrelevant (rev (glyphs 0 "1,2,3"))
           (glyphs 0 "1,2,3") (initial_worker 1000 5 50)).
  - symmetry. apply Permutation_rev.
  - intros d1 d2 H1 H2 Heq. cbn in H1, H2.
    repeat match goal with
           | H : _ \/ _ |- _ => destruct H as [H|H]
           | H : False |- _ => contradiction
           end; subst; try reflexivity; vm_compute in Heq; discriminate.
Defined.

(** ** The SVG transform *)

Lemma Qgtb_false (p q : Q) : Qgtb p q = false <-> (p <= q)%Q.
Proof.
  unfold Qgtb. rewrite negb_false_iff. apply Qle_bool_iff.
Qed.

Lemma Qgtb_true (p q : Q) : Qgtb p q = true <-> (q < p)%Q.
Proof.
  unfold Qgtb. rewrite negb_true_iff. split.
  - intros H. apply Qnot_le_lt. intros Hle. apply Qle_bool_iff in Hle.
    congruence.
  - intros H. destruct (Qle_bool p q) eqn:Hb; [|reflexivity].
    apply Qle_bool_iff in Hb. exfalso. exact (Qlt_not_le _ _ H Hb).
Qed.

Lemma det_not_zero (det : Q) :
  ((1 # 10000000000) <= Qabs.Qabs det)%Q -> ~ (det == 0)%Q.
Proof.
  intros H Hz. rewrite Hz in H. cbn in H. unfold Qle in H. cbn in H. lia.
Qed.

(** X15: when the determinant [a*d - b*c] of an SVG matrix has a magnitude
    of at least 1e-10, the inverse transform undoes the transform and the
    transform undoes the inverse transform; when the magnitude is smaller,
    or when there is no matrix, the inverse transform returns its argument
    unchanged.  The numbers are exact rationals: the rounding of floats is
    left out. *)
Theorem X15_svg_transform_round_trip :
  forall (m : Svg.matrix) (x y : Q),
    (((1 # 10000000000)
      <= Qabs.Qabs (Svg.a m * Svg.d m - Svg.b m * Svg.c m))%Q ->
     (let '(x1, y1) := Svg.apply_svg_transform x y (Some m) in
      let '(x2, y2) := Svg.inverse_svg_transform x1 y1 (Some m) in
      (x2 == x)%Q /\ (y2 == y)%Q)
     /\ (let '(x1, y1) := Svg.inverse_svg_transform x y (Some m) in
         let '(x2, y2) := Svg.apply_svg_transform x1 y1 (Some m) in
         (x2 == x)%Q /\ (y2 == y)%Q))
    /\ ((Qabs.Qabs (Svg.a m * Svg.d m - Svg.b m * Svg.c m)
         < (1 # 10000000000))%Q ->
        Svg.inverse_svg_transform x y (Some m) = (x, y))
    /\ Svg.inverse_svg_transform x y None = (x, y)
    /\ Svg.apply_svg_transform x y None = (x, y).
Proof.
  intros m x y. split; [|split; [|split; reflexivity]].
  - intros Hdet. pose proof (det_not_zero _ Hdet) as Hnz.
    unfold Svg.apply_svg_transform, Svg.inverse_svg_transform.
    apply Qgtb_false in Hdet. rewrite Hdet.
    split; split; field; exact Hnz.
  - intros Hdet. unfold Svg.inverse_svg_transform.
    apply Qgtb_true in Hdet. rewrite Hdet. reflexivity.
Qed.

Lemma X15_witness :
  let m := {| Svg.a := 2; Svg.b := 0; Svg.c := 0; Svg.d := 4;
              Svg.e := 10; Svg.f := 20 |}%Q in
  let '(x1, y1) := Svg.apply_svg_transform 3 5 (Some m) in
  let '(x2, y2) := Svg.inverse_svg_transform x1 y1 (Some m) in
  (x2 == 3)%Q /\ (y2 == 5)%Q.
Proof.
  apply (proj1 (proj1 (X15_svg_transform_round_trip
                         {| Svg.a := 2; Svg.b := 0; Svg.c := 0; Svg.d := 4;
                            Svg.e := 10; Svg.f := 20 |}%Q 3 5)
                  ltac:(vm_compute; discriminate))).
Defined.

(** ** The tracking history *)

(** X16: the handler of the tracked position never lets the history exceed
    100 entries: a history of at most 100 entries has at most 100 entries
    afterwards; when the handler records the position, the new entry is the
    last one and the entries before it are the latest of the old ones, in
    order; and an answer without a zoom is stored as the current position
    but not recorded. *)
Theorem X16_history_bounded :
  forall (now : string) (data : option History.position_data)
         (win : History.window),
    List.length (History.tracking_history win) <= 100 ->
    let win' := History.on_tracking_position_received now data win in
    List.length (History.tracking_history win') <= 100
    /\ (forall d la ln zm,
           History.tracking_active win = true ->
           data = Some d ->
           History.data_lat d = Some la -> History.data_lng d = Some ln ->
           History.data_zoom d = Some zm ->
           exists dropped,
             List.length dropped <= 1
             /\ dropped ++ History.tracking_history win'
                = History.tracking_history win
                  ++ [ {| History.timestamp := now; History.lat := la;
                          History.lng := ln; History.zoom := zm |} ])
    /\ (forall d la ln,
           History.tracking_active win = true ->
           data = Some d ->
           History.data_lat d = Some la -> History.data_lng d = Some ln ->
           History.data_zoom d = None ->
           History.tracking_history win' = History.tracking_history win
           /\ History.current_lat win' = la
           /\ History.current_lng win' = ln).
Proof.
  intros now data win Hlen. unfold History.on_tracking_position_received.
  split; [|split].
  - destruct (History.tracking_active win); cbn [negb]; [|exact Hlen].
    destruct data as [d|]; [|exact Hlen].
    destruct (History.data_lat d) as [la|]; [|exact Hlen].
    destruct (History.data_lng d) as [ln|]; [|exact Hlen].
    destruct (History.data_zoom d) as [zm|]; [|exact Hlen].
    cbn [History.tracking_history].
    match goal with
    | |- context [100 <? ?n] => destruct (Nat.ltb_spec 100 n) as [Hgt|Hle]
    end; [|exact Hle].
    destruct (History.tracking_history win) as [|e0 h].
    + cbn in Hgt. lia.
    + cbn [app List.tl]. cbn [List.length] in Hlen.
      rewrite length_app. cbn [List.length]. lia.
  - intros d la ln zm Hact -> Hla Hln Hzm.
    rewrite Hact. cbn [negb]. rewrite Hla, Hln, Hzm.
    cbn [History.tracking_history].
    match goal with
    | |- context [100 <? ?n] => destruct (Nat.ltb_spec 100 n) as [Hgt|Hle]
    end.
    + destruct (History.tracking_history win) as [|e0 h].
      * cbn in Hgt. lia.
      * exists [e0]. split; [cbn; lia|reflexivity].
    + exists []. split; [cbn; lia|reflexivity].
  - intros d la ln Hact -> Hla Hln Hzm.
    rewrite Hact. cbn [negb]. rewrite Hla, Hln, Hzm. cbn. auto.
Qed.

Lemma X16_witness :
  List.length
    (History.tracking_history
       (History.on_tracking_position_received "10:00:00"
          (Some {| History.data_lat := Some 1%Q; History.data_lng := Some 2%Q;
                   History.data_zoom := Some 3%Q |})
          {| History.tracking_active := true; History.current_lat := 0;
             History.current_lng := 0; History.current_zoom := None;
             History.tracking_history := [] |}))
  <= 100.
Proof.
  apply (proj1 (X16_history_bounded "10:00:00"
                  (Some {| History.data_lat := Some 1%Q;
                           History.data_lng := Some 2%Q;
                           History.data_zoom := Some 3%Q |})
                  {| History.tracking_active := true; History.current_lat := 0;
                     History.current_lng := 0; History.current_zoom := None;
                     History.tracking_history := [] |}
                  ltac:(cbn; lia))).
Defined.

(** ** The calibration file *)

Lemma lookup_setitem_same {V : Type} (k : string) (v : V) (data : Store.dict V) :
  Store.lookup k (Store.setitem k v data) = Some v.
Proof.
  induction data as [|[k' v'] data IH]; cbn.
  - rewrite String.eqb_refl. reflexivity.
  - destruct (String.eqb k k') eqn:Hk; cbn.
    + rewrite String.eqb_refl. reflexivity.
    + rewrite Hk. exact IH.
Qed.

Lemma lookup_setitem_other {V : Type} (k k2 : string) (v : V)
    (data : Store.dict V) :
  k2 <> k -> Store.lookup k2 (Store.setitem k v data) = Store.lookup k2 data.
Proof.
  intros Hne. induction data as [|[k' v'] data IH]; cbn.
  - destruct (String.eqb_spec k2 k); [contradiction|reflexivity].
  - destruct (String.eqb_spec k k') as [<-|Hk]; cbn.
    + destruct (String.eqb_spec k2 k); [contradiction|reflexivity].
    + destruct (String.eqb k2 k'); [reflexivity|exact IH].
Qed.

Lemma lookup_delitem_same {V : Type} (k : string) (data : Store.dict V) :
  Store.lookup k (Store.delitem k data) = None.
Proof.
  unfold Store.delitem. induction data as [|[k' v'] data IH]; cbn;
    [reflexivity|].
  destruct (String.eqb k k') eqn:Hk; cbn; [exact IH|].
  rewrite Hk. exact IH.
Qed.

Lemma lookup_delitem_other {V : Type} (k k2 : string) (data : Store.dict V) :
  k2 <> k -> Store.lookup k2 (Store.delitem k data) = Store.lookup k2 data.
Proof.
  intros Hne. unfold Store.delitem.
  induction data as [|[k' v'] data IH]; cbn; [reflexivity|].
  destruct (String.eqb_spec k k') as [<-|Hk]; cbn.
  - destruct (String.eqb_spec k2 k); [contradiction|exact IH].
  - destruct (String.eqb k2 k'); [reflexivity|exact IH].
Qed.

(** X17: a calibration that is saved is the one that is loaded back.  After
    [save_calibration] for a map, [load_calibration] for the same map
    returns the saved transform and [has_calibration] answers [True],
    whether the file existed or not; the maps whose key is different keep
    what they had; and in local mode the area identifier plays no part: a
    transform saved with one area is loaded with any other. *)
Theorem X17_saved_calibration_is_loaded :
  forall (now mode name : string) (m : Calibration.TransformMatrix)
         (area : option string) (fs : Store.file),
    let fs' := snd (Store.save_calibration now mode name m area fs) in
    Store.load_calibration mode name area fs' = Some m
    /\ Store.has_calibration mode name area fs' = true
    /\ (forall mode2 name2 area2,
           Calibration.get_map_key mode2 name2 area2
           <> Calibration.get_map_key mode name area ->
           Store.load_calibration mode2 name2 area2 fs'
           = Store.load_calibration mode2 name2 area2 fs
           /\ Store.has_calibration mode2 name2 area2 fs'
              = Store.has_calibration mode2 name2 area2 fs)
    /\ (mode <> "online" ->
        forall area2, Store.load_calibration mode name area2 fs' = Some m).
Proof.
  intros now mode name m area fs.
  unfold Store.save_calibration, Store.load_calibration,
    Store.has_calibration. cbn [snd Store.load_all_calibrations].
  split; [|split; [|split]].
  - rewrite lookup_setitem_same. reflexivity.
  - rewrite lookup_setitem_same. reflexivity.
  - intros mode2 name2 area2 Hne.
    rewrite (lookup_setitem_other _ _ _ _ Hne). auto.
  - intros Hmode area2.
    assert (Hk : Calibration.get_map_key mode name area2
                 = Calibration.get_map_key mode name area).
    { unfold Calibration.get_map_key.
      destruct (String.eqb_spec mode "online"); [contradiction|reflexivity]. }
    rewrite Hk, lookup_setitem_same. reflexivity.
Qed.

Lemma X17_witness :
  Store.load_calibration "local" "world" (Some "8")
    (snd (Store.save_calibration "2025-01-01T10:00:00" "local" "world"
            (matrix_of [1 # 2; 1 # 2; 0; 1 # 2; 1 # 2; 0]%Q) None None))
  = Some (matrix_of [1 # 2; 1 # 2; 0; 1 # 2; 1 # 2; 0]%Q).
Proof.
  apply (proj2 (proj2 (proj2
           (X17_saved_calibration_is_loaded "2025-01-01T10:00:00" "local"
              "world" (matrix_of [1 # 2; 1 # 2; 0; 1 # 2; 1 # 2; 0]%Q)
              None None)))).
  discriminate.
Defined.

(** X18: [delete_calibration] answers [True] exactly when the map had a
    calibration; afterwards the map has none, and the maps whose key is
    different keep what they had; on a map without calibration the file is
    left as it is. *)
Theorem X18_deleted_calibration_is_gone :
  forall (mode name : string) (area : option string) (fs : Store.file),
    let r := Store.delete_calibration mode name area fs in
    fst r = Store.has_calibration mode name area fs
    /\ Store.has_calibration mode name area (snd r) = false
    /\ Store.load_calibration mode name area (snd r) = None
    /\ (forall mode2 name2 area2,
           Calibration.get_map_key mode2 name2 area2
           <> Calibration.get_map_key mode name area ->
           Store.load_calibration mode2 name2 area2 (snd r)
           = Store.load_calibration mode2 name2 area2 fs)
    /\ (fst r = false -> snd r = fs).
Proof.
  intros mode name area fs.
  unfold Store.delete_calibration, Store.load_calibration,
    Store.has_calibration.
  destruct (Store.lookup (Calibration.get_map_key mode name area)
              (Store.load_all_calibrations fs)) as [rec|] eqn:Hl;
    cbn [fst snd Store.load_all_calibrations].
  - rewrite lookup_delitem_same.
    split; [reflexivity|]. split; [reflexivity|]. split; [reflexivity|].
    split; [|discriminate].
    intros mode2 name2 area2 Hne.
    rewrite (lookup_delitem_other _ _ _ Hne). reflexivity.
  - rewrite Hl. auto.
Qed.

Lemma X18_witness :
  snd (Store.delete_calibration "online" "kuro" (Some "8") (Some []))
  = Some [].
Proof.
  apply (proj2 (proj2 (proj2 (proj2
           (X18_deleted_calibration_is_gone "online" "kuro" (Some "8")
              (Some [])))))).
  reflexivity.
Defined.

(** ** The fitted transform *)

Lemma dot_lat_row (px py : Q) (sol : list Q) :
  (Calibration.dot [px; py; 1; 0; 0; 0]%Q sol
   == nth 0 sol 0 * px + nth 1 sol 0 * py + nth 2 sol 0)%Q.
Proof.
  destruct sol as [|s0 [|s1 [|s2 [|s3 [|s4 [|s5 sol]]]]]]; cbn; ring.
Qed.

Lemma dot_lon_row (px py : Q) (sol : list Q) :
  (Calibration.dot [0; 0; 0; px; py; 1]%Q sol
   == nth 3 sol 0 * px + nth 4 sol 0 * py + nth 5 sol 0)%Q.
Proof.
  destruct sol as [|s0 [|s1 [|s2 [|s3 [|s4 [|s5 sol]]]]]]; cbn; ring.
Qed.

Lemma design_shape (points : list Calibration.CalibrationPoint) :
  List.length (Calibration.design_matrix points) = 2 * List.length points
  /\ List.length (Calibration.design_rhs points) = 2 * List.length points
  /\ Forall (fun row => List.length row = 6) (Calibration.design_matrix points).
Proof.
  unfold Calibration.design_matrix, Calibration.design_rhs.
  induction points as [|p points [IH1 [IH2 IH3]]].
  - cbn. auto.
  - cbn [flat_map Calibration.rows_of Calibration.rhs_of app List.length].
    rewrite IH1, IH2. split; [lia|]. split; [lia|].
    constructor; [reflexivity|]. constructor; [reflexivity|]. exact IH3.
Qed.

(** The equations of the system: the row of index [i] applied to [sol]
    gives the entry of index [i] of the right-hand side. *)
Lemma solves_point (points : list Calibration.CalibrationPoint) (sol : list Q) :
  (forall i row, nth_error (Calibration.design_matrix points) i = Some row ->
                 (Calibration.dot row sol
                  == nth i (Calibration.design_rhs points) 0)%Q) ->
  forall p, In p points ->
            (Calibration.dot (nth 0 (Calibration.rows_of p) []) sol
             == Calibration.lat p)%Q
            /\ (Calibration.dot (nth 1 (Calibration.rows_of p) []) sol
                == Calibration.lon p)%Q.
Proof.
  induction points as [|q points IH]; intros Hsol p Hin; [contradiction|].
  destruct Hin as [->|Hin].
  - split.
    + apply (Hsol 0). reflexivity.
    + apply (Hsol 1). reflexivity.
  - apply IH; [|exact Hin]. intros i row Hi.
    apply (Hsol (S (S i))). exact Hi.
Qed.

(** X19: the system that the solver builds has two equations and two
    right-hand sides for each point, each equation with six coefficients;
    and when the six numbers that the least-squares routine answers satisfy
    every equation, the transform that the solver returns sends the game
    coordinates of each calibration point to its geographic coordinates.
    The numbers are exact rationals: the rounding of floats is left out. *)
Theorem X19_exact_fit_reproduces_the_points :
  forall (lstsq : list (list Q) -> list Q -> option (list Q))
         (points : list Calibration.CalibrationPoint) (sol : list Q),
    (List.length (Calibration.design_matrix points) = 2 * List.length points
     /\ List.length (Calibration.design_rhs points) = 2 * List.length points
     /\ Forall (fun row => List.length row = 6)
          (Calibration.design_matrix points))
    /\ (2 <= List.length points ->
        lstsq (Calibration.design_matrix points)
          (Calibration.design_rhs points) = Some sol ->
        (forall i row,
            nth_error (Calibration.design_matrix points) i = Some row ->
            (Calibration.dot row sol
             == nth i (Calibration.design_rhs points) 0)%Q) ->
        exists m,
          Calibration.calculate_transform_matrix lstsq points
          = Calibration.Ok m
          /\ forall p, In p points ->
               exists la lo,
                 Calibration.transform (Calibration.x p) (Calibration.y p)
                   (Some m) = Calibration.Ok (la, lo)
                 /\ (la == Calibration.lat p)%Q
                 /\ (lo == Calibration.lon p)%Q).
Proof.
  intros lstsq points sol. split; [apply design_shape|].
  intros Hlen Hsol Heqs.
  unfold Calibration.calculate_transform_matrix.
  destruct (Nat.ltb_spec (List.length points) 2); [lia|]. rewrite Hsol.
  eexists. split; [reflexivity|].
  intros p Hin. destruct (solves_point points sol Heqs p Hin) as [H1 H2].
  cbn [Calibration.rows_of nth] in H1, H2.
  rewrite dot_lat_row in H1. rewrite dot_lon_row in H2.
  unfold Calibration.transform.
  cbn [Calibration.a Calibration.b Calibration.c Calibration.d Calibration.e
       Calibration.f].
  eexists. eexists. split; [reflexivity|]. split; assumption.
Qed.

Lemma X19_witness :
  exists m,
    Calibration.calculate_transform_matrix example_lstsq example_points
    = Calibration.Ok m
    /\ forall p, In p example_points ->
         exists la lo,
           Calibration.transform (Calibration.x p) (Calibration.y p) (Some m)
           = Calibration.Ok (la, lo)
           /\ (la == Calibration.lat p)%Q /\ (lo == Calibration.lon p)%Q.
Proof.
  apply (proj2 (X19_exact_fit_reproduces_the_points example_lstsq
                  example_points [1 # 2; 1 # 2; 0; 1 # 2; 1 # 2; 0]%Q)).
  - cbn. lia.
  - reflexivity.
  - intros i row Hi.
    do 4 (destruct i as [|i];
          [injection Hi as <-; vm_compute; reflexivity|]).
    destruct i; discriminate.
Defined.
